(** * Stored procedures of the DocumentDB persistence layer

    A shallow embedding of the two server-side stored procedures of
    [src/persistence/common/stored-procedures]:

    - [Update]      : [updateFunc] of [update.ts];
    - [UpdateProc]  : the [serverScript] of [updateProc], the variant of the
                      update procedure with continuation tokens (second
                      document of [BulkDeleteStoredProcedure.ts]);
    - [BulkDelete]  : the [serverScript] of [bulkDeleteProc];

    and of their callers, [DatabaseUtils], [BaseCRUDRepository] and
    [findByKey] of [UsersRepository], over a client that is left open.

    Documents are JavaScript objects used as maps from field names to JSON
    values; the scripts talk to the collection through [queryDocuments],
    [replaceDocument] and [deleteDocument], each of which is either accepted
    (its callback runs later, with an error or a result) or declined because
    the execution budget of the invocation is used up.

    Conventions of the embedding:
    - the arguments of a script arrive as JSON, so they are trees: the array
      that [document[f] = update.$set[f]] shares with the command set is never
      read through the command set again, and values are passed by copy;
    - field names are ordinary property names (the accessor [__proto__] is
      left out);
    - the budget of an invocation is the number of requests the store still
      accepts; a script issues its next request only from the callback of the
      one before, so a callback and the code after a declined request never
      both run, and the embedding is sequential;
    - a script that throws ends the invocation; what the store then does with
      the writes already made is not part of the scripts and is not modelled. *)

From Stdlib Require Import ZArith String List Lia.
From stdpp Require Import base gmap list strings.

#[local] Open Scope string_scope.
#[local] Set Warnings "-register-all".

(** ** JSON values and JavaScript primitives *)

(** Numbers are the integers among the JSON numbers.  [JUndefined] is what a
    property read gives when there is nothing to read. *)
Inductive value : Type :=
| JUndefined
| JNull
| JBool (b : bool)
| JNum (n : Z)
| JStr (s : string)
| JArr (xs : list value)
| JObj (o : list (string * value)).

(** An operator group ([update.$set], [update.$pop], ...): the own properties
    of the object, in the order [Object.keys] lists them. *)
Abbreviation group := (list (string * value)).

(** [Object.keys(g)] *)
Definition keys (g : group) : list string := map fst g.

(** [g[f]] on an operator group *)
Fixpoint prop (g : group) (f : string) : value :=
  match g with
  | [] => JUndefined
  | (k, v) :: g' => if String.eqb k f then v else prop g' f
  end.

(** [document[f]] on a document *)
Definition field (document : gmap string value) (f : string) : value :=
  default JUndefined (document !! f).

(** [Array.isArray(v)] *)
Definition isArray (v : value) : bool :=
  match v with JArr _ => true | _ => false end.

(** [a.pop()], [a.shift()], [a.push(v)] and [a.unshift(v)], as the array
    they leave behind.  On an empty array [pop] and [shift] change nothing. *)
Definition array_pop (xs : list value) : list value := removelast xs.
Definition array_shift (xs : list value) : list value := tail xs.
Definition array_push (xs : list value) (v : value) : list value := xs ++ [v].
Definition array_unshift (xs : list value) (v : value) : list value := v :: xs.

(** [IUpdateCommands]: four optional operator groups. *)
Record IUpdateCommands : Type := mkCommands {
  cmd_set : option group;      (* $set *)
  cmd_pop : option group;      (* $pop *)
  cmd_push : option group;     (* $push *)
  cmd_unshift : option group   (* $unshift *)
}.

(** [!id] for an id that is a string, [null] or [undefined] *)
Definition falsy_id (id : option string) : bool :=
  match id with
  | None => true
  | Some s => String.eqb s ""
  end.

(** ** Exceptions *)

(** What a script can throw: [new Error(message)], the [TypeError] of the
    engine when a property of [undefined] is read, or the error object a
    callback received from the store. *)
Inductive thrown : Type :=
| Error (message : string)
| TypeError (message : string)
| StoreError (code : Z).

Inductive result (A : Type) : Type :=
| Ok (a : A)
| Throw (e : thrown).
Arguments Ok {A} a.
Arguments Throw {A} e.

Definition bind {A B : Type} (r : result A) (k : A -> result B) : result B :=
  match r with
  | Ok a => k a
  | Throw e => Throw e
  end.

Notation "'do' x <- r ; k" := (bind r (fun x => k))
  (at level 10, x name, r at level 100, k at level 200).

(** [for (i = 0; i < fields.length; i++) body(fields[i])] over a document
    that the body updates or throws from. *)
Fixpoint for_fields (body : string -> gmap string value -> result (gmap string value))
    (fields : list string) (document : gmap string value)
    : result (gmap string value) :=
  match fields with
  | [] => Ok document
  | f :: rest => do document' <- body f document; for_fields body rest document'
  end.

(** An array method called on [document[f]]: the array is updated in place. *)
Definition on_array (f : string) (method : list value -> list value)
    (document : gmap string value) : gmap string value :=
  match field document f with
  | JArr xs => <[f := JArr (method xs)]> document
  | _ => document
  end.

(** ** The collection

    The document store ([ICollection], the engine behind [getContext()]) is
    not part of the repository: the scripts only call it.  It is modelled by
    its state and by the three requests the scripts issue. *)

Inductive query : Type :=
| SelectAll                      (* SELECT * FROM root *)
| SelectById (id : string).      (* select * from root r where r.id = @id *)

Inductive request : Type :=
| QueryRequest (q : query) (continuation : option nat)
| ReplaceRequest (link : value) (document : gmap string value) (etag : value)
| DeleteRequest (link : value).

Inductive event : Type :=
| Declined (r : request)
| Served (r : request).

(** Modelled from the spec: the store that the scripts run in, "an
    underlying document store that already provides per-document atomic
    replace-with-version-check and a query-with-continuation mechanism".
    Rows of a query come in pages; [layout] gives the sizes of the pages the
    store cuts a result into (a page may be empty and still carry a
    continuation token), [faults] the error, if any, that the store reports
    to the callback of each request it serves, and [stamp] how it rewrites
    the system fields of a document it writes.  [log] records every request
    issued, newest first. *)
Record Store : Type := mkStore {
  docs : list (gmap string value);
  layout : list nat;
  faults : list (option Z);
  stamp : gmap string value -> gmap string value;
  log : list event
}.

Definition with_docs (ds : list (gmap string value)) (s : Store) : Store :=
  mkStore ds (layout s) (faults s) (stamp s) (log s).

(** A request the store declines: nothing happens but the log entry. *)
Definition decline (r : request) (s : Store) : Store :=
  mkStore (docs s) (layout s) (faults s) (stamp s) (Declined r :: log s).

(** A request the store serves: the next fault is consumed. *)
Definition serve (r : request) (s : Store) : Store :=
  mkStore (docs s) (layout s) (tail (faults s)) (stamp s) (Served r :: log s).

Definition next_fault (s : Store) : option Z :=
  match faults s with
  | Some code :: _ => Some code
  | _ => None
  end.

Definition has_id (id : string) (d : gmap string value) : bool :=
  match d !! "id" with
  | Some (JStr i) => String.eqb i id
  | _ => false
  end.

Definition has_link (l : string) (d : gmap string value) : bool :=
  match d !! "_self" with
  | Some (JStr l') => String.eqb l' l
  | _ => false
  end.

Definition rows (q : query) (ds : list (gmap string value)) : list (gmap string value) :=
  match q with
  | SelectAll => ds
  | SelectById id => List.filter (has_id id) ds
  end.

Fixpoint paginate (sizes : list nat) (rs : list (gmap string value))
    : list (list (gmap string value)) :=
  match sizes with
  | [] => [rs]
  | n :: sizes' => take n rs :: paginate sizes' (drop n rs)
  end.

(** The pages of a query; a continuation token is the index of the next page. *)
Definition pages (q : query) (s : Store) : list (list (gmap string value)) :=
  paginate (layout s) (rows q (docs s)).

Definition next_token (ps : list (list (gmap string value))) (c : nat) : option nat :=
  if Nat.ltb (S c) (length ps) then Some (S c) else None.

(** What the callback of [queryDocuments] receives. *)
Inductive feed : Type :=
| FeedError (code : Z)
| Feed (documents : list (gmap string value)) (continuation : option nat).

(** Modelled from the spec: [collection.queryDocuments], once accepted.
    The callback gets an error or one page of the rows, with a continuation
    token when more pages follow. *)
Definition queryDocuments (q : query) (continuation : option nat) (s : Store)
    : feed * Store :=
  let s' := serve (QueryRequest q continuation) s in
  match next_fault s with
  | Some code => (FeedError code, s')
  | None =>
      let c := default 0%nat continuation in
      (Feed (default [] (pages q s !! c)) (next_token (pages q s) c), s')
  end.

Fixpoint find_link (l : string) (ds : list (gmap string value)) : option nat :=
  match ds with
  | [] => None
  | d :: ds' => if has_link l d then Some 0%nat else S <$> find_link l ds'
  end.

(** The version check of a conditional write: an etag that is a string has
    to be the one stored; without one there is no condition. *)
Definition etag_matches (etag : value) (stored : gmap string value) : bool :=
  match etag with
  | JStr e =>
      match stored !! "_etag" with
      | Some (JStr e') => String.eqb e' e
      | _ => false
      end
  | _ => true
  end.

(** What the callback of [replaceDocument] receives. *)
Inductive replaced : Type :=
| ReplaceError (code : Z)
| Replaced (updatedDocument : gmap string value).

(** Modelled from the spec: [collection.replaceDocument], once accepted:
    "replace only if current version token still matches what we read".
    The document under the link is replaced and the stored version is handed
    to the callback, or the callback gets an error and nothing changes. *)
Definition replaceDocument (link : value) (document : gmap string value)
    (etag : value) (s : Store) : replaced * Store :=
  let s' := serve (ReplaceRequest link document etag) s in
  match next_fault s with
  | Some code => (ReplaceError code, s')
  | None =>
      match link with
      | JStr l =>
          match find_link l (docs s) with
          | Some i =>
              if etag_matches etag (default ∅ (docs s !! i))
              then (Replaced (stamp s document),
                    with_docs (<[i := stamp s document]> (docs s)) s')
              else (ReplaceError 412%Z, s')
          | None => (ReplaceError 404%Z, s')
          end
      | _ => (ReplaceError 400%Z, s')
      end
  end.

(** What the callback of [deleteDocument] receives. *)
Inductive deletion : Type :=
| DeleteError (code : Z)
| Deleted.

(** Modelled from the spec: [collection.deleteDocument], once accepted:
    a delete by the self-link of the document. *)
Definition deleteDocument (link : value) (s : Store) : deletion * Store :=
  let s' := serve (DeleteRequest link) s in
  match next_fault s with
  | Some code => (DeleteError code, s')
  | None =>
      match link with
      | JStr l =>
          match find_link l (docs s) with
          | Some i => (Deleted, with_docs (delete i (docs s)) s')
          | None => (DeleteError 404%Z, s')
          end
      | _ => (DeleteError 400%Z, s')
      end
  end.

(** How an invocation ends: the script ran to its end, with the body the
    response then has (if [setBody] was called), or it threw. *)
Inductive outcome (B : Type) : Type :=
| Completed (body : option B)
| Aborted (e : thrown).
Arguments Completed {B} body.
Arguments Aborted {B} e.

(** ** [update.ts]: [updateFunc] *)

Module Update.

(** The $set operator sets the value of a field. *)
Definition set (document : gmap string value) (update : IUpdateCommands)
    : result (gmap string value) :=
  match cmd_set update with
  | Some g =>
      for_fields (fun f document => Ok (<[f := prop g f]> document))
                 (keys g) document
  | None => Ok document
  end.

(** The $pop operator: whatever the value given for the field, the last
    element goes. *)
Definition pop (document : gmap string value) (update : IUpdateCommands)
    : result (gmap string value) :=
  match cmd_pop update with
  | Some g =>
      for_fields (fun f document =>
          if negb (isArray (field document f))
          then Throw (Error "Bad $pop parameter - field in document must be an array.")
          else Ok (on_array f array_pop document))
        (keys g) document
  | None => Ok document
  end.

(** The $push operator adds an item to an array at the end. *)
Definition push (document : gmap string value) (update : IUpdateCommands)
    : result (gmap string value) :=
  match cmd_push update with
  | Some g =>
      for_fields (fun f document =>
          if negb (isArray (field document f))
          then Throw (Error "Bad $push parameter - field in document must be an array.")
          else Ok (on_array f (fun xs => array_push xs (prop g f)) document))
        (keys g) document
  | None => Ok document
  end.

(** The $unshift operator adds an item to an array at the beginning. *)
Definition unshift (document : gmap string value) (update : IUpdateCommands)
    : result (gmap string value) :=
  match cmd_unshift update with
  | Some g =>
      for_fields (fun f document =>
          if negb (isArray (field document f))
          then Throw (Error "Bad $unshift parameter - field in document must be an array.")
          else Ok (on_array f (fun xs => array_unshift xs (prop g f)) document))
        (keys g) document
  | None => Ok document
  end.

(** The four update operators of [tryUpdate], in the order it calls them. *)
Definition operators (document : gmap string value) (update : IUpdateCommands)
    : result (gmap string value) :=
  do document <- set document update;
  do document <- pop document update;
  do document <- push document update;
  unshift document update.

Definition tryUpdate (updateCommands : IUpdateCommands) (budget : nat)
    (document : gmap string value) (s : Store)
    : outcome (gmap string value) * Store :=
  let etag := field document "_etag" in
  match operators document updateCommands with
  | Throw e => (Aborted e, s)
  | Ok document =>
      match budget with
      | O => (Aborted (Error "The stored procedure timed out."),
              decline (ReplaceRequest (field document "_self") document etag) s)
      | S _ =>
          match replaceDocument (field document "_self") document etag s with
          | (ReplaceError code, s') => (Aborted (StoreError code), s')
          | (Replaced updatedDocument, s') => (Completed (Some updatedDocument), s')
          end
      end
  end.

(** One query by id; its first row, if any, is the document to update. *)
Definition tryQueryAndUpdate (id : string) (updateCommands : IUpdateCommands)
    (budget : nat) (s : Store) : outcome (gmap string value) * Store :=
  match budget with
  | O => (Aborted (Error "The stored procedure timed out."),
          decline (QueryRequest (SelectById id) None) s)
  | S budget' =>
      match queryDocuments (SelectById id) None s with
      | (FeedError code, s') => (Aborted (StoreError code), s')
      | (Feed (document :: _) _, s') => tryUpdate updateCommands budget' document s'
      | (Feed [] _, s') => (Aborted (Error "Document not found."), s')
      end
  end.

Definition updateFunc (id : option string) (updateCommands : option IUpdateCommands)
    (budget : nat) (s : Store) : outcome (gmap string value) * Store :=
  match id with
  | None => (Aborted (Error "The id is undefined or null."), s)
  | Some id =>
      if String.eqb id "" then (Aborted (Error "The id is undefined or null."), s)
      else
        match updateCommands with
        | None => (Aborted (Error "The update command is undefined or null."), s)
        | Some updateCommands => tryQueryAndUpdate id updateCommands budget s
        end
  end.

End Update.

(** ** [updateProc]: the update script with continuation tokens *)

Module UpdateProc.
Section Script.

(** [ToNumber] of the engine on strings, arrays and objects ([None] is
    [NaN]); on the other values it is spelled out in [less_than_zero]. *)
Variable ToNumber : value -> option Z.

(** [v < 0] *)
Definition less_than_zero (v : value) : bool :=
  match v with
  | JNum n => (n <? 0)%Z
  | JUndefined | JNull | JBool _ => false
  | _ =>
      match ToNumber v with
      | Some n => (n <? 0)%Z
      | None => false
      end
  end.

(** The $set operator sets the value of a field. *)
Definition set (document : gmap string value) (update : IUpdateCommands)
    : result (gmap string value) :=
  match cmd_set update with
  | Some g =>
      for_fields (fun f document => Ok (<[f := prop g f]> document))
                 (keys g) document
  | None => Ok document
  end.

(** The $pop operator removes the first or last item of an array. *)
Definition pop (document : gmap string value) (update : IUpdateCommands)
    : result (gmap string value) :=
  match cmd_pop update with
  | Some g =>
      for_fields (fun f document =>
          if negb (isArray (field document f))
          then Throw (Error "Bad $pop parameter - field in document must be an array.")
          else if less_than_zero (prop g f)
          then Ok (on_array f array_shift document)
          else Ok (on_array f array_pop document))
        (keys g) document
  | None => Ok document
  end.

(** The $push operator adds an item to an array at the end. *)
Definition push (document : gmap string value) (update : IUpdateCommands)
    : result (gmap string value) :=
  match cmd_push update with
  | Some g =>
      for_fields (fun f document =>
          if negb (isArray (field document f))
          then Throw (Error "Bad $push parameter - field in document must be an array.")
          else Ok (on_array f (fun xs => array_push xs (prop g f)) document))
        (keys g) document
  | None => Ok document
  end.

(** The $unshift operator: the item it puts at the beginning is read from
    [update.$push], and reading it throws when there is no such group. *)
Definition unshift (document : gmap string value) (update : IUpdateCommands)
    : result (gmap string value) :=
  match cmd_unshift update with
  | Some g =>
      for_fields (fun f document =>
          if negb (isArray (field document f))
          then Throw (Error "Bad $unshift parameter - field in document must be an array.")
          else
            match cmd_push update with
            | None => Throw (TypeError "update.$push is undefined")
            | Some p => Ok (on_array f (fun xs => array_unshift xs (prop p f)) document)
            end)
        (keys g) document
  | None => Ok document
  end.

Definition operators (document : gmap string value) (update : IUpdateCommands)
    : result (gmap string value) :=
  do document <- set document update;
  do document <- pop document update;
  do document <- push document update;
  unshift document update.

Definition tryUpdate (updateCommands : IUpdateCommands) (budget : nat)
    (document : gmap string value) (s : Store)
    : outcome (gmap string value) * Store :=
  let etag := field document "_etag" in
  match operators document updateCommands with
  | Throw e => (Aborted e, s)
  | Ok document =>
      match budget with
      | O => (Aborted (Error "The stored procedure timed out."),
              decline (ReplaceRequest (field document "_self") document etag) s)
      | S _ =>
          match replaceDocument (field document "_self") document etag s with
          | (ReplaceError code, s') => (Aborted (StoreError code), s')
          | (Replaced updatedDocument, s') => (Completed (Some updatedDocument), s')
          end
      end
  end.

(** Queries by id, page after page while the pages are empty and come with
    a continuation token.  Every query the store serves uses up budget. *)
Fixpoint tryQueryAndUpdate (id : string) (updateCommands : IUpdateCommands)
    (budget : nat) (continuation : option nat) (s : Store)
    : outcome (gmap string value) * Store :=
  match budget with
  | O => (Aborted (Error "The stored procedure timed out."),
          decline (QueryRequest (SelectById id) continuation) s)
  | S budget' =>
      match queryDocuments (SelectById id) continuation s with
      | (FeedError code, s') => (Aborted (StoreError code), s')
      | (Feed (document :: _) _, s') => tryUpdate updateCommands budget' document s'
      | (Feed [] (Some token), s') =>
          tryQueryAndUpdate id updateCommands budget' (Some token) s'
      | (Feed [] None, s') => (Aborted (Error "Document not found."), s')
      end
  end.

Definition serverScript (id : option string) (updateCommands : option IUpdateCommands)
    (budget : nat) (s : Store) : outcome (gmap string value) * Store :=
  match id with
  | None => (Aborted (Error "The id is undefined or null."), s)
  | Some id =>
      if String.eqb id "" then (Aborted (Error "The id is undefined or null."), s)
      else
        match updateCommands with
        | None => (Aborted (Error "The update is undefined or null."), s)
        | Some updateCommands => tryQueryAndUpdate id updateCommands budget None s
        end
  end.

End Script.
End UpdateProc.

(** ** [bulkDeleteProc] *)

Module BulkDelete.

Record responseBody : Type := mkBody { deleted : nat }.

(** Deletes the queued documents from the front of the array.  [response]
    is the body the response has so far; with an empty array the function
    does nothing. *)
Fixpoint tryDelete (budget : nat) (documents : list (gmap string value))
    (body : responseBody) (response : option responseBody) (s : Store)
    {struct documents} : outcome responseBody * Store :=
  match documents with
  | [] => (Completed response, s)
  | document :: rest =>
      match budget with
      | O => (Completed (Some body),
              decline (DeleteRequest (field document "_self")) s)
      | S budget' =>
          match deleteDocument (field document "_self") s with
          | (DeleteError code, s') => (Aborted (StoreError code), s')
          | (Deleted, s') =>
              tryDelete budget' rest (mkBody (S (deleted body))) response s'
          end
      end
  end.

Definition tryQueryAndDelete (budget : nat) (continuation : option nat)
    (body : responseBody) (response : option responseBody) (s : Store)
    : outcome responseBody * Store :=
  match budget with
  | O => (Completed (Some body),
          decline (QueryRequest SelectAll continuation) s)
  | S budget' =>
      match queryDocuments SelectAll continuation s with
      | (FeedError code, s') => (Aborted (StoreError code), s')
      | (Feed [] _, s') => (Completed (Some body), s')
      | (Feed retrievedDocs _, s') => tryDelete budget' retrievedDocs body response s'
      end
  end.

Definition serverScript (budget : nat) (s : Store) : outcome responseBody * Store :=
  tryQueryAndDelete budget None (mkBody 0) None s.

End BulkDelete.

(** ** Sample data *)

Module Sample.

Definition a : value := JStr "a".
Definition b : value := JStr "b".
Definition c : value := JStr "c".
Definition z : value := JStr "z".

(** [{id:"1", key:"test", _self:"docs/1", _etag:"v1"}] *)
Definition plain : gmap string value :=
  <["id" := JStr "1"]> (<["key" := JStr "test"]>
    (<["_self" := JStr "docs/1"]> (<["_etag" := JStr "v1"]> ∅))).

(** [{id:"1", key:"test", tags:t, _self:"docs/1", _etag:"v1"}] *)
Definition user (t : list value) : gmap string value :=
  <["tags" := JArr t]> plain.

(** [{id:"2", key:"other", _self:"docs/2", _etag:"w1"}] *)
Definition other : gmap string value :=
  <["id" := JStr "2"]> (<["key" := JStr "other"]>
    (<["_self" := JStr "docs/2"]> (<["_etag" := JStr "w1"]> ∅))).

(** [{id:"3", key:"third", _self:"docs/3", _etag:"x1"}] *)
Definition third : gmap string value :=
  <["id" := JStr "3"]> (<["key" := JStr "third"]>
    (<["_self" := JStr "docs/3"]> (<["_etag" := JStr "x1"]> ∅))).

(** The store gives a written document a new version token. *)
Definition restamp (d : gmap string value) : gmap string value :=
  <["_etag" := JStr "v2"]> d.

Definition store (ds : list (gmap string value)) (sizes : list nat) : Store :=
  mkStore ds sizes [] restamp [].

Definition only (f : string) (v : value) : option group := Some [(f, v)].

(** [{$pop: {tags: -1}}] *)
Definition pop_first : IUpdateCommands :=
  mkCommands None (only "tags" (JNum (-1))) None None.

(** [{$unshift: {tags: "z"}}] *)
Definition unshift_z : IUpdateCommands :=
  mkCommands None None None (only "tags" z).

(** [{$push: {tags: "c"}}] *)
Definition push_c : IUpdateCommands :=
  mkCommands None None (only "tags" c) None.

(** [{$set: {tags: []}, $push: {tags: "c"}}] *)
Definition set_then_push : IUpdateCommands :=
  mkCommands (only "tags" (JArr [])) None (only "tags" c) None.

(** [{$push: {tags: "c"}, $unshift: {tags: "z"}}] *)
Definition push_c_unshift_z : IUpdateCommands :=
  mkCommands None None (only "tags" c) (only "tags" z).

(** [{$pop: {tags: 1}, $push: {key: "x"}}]: [key] is not an array. *)
Definition push_on_key : IUpdateCommands :=
  mkCommands None (only "tags" (JNum 1)) (only "key" (JStr "x")) None.

(** [{$set: {tags: ["a","b"]}, $pop: {tags: -1}, $push: {tags: "c"},
      $unshift: {tags: "z"}}] *)
Definition all_four : IUpdateCommands :=
  mkCommands (only "tags" (JArr [a; b])) (only "tags" (JNum (-1)))
    (only "tags" c) (only "tags" z).

(** [{$set: {_etag: "forged"}}] *)
Definition set_etag : IUpdateCommands :=
  mkCommands (only "_etag" (JStr "forged")) None None None.

(** An engine whose [ToNumber] gives [NaN] on every string and object. *)
Definition nan : value -> option Z := fun _ => None.

End Sample.

(** A loop body that checks that [document[f]] is an array and then calls an
    array method on it: the shape of the $pop, $push and $unshift loops. *)
Definition guarded (message : string) (method : string -> list value -> list value)
    (f : string) (document : gmap string value) : result (gmap string value) :=
  if negb (isArray (field document f)) then Throw (Error message)
  else Ok (on_array f (method f) document).

(** The fields a command set names in one of its groups. *)
Definition group_keys (g : option group) : list string :=
  match g with Some g => keys g | None => [] end.

Definition targets (update : IUpdateCommands) : list string :=
  group_keys (cmd_set update) ++ group_keys (cmd_pop update) ++
  group_keys (cmd_push update) ++ group_keys (cmd_unshift update).

(** The errors of the three array operators. *)
Definition operator_error (e : thrown) : bool :=
  match e with
  | Error m =>
      String.eqb m "Bad $pop parameter - field in document must be an array."
      || String.eqb m "Bad $push parameter - field in document must be an array."
      || String.eqb m "Bad $unshift parameter - field in document must be an array."
  | _ => false
  end.

(** The errors of the input validation of the two update scripts. *)
Definition validation_error (e : thrown) : bool :=
  match e with
  | Error m =>
      String.eqb m "The id is undefined or null."
      || String.eqb m "The update command is undefined or null."
      || String.eqb m "The update is undefined or null."
  | _ => false
  end.

(** No request the store serves from now on reports an error. *)
Definition quiet (s : Store) : Prop :=
  forall k code, faults s !! k <> Some (Some code).

(** The second half of [tryUpdate], shared by the two update scripts: the
    document the operators left is written back under the version token
    read before them, unless they threw. *)
Definition write_back (etag : value) (budget : nat)
    (r : result (gmap string value)) (s : Store)
    : outcome (gmap string value) * Store :=
  match r with
  | Throw e => (Aborted e, s)
  | Ok document =>
      match budget with
      | O => (Aborted (Error "The stored procedure timed out."),
              decline (ReplaceRequest (field document "_self") document etag) s)
      | S _ =>
          match replaceDocument (field document "_self") document etag s with
          | (ReplaceError code, s') => (Aborted (StoreError code), s')
          | (Replaced updatedDocument, s') => (Completed (Some updatedDocument), s')
          end
      end
  end.

(** ** The repository: [DatabaseUtils], [BaseCRUDRepository], [UsersRepository]

    The repository calls the scripts through the client of the store.  The
    client ([DocumentClient] of the [documentdb] package), the validation
    of entities ([transformAndValidate]) and the configuration
    ([DATABASE_ID]) are not part of the repository: they are parameters.
    An [async] method is a function from the state of the world to the
    outcome of its promise and the state it leaves. *)

(** What is thrown or rejected with on the client side. *)
Inductive exn : Type :=
| JsTypeError (message : string)                     (* instanceof TypeError *)
| DbQueryError (code : Z) (body : string) (message : string)
| RepositoryError (message : string)
| UnexpectedDbError (message : string)
| QueryError (code : Z) (body : string)              (* the error object of the client *)
| ErrorArray (isValidationError : list bool)         (* an array, item by item *)
| SomethingElse.

Inductive promise (A : Type) : Type :=
| Resolved (a : A)
| Rejected (e : exn).
Arguments Resolved {A} a.
Arguments Rejected {A} e.

(** What the client hands to a callback: an error object or a result. *)
Inductive response (A : Type) : Type :=
| Failure (code : Z) (body : string)
| Success (a : A).
Arguments Failure {A} code body.
Arguments Success {A} a.

Record SqlQuerySpec : Type := mkSpec {
  query_text : string;
  parameters : list (string * value)
}.

(** The two procedures that are registered with a collection. *)
Inductive Procedure : Type := updateProc | bulkDeleteProc.

Definition procedure_id (p : Procedure) : string :=
  match p with
  | updateProc => "update"
  | bulkDeleteProc => "bulkDelete"
  end.

(** An argument of a stored procedure. *)
Inductive argument : Type :=
| AValue (v : value)
| ACommands (update : IUpdateCommands).

Module DocumentClient.

(** The requests the repository sends, over a state [C] of the store that is
    left open.  A query stands for the query together with its [toArray]. *)
Record t (C : Type) : Type := mk {
  queryDatabases : SqlQuerySpec -> C -> response (list (gmap string value)) * C;
  createDatabase : gmap string value -> C -> response (gmap string value) * C;
  queryCollections :
    value -> SqlQuerySpec -> C -> response (list (gmap string value)) * C;
  createCollection : value -> gmap string value -> C -> response (gmap string value) * C;
  queryStoredProcedures :
    value -> SqlQuerySpec -> C -> response (list (gmap string value)) * C;
  createStoredProcedure : value -> Procedure -> C -> response (gmap string value) * C;
  createDocument : value -> gmap string value -> C -> response (gmap string value) * C;
  queryDocuments :
    value -> SqlQuerySpec -> C -> response (list (gmap string value)) * C;
  executeStoredProcedure :
    value -> list argument -> C -> response (option (gmap string value)) * C;
  deleteDocument : value -> C -> response unit * C
}.
Arguments queryDatabases {C} _ _ _.
Arguments createDatabase {C} _ _ _.
Arguments queryCollections {C} _ _ _ _.
Arguments createCollection {C} _ _ _ _.
Arguments queryStoredProcedures {C} _ _ _ _.
Arguments createStoredProcedure {C} _ _ _ _.
Arguments createDocument {C} _ _ _ _.
Arguments queryDocuments {C} _ _ _ _.
Arguments executeStoredProcedure {C} _ _ _ _.
Arguments deleteDocument {C} _ _ _.

End DocumentClient.

(** [new DbQueryError(err)]: built without a message, so its message is the
    empty string. *)
Definition newDbQueryError (code : Z) (body : string) : exn :=
  DbQueryError code body "".

Module DatabaseUtils.
Section Utils.

Context {C : Type}.
Variable client : DocumentClient.t C.

Definition by_id (text : string) (id : string) : SqlQuerySpec :=
  mkSpec text [("@id", JStr id)].

Definition getOrCreateDatabase (databaseId : string) (c : C)
    : promise (gmap string value) * C :=
  match DocumentClient.queryDatabases client
          (by_id "SELECT * FROM root r WHERE r.id= @id" databaseId) c with
  | (Failure code body, c) => (Rejected (QueryError code body), c)
  | (Success [], c) =>
      match DocumentClient.createDatabase client {["id" := JStr databaseId]} c with
      | (Failure code body, c) => (Rejected (QueryError code body), c)
      | (Success result, c) => (Resolved result, c)
      end
  | (Success (first :: _), c) => (Resolved first, c)
  end.

Definition getOrCreateCollection (databaseLink : value) (collectionId : string) (c : C)
    : promise (gmap string value) * C :=
  match DocumentClient.queryCollections client databaseLink
          (by_id "SELECT * FROM root r WHERE r.id=@id" collectionId) c with
  | (Failure code body, c) => (Rejected (QueryError code body), c)
  | (Success [], c) =>
      match DocumentClient.createCollection client databaseLink
              {["id" := JStr collectionId]} c with
      | (Failure code body, c) => (Rejected (QueryError code body), c)
      | (Success result, c) => (Resolved result, c)
      end
  | (Success (first :: _), c) => (Resolved first, c)
  end.

Definition getOrCreateUpdateStoredProcedure (collectionLink : value) (c : C)
    : promise (gmap string value) * C :=
  match DocumentClient.queryStoredProcedures client collectionLink
          (by_id "SELECT * FROM root r WHERE r.id=@id" (procedure_id updateProc)) c with
  | (Failure code body, c) => (Rejected (QueryError code body), c)
  | (Success [], c) =>
      match DocumentClient.createStoredProcedure client collectionLink updateProc c with
      | (Failure code body, c) => (Rejected (QueryError code body), c)
      | (Success result, c) => (Resolved result, c)
      end
  | (Success (first :: _), c) => (Resolved first, c)
  end.

Definition getOrCreateBulkDeleteStoredProcedure (collectionLink : value) (c : C)
    : promise (gmap string value) * C :=
  match DocumentClient.queryStoredProcedures client collectionLink
          (by_id "SELECT * FROM root r WHERE r.id=@id" (procedure_id bulkDeleteProc)) c with
  | (Failure code body, c) => (Rejected (QueryError code body), c)
  | (Success [], c) =>
      match DocumentClient.createStoredProcedure client collectionLink bulkDeleteProc c with
      | (Failure code body, c) => (Rejected (QueryError code body), c)
      | (Success result, c) => (Resolved result, c)
      end
  | (Success (first :: _), c) => (Resolved first, c)
  end.

End Utils.
End DatabaseUtils.

Module BaseCRUDRepository.

(** The references a repository keeps once it is initialised. *)
Record fields : Type := mkFields {
  database : option (gmap string value);
  collection : option (gmap string value);
  updateProcedure : option (gmap string value);
  bulkDeleteProcedure : option (gmap string value)
}.

(** The first argument of [update] and [remove], by its [typeof]: an entity
    (['object']), an id (['string']) or anything else. *)
Inductive objOrId : Type :=
| AnObject (obj : gmap string value)
| AString (s : string)
| AnythingElse.

Section Repository.

Context {C : Type}.
Variable client : DocumentClient.t C.

(** The state of the world: the references of the repository, the store
    behind the client and the lines written with [console.error]. *)
Record world : Type := mkWorld {
  repo : fields;
  store : C;
  console : list string
}.

(** [DATABASE_ID] of the configuration, the collection id the repository
    was built with, [transformAndValidate] on one document and on an array
    of documents, the message of the engine's [TypeError] for a property
    read on [undefined], and the engine's conversion of a value that is not
    a string to a string. *)
Variable DATABASE_ID : string.
Variable collectionId : string.
Variable transformAndValidate : option (gmap string value) -> promise (gmap string value).
Variable transformAndValidateAll :
  list (gmap string value) -> promise (list (gmap string value)).
Variable undefined_read_message : string.
Variable ToString : value -> string.

(** Checks if the input contains only ValidationErrors. *)
Definition checkForValidationErrors (e : exn) : bool :=
  match e with
  | ErrorArray items => forallb (fun isValidationError => isValidationError) items
  | _ => false
  end.

(** Encapsulates all possible errors: the line written to the console and
    the error thrown. *)
Definition handleRepositoryErrors (e : exn) : string * exn :=
  match e with
  | JsTypeError message => ("TypeError occured.", RepositoryError message)
  | DbQueryError _ _ message => ("DbQueryError occured.", RepositoryError message)
  | _ =>
      if checkForValidationErrors e
      then ("Validation Error(s) occured.",
            RepositoryError "Validation error(s) occured during transformation from database document into entity.")
      else ("Any not specifically caught and handled error occured.",
            UnexpectedDbError "")
  end.

(** [try { ... } catch (e) { await this.handleRepositoryErrors(e); }]: the
    handler always throws, so the statement after it is never reached. *)
Definition try_catch {A : Type} (body : promise A * world) : promise A * world :=
  match body with
  | (Resolved a, w) => (Resolved a, w)
  | (Rejected e, w) =>
      let (line, thrown) := handleRepositoryErrors e in
      (Rejected thrown, mkWorld (repo w) (store w) (line :: console w))
  end.

(** [try { ... } catch (e) { this.handleRepositoryErrors(e); } throw new
    UnexpectedDbError()] of [findByKey]: the handler is called and not
    awaited, so what it throws rejects a promise nobody looks at, and the
    method goes on to its last statement. *)
Definition try_catch_unawaited {A : Type} (body : promise A * world)
    : promise A * world :=
  match body with
  | (Resolved a, w) => (Resolved a, w)
  | (Rejected e, w) =>
      let (line, _) := handleRepositoryErrors e in
      (Rejected (UnexpectedDbError ""), mkWorld (repo w) (store w) (line :: console w))
  end.

Definition set_repo (r : fields) (c : C) (w : world) : world :=
  mkWorld r c (console w).

(** Initializes the database and the collection, as well as the stored
    procedures; every reference is stored as soon as it is there. *)
Definition initDatabaseCollectionAndStoredProcedures (w : world) : promise unit * world :=
  match DatabaseUtils.getOrCreateDatabase client DATABASE_ID (store w) with
  | (Rejected e, c) => (Rejected e, set_repo (repo w) c w)
  | (Resolved db, c) =>
      let r1 := mkFields (Some db) (collection (repo w)) (updateProcedure (repo w))
                  (bulkDeleteProcedure (repo w)) in
      match DatabaseUtils.getOrCreateCollection client (field db "_self") collectionId c with
      | (Rejected e, c) => (Rejected e, set_repo r1 c w)
      | (Resolved coll, c) =>
          let r2 := mkFields (Some db) (Some coll) (updateProcedure (repo w))
                      (bulkDeleteProcedure (repo w)) in
          match DatabaseUtils.getOrCreateUpdateStoredProcedure client
                  (field coll "_self") c with
          | (Rejected e, c) => (Rejected e, set_repo r2 c w)
          | (Resolved up, c) =>
              let r3 := mkFields (Some db) (Some coll) (Some up)
                          (bulkDeleteProcedure (repo w)) in
              match DatabaseUtils.getOrCreateBulkDeleteStoredProcedure client
                      (field coll "_self") c with
              | (Rejected e, c) => (Rejected e, set_repo r3 c w)
              | (Resolved bulk, c) =>
                  (Resolved tt,
                   set_repo (mkFields (Some db) (Some coll) (Some up) (Some bulk)) c w)
              end
          end
      end
  end.

(** Checks if the initialization has already happened, or if it should be
    run. *)
Definition evaluateInit (w : world) : promise unit * world :=
  match database (repo w), collection (repo w),
        updateProcedure (repo w), bulkDeleteProcedure (repo w) with
  | Some _, Some _, Some _, Some _ => (Resolved tt, w)
  | _, _, _, _ => initDatabaseCollectionAndStoredProcedures w
  end.

(** [this.x!._self] on a reference of the repository. *)
Definition self_of (reference : option (gmap string value)) : promise value :=
  match reference with
  | Some meta => Resolved (field meta "_self")
  | None => Rejected (JsTypeError undefined_read_message)
  end.

(** A request of a method: the error of the client is wrapped in a
    [DbQueryError]. *)
Definition request {A : Type} (call : C -> response A * C) (w : world)
    : promise A * world :=
  match call (store w) with
  | (Failure code body, c) => (Rejected (newDbQueryError code body), set_repo (repo w) c w)
  | (Success a, c) => (Resolved a, set_repo (repo w) c w)
  end.

(** [await p; k]: the rest of an [async] body after a promise. *)
Definition and_then {A B : Type} (p : promise A * world) (k : A -> world -> promise B * world)
    : promise B * world :=
  match p with
  | (Resolved a, w) => k a w
  | (Rejected e, w) => (Rejected e, w)
  end.

Definition settled {A : Type} (p : promise A) (w : world) : promise A * world := (p, w).

(** Creates a new object. *)
Definition create (obj : gmap string value) (w : world)
    : promise (gmap string value) * world :=
  try_catch
    (and_then (evaluateInit w) (fun _ w =>
     and_then (settled (self_of (collection (repo w))) w) (fun link w =>
     and_then (request (DocumentClient.createDocument client link obj) w)
       (fun retrieved w => settled (transformAndValidate (Some retrieved)) w)))).

(** Finds an object by id; [None] is [null]. *)
Definition findOne (id : string) (w : world)
    : promise (option (gmap string value)) * world :=
  try_catch
    (and_then (evaluateInit w) (fun _ w =>
     and_then (settled (self_of (collection (repo w))) w) (fun link w =>
     and_then (request (DocumentClient.queryDocuments client link
                          (mkSpec "SELECT * FROM root r WHERE r.id=@id" [("@id", JStr id)])) w)
       (fun results w =>
          match results with
          | [] => (Resolved None, w)
          | first :: _ =>
              and_then (settled (transformAndValidate (Some first)) w)
                (fun entity w => (Resolved (Some entity), w))
          end)))).

(** Finds all objects; [None] is [null]. *)
Definition findAll (w : world) : promise (option (list (gmap string value))) * world :=
  try_catch
    (and_then (evaluateInit w) (fun _ w =>
     and_then (settled (self_of (collection (repo w))) w) (fun link w =>
     and_then (request (DocumentClient.queryDocuments client link
                          (mkSpec "SELECT * FROM root r" [])) w)
       (fun results w =>
          match results with
          | [] => (Resolved None, w)
          | _ =>
              and_then (settled (transformAndValidateAll results) w)
                (fun entities w => (Resolved (Some entities), w))
          end)))).

(** Updates an object. *)
Definition update (objOrId : objOrId) (updateCommands : IUpdateCommands) (w : world)
    : promise (gmap string value) * world :=
  try_catch
    (and_then (evaluateInit w) (fun _ w =>
     and_then
       (settled
          match objOrId with
          | AnObject obj => Resolved (field obj "id")
          | AString s => Resolved (JStr s)
          | AnythingElse =>
              Rejected (JsTypeError "The given type got no id field nor is it a id itself.")
          end w) (fun id w =>
     and_then (settled (self_of (updateProcedure (repo w))) w) (fun link w =>
     and_then (request (DocumentClient.executeStoredProcedure client link
                          [AValue id; ACommands updateCommands]) w)
       (fun retrieved w => settled (transformAndValidate retrieved) w))))).

(** The link of [`${collection._self}/docs/${id}`]. *)
Definition document_link (collectionLink : value) (id : string) : value :=
  JStr ((match collectionLink with JStr l => l | v => ToString v end)
        ++ "/docs/" ++ id).

(** Deletes an object. *)
Definition remove (objOrId : objOrId) (w : world) : promise unit * world :=
  try_catch
    (and_then (evaluateInit w) (fun _ w =>
     and_then
       match objOrId with
       | AnObject obj => settled (Resolved (field obj "_self")) w
       | AString s =>
           and_then (settled (self_of (collection (repo w))) w)
             (fun link w => settled (Resolved (document_link link s)) w)
       | AnythingElse =>
           settled (Rejected (JsTypeError "The given type is not possible to remove.")) w
       end (fun documentLink w =>
     request (DocumentClient.deleteDocument client documentLink) w))).

(** Deletes all objects: the body of the response is not looked at. *)
Definition removeAll (w : world) : promise unit * world :=
  try_catch
    (and_then (evaluateInit w) (fun _ w =>
     and_then (settled (self_of (bulkDeleteProcedure (repo w))) w) (fun link w =>
     and_then (request (DocumentClient.executeStoredProcedure client link []) w)
       (fun _ w => (Resolved tt, w))))).

(** [UsersRepository.findByKey]: finds an user by given key. *)
Definition findByKey (key : string) (w : world)
    : promise (option (gmap string value)) * world :=
  try_catch_unawaited
    (and_then (evaluateInit w) (fun _ w =>
     and_then (settled (self_of (collection (repo w))) w) (fun link w =>
     and_then (request (DocumentClient.queryDocuments client link
                          (mkSpec "SELECT * FROM root r WHERE r.key=@key" [("@key", JStr key)])) w)
       (fun results w =>
          match results with
          | [] => (Resolved None, w)
          | first :: _ =>
              and_then (settled (transformAndValidate (Some first)) w)
                (fun entity w => (Resolved (Some entity), w))
          end)))).

End Repository.
End BaseCRUDRepository.

(** Sample clients, over the list of the requests received (newest first)
    as the state of the store. *)
Module SampleClient.

Definition meta (id link : string) : gmap string value :=
  <["id" := JStr id]> (<["_self" := JStr link]> ∅).

(** A store in which the database, the collection and the two procedures
    exist, and in which every request on documents fails. *)
Definition documents_fail : DocumentClient.t (list string) :=
  DocumentClient.mk (list string)
    (fun _ c => (Success [meta "db" "dbs/1"], "queryDatabases" :: c))
    (fun _ c => (Success (meta "db" "dbs/1"), "createDatabase" :: c))
    (fun _ _ c => (Success [meta "users" "dbs/1/colls/1"], "queryCollections" :: c))
    (fun _ _ c => (Success (meta "users" "dbs/1/colls/1"), "createCollection" :: c))
    (fun _ _ c => (Success [meta "proc" "dbs/1/colls/1/sprocs/1"],
                   "queryStoredProcedures" :: c))
    (fun _ _ c => (Success (meta "proc" "dbs/1/colls/1/sprocs/1"),
                   "createStoredProcedure" :: c))
    (fun _ _ c => (Failure 409 "conflict", "createDocument" :: c))
    (fun _ _ c => (Failure 400 "bad request", "queryDocuments" :: c))
    (fun _ _ c => (Failure 400 "script failed", "executeStoredProcedure" :: c))
    (fun _ c => (Failure 404 "not found", "deleteDocument" :: c)).

(** A store that cannot be reached. *)
Definition down : DocumentClient.t (list string) :=
  DocumentClient.mk (list string)
    (fun _ c => (Failure 503 "unavailable", "queryDatabases" :: c))
    (fun _ c => (Failure 503 "unavailable", "createDatabase" :: c))
    (fun _ _ c => (Failure 503 "unavailable", "queryCollections" :: c))
    (fun _ _ c => (Failure 503 "unavailable", "createCollection" :: c))
    (fun _ _ c => (Failure 503 "unavailable", "queryStoredProcedures" :: c))
    (fun _ _ c => (Failure 503 "unavailable", "createStoredProcedure" :: c))
    (fun _ _ c => (Failure 503 "unavailable", "createDocument" :: c))
    (fun _ _ c => (Failure 503 "unavailable", "queryDocuments" :: c))
    (fun _ _ c => (Failure 503 "unavailable", "executeStoredProcedure" :: c))
    (fun _ c => (Failure 503 "unavailable", "deleteDocument" :: c)).

(** A validation that accepts every document. *)
Definition accept (retrieved : option (gmap string value))
    : promise (gmap string value) :=
  match retrieved with
  | Some d => Resolved d
  | None => Rejected (ErrorArray [true])
  end.

Definition accept_all (retrieved : list (gmap string value))
    : promise (list (gmap string value)) :=
  Resolved retrieved.

(** A repository that has not been used yet. *)
Definition fresh : BaseCRUDRepository.world (C := list string) :=
  BaseCRUDRepository.mkWorld
    (BaseCRUDRepository.mkFields None None None None) [] [].

End SampleClient.

(** ** The operators as the specification words them

    A second definition of the four operators, written from the steps of
    the specification and not from the scripts, to compare the scripts
    with.  [None] is the operator error. *)

Module AsSpecified.

(** "if the configured delta is negative" *)
Definition negative (delta : value) : bool :=
  match delta with
  | JNum n => (n <? 0)%Z
  | _ => false
  end.

(** "fail with an operator-error if the field is absent or not an array;
    otherwise" change the array of the field. *)
Definition on_array_field (f : string) (change : list value -> list value)
    (d : gmap string value) : option (gmap string value) :=
  match d !! f with
  | Some (JArr xs) => Some (<[f := JArr (change xs)]> d)
  | _ => None
  end.

(** "For each field in" a group, the first failure being final. *)
Definition each_field
    (step : string -> value -> gmap string value -> option (gmap string value))
    (g : option group) (d : gmap string value) : option (gmap string value) :=
  fold_left
    (fun acc entry =>
       match acc with
       | Some d => step (fst entry) (snd entry) d
       | None => None
       end)
    (default [] g) (Some d).

(** "For each field in $set: overwrite (or create) the field with the
    given value.  No array constraint." *)
Definition set : option group -> gmap string value -> option (gmap string value) :=
  each_field (fun f v d => Some (<[f := v]> d)).

(** "For each field in $pop: ... if the configured delta is negative,
    remove the first element; otherwise remove the last element". *)
Definition pop : option group -> gmap string value -> option (gmap string value) :=
  each_field (fun f delta =>
    on_array_field f (fun xs => if negative delta then tail xs else removelast xs)).

(** "For each field in $push: ... append the given value to the end." *)
Definition push : option group -> gmap string value -> option (gmap string value) :=
  each_field (fun f v => on_array_field f (fun xs => (xs ++ [v])%list)).

(** "For each field in $unshift: ... prepend the given value to the
    front." *)
Definition unshift : option group -> gmap string value -> option (gmap string value) :=
  each_field (fun f v => on_array_field f (fun xs => v :: xs)).

(** "apply operators in this fixed order: $set, then $pop, then $push, then
    $unshift." *)
Definition operators (d : gmap string value) (update : IUpdateCommands)
    : option (gmap string value) :=
  match set (cmd_set update) d with
  | None => None
  | Some d1 =>
      match pop (cmd_pop update) d1 with
      | None => None
      | Some d2 =>
          match push (cmd_push update) d2 with
          | None => None
          | Some d3 => unshift (cmd_unshift update) d3
          end
      end
  end.

End AsSpecified.

(** The groups of a command set are objects: no key comes twice. *)
Definition well_formed (update : IUpdateCommands) : Prop :=
  NoDup (group_keys (cmd_set update)) /\ NoDup (group_keys (cmd_pop update))
  /\ NoDup (group_keys (cmd_push update)) /\ NoDup (group_keys (cmd_unshift update)).

(** A script's operators do what the specified ones do: the same document,
    or an operator error where the specification has one. *)
Definition agrees (r : result (gmap string value)) (o : option (gmap string value))
    : Prop :=
  match o with
  | Some d' => r = Ok d'
  | None => exists e, operator_error e = true /\ r = Throw e
  end.

(** The errors the methods of the repository are documented to throw. *)
Definition documented (e : exn) : Prop :=
  (exists message, e = RepositoryError message) \/ e = UnexpectedDbError "".

(** * Properties *)

(** ** Loops over the fields of a group *)

Section Loops.

Implicit Types (document d : gmap string value) (f k : string).

Lemma field_insert_eq d f v : field (<[f := v]> d) f = v.
Proof. unfold field. by rewrite lookup_insert_eq. Qed.

Lemma field_insert_ne d f k v : f <> k -> field (<[f := v]> d) k = field d k.
Proof. intros Hne. unfold field. by rewrite lookup_insert_ne. Qed.

Lemma on_array_other f k method d : f <> k -> on_array f method d !! k = d !! k.
Proof.
  intros Hne. unfold on_array.
  destruct (field d f); try reflexivity. by rewrite lookup_insert_ne.
Qed.

Lemma on_array_same f method d xs :
  d !! f = Some (JArr xs) -> on_array f method d !! f = Some (JArr (method xs)).
Proof.
  intros Hf. unfold on_array, field. rewrite Hf. simpl. by rewrite lookup_insert_eq.
Qed.

Lemma on_array_isArray f k method d :
  isArray (field (on_array f method d) k) = isArray (field d k).
Proof.
  unfold on_array. destruct (field d f) eqn:Hf; try reflexivity.
  destruct (decide (f = k)) as [->|Hne].
  - rewrite field_insert_eq, Hf. reflexivity.
  - by rewrite field_insert_ne.
Qed.

Lemma for_fields_ext body1 body2 fields d :
  (forall f d, body1 f d = body2 f d) ->
  for_fields body1 fields d = for_fields body2 fields d.
Proof.
  intros Hext. revert d. induction fields as [|f rest IH]; intros d; simpl.
  - reflexivity.
  - rewrite Hext. destruct (body2 f d); simpl; auto.
Qed.

(** A loop whose body only writes the field it is called on leaves the
    fields outside the list alone. *)
Lemma for_fields_frame body fields d d' k :
  (forall f d d', body f d = Ok d' -> f <> k -> d' !! k = d !! k) ->
  for_fields body fields d = Ok d' ->
  k ∉ fields ->
  d' !! k = d !! k.
Proof.
  intros Hbody. revert d. induction fields as [|f rest IH]; intros d; simpl.
  - intros [= <-] _. reflexivity.
  - destruct (body f d) as [d1|e] eqn:Hb; simpl; [|discriminate].
    intros Hloop Hk. apply not_elem_of_cons in Hk as [Hne Hk].
    rewrite (IH _ Hloop Hk). eapply Hbody; eauto.
Qed.

Variable message : string.
Variable method : string -> list value -> list value.

Lemma guarded_ok f d d' :
  guarded message method f d = Ok d' ->
  isArray (field d f) = true /\ d' = on_array f (method f) d.
Proof.
  unfold guarded. destruct (isArray (field d f)); simpl; [|discriminate].
  intros [= <-]. auto.
Qed.

Lemma guarded_throw f d e :
  guarded message method f d = Throw e ->
  isArray (field d f) = false /\ e = Error message.
Proof.
  unfold guarded. destruct (isArray (field d f)); simpl; [discriminate|].
  intros [= <-]. auto.
Qed.

(** The loop throws nothing but its own error. *)
Lemma guarded_loop_throw fields d e :
  for_fields (guarded message method) fields d = Throw e -> e = Error message.
Proof.
  revert d. induction fields as [|f rest IH]; intros d; simpl; [discriminate|].
  destruct (guarded message method f d) as [d1|e1] eqn:Hb; simpl.
  - apply IH.
  - intros [= <-]. by apply guarded_throw in Hb as [_ ->].
Qed.

(** Arrays stay arrays and other values stay what they are. *)
Lemma guarded_loop_isArray fields d d' k :
  for_fields (guarded message method) fields d = Ok d' ->
  isArray (field d' k) = isArray (field d k).
Proof.
  revert d. induction fields as [|f rest IH]; intros d; simpl.
  - by intros [= <-].
  - destruct (guarded message method f d) as [d1|e1] eqn:Hb; simpl; [|discriminate].
    intros Hloop. rewrite (IH _ Hloop).
    apply guarded_ok in Hb as [_ ->]. apply on_array_isArray.
Qed.

(** The loop goes through exactly when every field of the list holds an
    array. *)
Lemma guarded_loop_total fields d :
  (forall f, f ∈ fields -> isArray (field d f) = true) ->
  exists d', for_fields (guarded message method) fields d = Ok d'.
Proof.
  revert d. induction fields as [|f rest IH]; intros d Harr; simpl; [eauto|].
  unfold guarded at 1. rewrite (Harr f) by left. simpl.
  apply IH. intros k Hk. rewrite on_array_isArray. apply Harr. by right.
Qed.

Lemma guarded_loop_arrays fields d d' f :
  for_fields (guarded message method) fields d = Ok d' ->
  f ∈ fields -> isArray (field d f) = true.
Proof.
  revert d. induction fields as [|f0 rest IH]; intros d; simpl.
  - intros _ Hin. by apply elem_of_nil in Hin.
  - destruct (guarded message method f0 d) as [d1|e1] eqn:Hb; simpl; [|discriminate].
    apply guarded_ok in Hb as [Harr ->].
    intros Hloop Hin. apply elem_of_cons in Hin as [->|Hin]; [done|].
    rewrite <- (on_array_isArray f0 f (method f0) d). by eapply IH.
Qed.

Lemma guarded_loop_frame fields d d' k :
  for_fields (guarded message method) fields d = Ok d' ->
  k ∉ fields -> d' !! k = d !! k.
Proof.
  apply for_fields_frame. intros f d0 d1 Hb Hne.
  apply guarded_ok in Hb as [_ ->]. by apply on_array_other.
Qed.

(** On a group without repeated keys each field gets its method once. *)
Lemma guarded_loop_at fields d d' f xs :
  NoDup fields ->
  for_fields (guarded message method) fields d = Ok d' ->
  f ∈ fields -> d !! f = Some (JArr xs) ->
  d' !! f = Some (JArr (method f xs)).
Proof.
  intros Hnd. revert d. induction Hnd as [|f0 rest Hnotin Hnd IH]; intros d; simpl.
  - intros _ Hin. by apply elem_of_nil in Hin.
  - destruct (guarded message method f0 d) as [d1|e1] eqn:Hb; simpl; [|discriminate].
    apply guarded_ok in Hb as [Harr ->].
    intros Hloop Hin Hf. apply elem_of_cons in Hin as [->|Hin].
    + rewrite (guarded_loop_frame _ _ _ _ Hloop Hnotin). by apply on_array_same.
    + apply IH with (d := on_array f0 (method f0) d); auto.
      rewrite on_array_other; [done|]. intros ->. contradiction.
Qed.

End Loops.

(** ** The four operators *)

Section Operators.

Implicit Types (document d : gmap string value) (f k : string) (g : group).
Implicit Types (update : IUpdateCommands).

(** *** $set *)

Lemma set_loop_spec g fields d :
  exists d', for_fields (fun f document => Ok (<[f := prop g f]> document)) fields d = Ok d'
    /\ forall k, d' !! k = if decide (k ∈ fields) then Some (prop g k) else d !! k.
Proof.
  revert d. induction fields as [|f rest IH]; intros d; cbn [for_fields bind].
  - exists d. split; [done|]. intros k. case_decide as Hk; [|done].
    by apply elem_of_nil in Hk.
  - destruct (IH (<[f := prop g f]> d)) as (d' & Hloop & Hd'). exists d'.
    split; [done|]. intros k. rewrite Hd'.
    destruct (decide (k ∈ rest)) as [Hin|Hnotin].
    + rewrite decide_True; [done|]. by right.
    + destruct (decide (k = f)) as [->|Hne].
      * rewrite decide_True by left. by rewrite lookup_insert_eq.
      * rewrite decide_False; [by rewrite lookup_insert_ne|].
        intros Hin. by apply elem_of_cons in Hin as [?|?].
Qed.

Lemma update_set_spec d update :
  exists d', Update.set d update = Ok d'
    /\ forall k, d' !! k = if decide (k ∈ group_keys (cmd_set update))
                        then Some (prop (default [] (cmd_set update)) k) else d !! k.
Proof.
  unfold Update.set. destruct (cmd_set update) as [g|]; cbn [group_keys default].
  - apply set_loop_spec.
  - exists d. split; [done|]. intros k. case_decide as Hk; [|done].
    by apply elem_of_nil in Hk.
Qed.

Lemma proc_set_eq d update : UpdateProc.set d update = Update.set d update.
Proof. reflexivity. Qed.

(** *** The guarded loops behind $pop, $push and $unshift *)

Lemma update_pop_guarded d update g :
  cmd_pop update = Some g ->
  Update.pop d update
  = for_fields (guarded "Bad $pop parameter - field in document must be an array."
                  (fun _ => array_pop)) (keys g) d.
Proof. intros Hg. unfold Update.pop. rewrite Hg. reflexivity. Qed.

Lemma update_push_guarded d update g :
  cmd_push update = Some g ->
  Update.push d update
  = for_fields (guarded "Bad $push parameter - field in document must be an array."
                  (fun f xs => array_push xs (prop g f))) (keys g) d.
Proof. intros Hg. unfold Update.push. rewrite Hg. reflexivity. Qed.

Lemma update_unshift_guarded d update g :
  cmd_unshift update = Some g ->
  Update.unshift d update
  = for_fields (guarded "Bad $unshift parameter - field in document must be an array."
                  (fun f xs => array_unshift xs (prop g f))) (keys g) d.
Proof. intros Hg. unfold Update.unshift. rewrite Hg. reflexivity. Qed.

Lemma proc_push_eq d update : UpdateProc.push d update = Update.push d update.
Proof. reflexivity. Qed.

Variable ToNumber : value -> option Z.

Lemma proc_pop_guarded d update g :
  cmd_pop update = Some g ->
  UpdateProc.pop ToNumber d update
  = for_fields (guarded "Bad $pop parameter - field in document must be an array."
                  (fun f => if UpdateProc.less_than_zero ToNumber (prop g f)
                            then array_shift else array_pop)) (keys g) d.
Proof.
  intros Hg. unfold UpdateProc.pop. rewrite Hg. apply for_fields_ext.
  intros f d0. unfold guarded.
  destruct (negb (isArray (field d0 f))); [done|].
  by destruct (UpdateProc.less_than_zero ToNumber (prop g f)).
Qed.

(** With a $push group at hand the $unshift loop of [updateProc] is a
    guarded loop that takes its items from that group. *)
Lemma proc_unshift_guarded d update g p :
  cmd_unshift update = Some g -> cmd_push update = Some p ->
  UpdateProc.unshift d update
  = for_fields (guarded "Bad $unshift parameter - field in document must be an array."
                  (fun f xs => array_unshift xs (prop p f))) (keys g) d.
Proof. intros Hg Hp. unfold UpdateProc.unshift. rewrite Hg, Hp. reflexivity. Qed.

(** *** What $pop does to a field, in each script *)

(** [update.ts]: the last element goes, whatever the delta. *)
Lemma update_pop_last d d' update g f xs :
  cmd_pop update = Some g -> NoDup (keys g) ->
  Update.pop d update = Ok d' ->
  f ∈ keys g -> d !! f = Some (JArr xs) ->
  d' !! f = Some (JArr (removelast xs)).
Proof.
  intros Hg Hnd Hpop Hin Hf. rewrite (update_pop_guarded _ _ _ Hg) in Hpop.
  apply (guarded_loop_at _ _ _ _ _ _ _ Hnd Hpop Hin Hf).
Qed.

(** [updateProc]: the first element goes when the delta is below zero,
    the last one otherwise. *)
Lemma proc_pop_field d d' update g f xs :
  cmd_pop update = Some g -> NoDup (keys g) ->
  UpdateProc.pop ToNumber d update = Ok d' ->
  f ∈ keys g -> d !! f = Some (JArr xs) ->
  d' !! f = Some (JArr (if UpdateProc.less_than_zero ToNumber (prop g f)
                        then tail xs else removelast xs)).
Proof.
  intros Hg Hnd Hpop Hin Hf. rewrite (proc_pop_guarded _ _ _ Hg) in Hpop.
  rewrite (guarded_loop_at _ _ _ _ _ _ _ Hnd Hpop Hin Hf).
  by destruct (UpdateProc.less_than_zero ToNumber (prop g f)).
Qed.

Lemma proc_pop_negative d d' update g f xs n :
  cmd_pop update = Some g -> NoDup (keys g) ->
  UpdateProc.pop ToNumber d update = Ok d' ->
  f ∈ keys g -> d !! f = Some (JArr xs) ->
  prop g f = JNum n -> (n < 0)%Z ->
  d' !! f = Some (JArr (tail xs)).
Proof.
  intros Hg Hnd Hpop Hin Hf Hn Hneg.
  rewrite (proc_pop_field _ _ _ _ _ _ Hg Hnd Hpop Hin Hf), Hn. simpl.
  by rewrite (proj2 (Z.ltb_lt n 0) Hneg).
Qed.

Lemma proc_pop_otherwise d d' update g f xs :
  cmd_pop update = Some g -> NoDup (keys g) ->
  UpdateProc.pop ToNumber d update = Ok d' ->
  f ∈ keys g -> d !! f = Some (JArr xs) ->
  (prop g f = JNull \/ exists n, prop g f = JNum n /\ (0 <= n)%Z) ->
  d' !! f = Some (JArr (removelast xs)).
Proof.
  intros Hg Hnd Hpop Hin Hf Hdelta.
  rewrite (proc_pop_field _ _ _ _ _ _ Hg Hnd Hpop Hin Hf).
  destruct Hdelta as [->|(n & -> & Hn)]; simpl; [done|].
  by rewrite (proj2 (Z.ltb_ge n 0) Hn).
Qed.

(** *** What $unshift does to a field, in each script *)

(** [update.ts]: the value the group gives for the field goes in front. *)
Lemma update_unshift_field d d' update g f xs :
  cmd_unshift update = Some g -> NoDup (keys g) ->
  Update.unshift d update = Ok d' ->
  f ∈ keys g -> d !! f = Some (JArr xs) ->
  d' !! f = Some (JArr (prop g f :: xs)).
Proof.
  intros Hg Hnd Hun Hin Hf. rewrite (update_unshift_guarded _ _ _ Hg) in Hun.
  apply (guarded_loop_at _ _ _ _ _ _ _ Hnd Hun Hin Hf).
Qed.

(** [updateProc]: what goes in front is what the $push group gives for
    the field. *)
Lemma proc_unshift_field d d' update g p f xs :
  cmd_unshift update = Some g -> cmd_push update = Some p -> NoDup (keys g) ->
  UpdateProc.unshift d update = Ok d' ->
  f ∈ keys g -> d !! f = Some (JArr xs) ->
  d' !! f = Some (JArr (prop p f :: xs)).
Proof.
  intros Hg Hp Hnd Hun Hin Hf. rewrite (proc_unshift_guarded _ _ _ _ Hg Hp) in Hun.
  apply (guarded_loop_at _ _ _ _ _ _ _ Hnd Hun Hin Hf).
Qed.

(** [updateProc]: without a $push group, $unshift on an array throws. *)
Lemma proc_unshift_no_push d update g f rest :
  cmd_unshift update = Some g -> keys g = f :: rest ->
  cmd_push update = None ->
  isArray (field d f) = true ->
  UpdateProc.unshift d update = Throw (TypeError "update.$push is undefined").
Proof.
  intros Hg Hk Hp Harr. unfold UpdateProc.unshift.
  rewrite Hg, Hk, Hp. simpl. by rewrite Harr.
Qed.

End Operators.

(** ** The collection *)

Section Collection.

Implicit Types (s : Store) (d : gmap string value) (ds rs : list (gmap string value)).

Lemma quiet_next_fault s : quiet s -> next_fault s = None.
Proof.
  unfold quiet, next_fault. intros Hq.
  destruct (faults s) as [|[code|] rest]; try reflexivity.
  by destruct (Hq 0%nat code).
Qed.

Lemma quiet_serve r s : quiet s -> quiet (serve r s).
Proof.
  unfold quiet. simpl. intros Hq k code Hk.
  destruct (faults s) as [|x rest]; simpl in Hk.
  - by rewrite lookup_nil in Hk.
  - by apply (Hq (S k) code).
Qed.

Lemma find_link_lt l ds i : find_link l ds = Some i -> (i < length ds)%nat.
Proof.
  revert i. induction ds as [|d ds IH]; intros i; simpl; [discriminate|].
  destruct (has_link l d).
  - intros [= <-]. lia.
  - destruct (find_link l ds) as [j|]; simpl; [|discriminate].
    intros [= <-]. specialize (IH j eq_refl). lia.
Qed.

Lemma paginate_concat sizes rs : concat (paginate sizes rs) = rs.
Proof.
  revert rs. induction sizes as [|n sizes IH]; intros rs; simpl.
  - apply app_nil_r.
  - rewrite IH. apply take_drop.
Qed.

(** Every row of a page of a query by id is a stored document with that id. *)
Lemma page_row_stored id s c page d :
  pages (SelectById id) s !! c = Some page -> d ∈ page ->
  d ∈ docs s /\ has_id id d = true.
Proof.
  intros Hpage Hd.
  assert (d ∈ rows (SelectById id) (docs s)) as Hrow.
  { rewrite <- (paginate_concat (layout s)). apply list_elem_of_In, in_concat.
    exists page. split; apply list_elem_of_In; [|done].
    by eapply list_elem_of_lookup_2. }
  simpl in Hrow. apply list_elem_of_In, filter_In in Hrow as [Hin Hid].
  split; [by apply list_elem_of_In|done].
Qed.

Lemma first_page_head q s pre others :
  default [] (pages q s !! 0%nat) = pre :: others ->
  head (rows q (docs s)) = Some pre.
Proof.
  unfold pages. destruct (layout s) as [|n sizes]; simpl.
  - by intros ->.
  - destruct (rows q (docs s)) as [|r rs]; [by rewrite take_nil|].
    destruct n; simpl; [discriminate|]. by intros [= -> _].
Qed.

Lemma queryDocuments_quiet q continuation s :
  quiet s ->
  queryDocuments q continuation s
  = (Feed (default [] (pages q s !! default 0%nat continuation))
          (next_token (pages q s) (default 0%nat continuation)),
     serve (QueryRequest q continuation) s).
Proof. intros Hq. unfold queryDocuments. by rewrite quiet_next_fault. Qed.

(** A query changes nothing in the collection. *)
Lemma queryDocuments_docs q continuation s r s' :
  queryDocuments q continuation s = (r, s') ->
  s' = serve (QueryRequest q continuation) s.
Proof. unfold queryDocuments. destruct (next_fault s); by intros [= _ <-]. Qed.

(** A replace that reports an error changes no document; one that goes
    through writes the stamped document over one stored document. *)
Lemma replaceDocument_inv link d etag s r s' :
  replaceDocument link d etag s = (r, s') ->
  match r with
  | ReplaceError _ => docs s' = docs s
  | Replaced u =>
      u = stamp s d /\
      exists l i, link = JStr l /\ find_link l (docs s) = Some i /\
        etag_matches etag (default ∅ (docs s !! i)) = true /\
        s' = with_docs (<[i := stamp s d]> (docs s))
               (serve (ReplaceRequest link d etag) s)
  end.
Proof.
  unfold replaceDocument. destruct (next_fault s); [by intros [= <- <-]|].
  destruct link; try by intros [= <- <-].
  destruct (find_link s0 (docs s)) as [i|] eqn:Hi; [|by intros [= <- <-]].
  destruct (etag_matches etag (default ∅ (docs s !! i))) eqn:He;
    intros [= <- <-]; [|done].
  split; [done|]. by exists s0, i.
Qed.

Lemma replaceDocument_quiet l i d etag s :
  quiet s -> find_link l (docs s) = Some i ->
  etag_matches etag (default ∅ (docs s !! i)) = true ->
  replaceDocument (JStr l) d etag s
  = (Replaced (stamp s d),
     with_docs (<[i := stamp s d]> (docs s))
       (serve (ReplaceRequest (JStr l) d etag) s)).
Proof.
  intros Hq Hi He. unfold replaceDocument.
  by rewrite (quiet_next_fault _ Hq), Hi, He.
Qed.

(** A delete either reports an error and changes nothing or removes one
    document. *)
Lemma deleteDocument_inv link s r s' :
  deleteDocument link s = (r, s') ->
  log s' = Served (DeleteRequest link) :: log s /\
  match r with
  | DeleteError _ => docs s' = docs s
  | Deleted => S (length (docs s')) = length (docs s)
  end.
Proof.
  unfold deleteDocument. destruct (next_fault s); [by intros [= <- <-]|].
  destruct link; try by intros [= <- <-].
  destruct (find_link s0 (docs s)) as [i|] eqn:Hi; intros [= <- <-]; [|done].
  split; [done|]. simpl. apply find_link_lt in Hi.
  rewrite length_delete; [lia|]. by apply lookup_lt_is_Some.
Qed.

End Collection.

(** ** Writing the document back *)

Section WriteBack.

Implicit Types (s : Store) (d : gmap string value).

Lemma update_tryUpdate_eq update budget d s :
  Update.tryUpdate update budget d s
  = write_back (field d "_etag") budget (Update.operators d update) s.
Proof. reflexivity. Qed.

Lemma proc_tryUpdate_eq ToNumber update budget d s :
  UpdateProc.tryUpdate ToNumber update budget d s
  = write_back (field d "_etag") budget (UpdateProc.operators ToNumber d update) s.
Proof. reflexivity. Qed.

(** However the write-back ends, it either leaves every stored document
    as it is, or it is a success and exactly one stored document has been
    replaced, by the document that is returned. *)
Lemma write_back_inv etag budget r s out s' :
  write_back etag budget r s = (out, s') ->
  match out with
  | Aborted _ => docs s' = docs s
  | Completed b =>
      exists d' l i,
        r = Ok d' /\ b = Some (stamp s d') /\ field d' "_self" = JStr l /\
        find_link l (docs s) = Some i /\
        etag_matches etag (default ∅ (docs s !! i)) = true /\
        docs s' = <[i := stamp s d']> (docs s) /\
        log s' = Served (ReplaceRequest (JStr l) d' etag) :: log s
  end.
Proof.
  unfold write_back. destruct r as [d'|e]; [|by intros [= <- <-]].
  destruct budget; [by intros [= <- <-]|].
  destruct (replaceDocument _ _ _ _) as [[code|u] s1] eqn:Hr;
    apply replaceDocument_inv in Hr; intros [= <- <-]; [done|].
  destruct Hr as (-> & l & i & Hl & Hi & He & ->).
  exists d', l, i. rewrite Hl. repeat split; auto.
Qed.

Lemma write_back_success etag budget d' l i s :
  budget <> 0%nat -> quiet s ->
  field d' "_self" = JStr l -> find_link l (docs s) = Some i ->
  etag_matches etag (default ∅ (docs s !! i)) = true ->
  write_back etag budget (Ok d') s
  = (Completed (Some (stamp s d')),
     with_docs (<[i := stamp s d']> (docs s))
       (serve (ReplaceRequest (JStr l) d' etag) s)).
Proof.
  intros Hb Hq Hl Hi He. unfold write_back.
  destruct budget; [done|]. rewrite Hl.
  by rewrite (replaceDocument_quiet _ _ _ _ _ Hq Hi He).
Qed.

End WriteBack.

(** ** [updateFunc] as a whole *)

Section UpdateScript.

Implicit Types (s : Store) (d pre : gmap string value) (update : IUpdateCommands).

(** When the query is served without error and its first page has rows,
    the script goes on with the first of them. *)
Lemma update_found id update budget s pre others :
  id <> "" -> next_fault s = None ->
  default [] (pages (SelectById id) s !! 0%nat) = pre :: others ->
  Update.updateFunc (Some id) (Some update) (S budget) s
  = Update.tryUpdate update budget pre (serve (QueryRequest (SelectById id) None) s).
Proof.
  intros Hid Hf Hpage. unfold Update.updateFunc.
  rewrite (proj2 (String.eqb_neq id "") Hid).
  unfold Update.tryQueryAndUpdate, queryDocuments. rewrite Hf.
  simpl default at 1. by rewrite Hpage.
Qed.

(** An empty first page ends [updateFunc] with the not-found error, whether
    or not the page comes with a continuation token. *)
Lemma update_empty_first_page id update budget s :
  id <> "" -> next_fault s = None ->
  default [] (pages (SelectById id) s !! 0%nat) = [] ->
  Update.updateFunc (Some id) (Some update) (S budget) s
  = (Aborted (Error "Document not found."),
     serve (QueryRequest (SelectById id) None) s).
Proof.
  intros Hid Hf Hpage. unfold Update.updateFunc.
  rewrite (proj2 (String.eqb_neq id "") Hid).
  unfold Update.tryQueryAndUpdate, queryDocuments. rewrite Hf.
  simpl default at 1. by rewrite Hpage.
Qed.

(** Every way [updateFunc] can end. *)
Lemma update_inv id (updateCommands : option IUpdateCommands) budget s out s' :
  Update.updateFunc id updateCommands budget s = (out, s') ->
  match out with
  | Aborted _ => docs s' = docs s
  | Completed b =>
      exists id' cmds pre d' l i,
        id = Some id' /\ id' <> "" /\ updateCommands = Some cmds /\
        head (rows (SelectById id') (docs s)) = Some pre /\
        Update.operators pre cmds = Ok d' /\ b = Some (stamp s d') /\
        find_link l (docs s) = Some i /\
        docs s' = <[i := stamp s d']> (docs s) /\
        log s' = Served (ReplaceRequest (JStr l) d' (field pre "_etag"))
                 :: Served (QueryRequest (SelectById id') None) :: log s
  end.
Proof.
  unfold Update.updateFunc. destruct id as [id'|]; [|by intros [= <- <-]].
  destruct (String.eqb id' "") eqn:Hid; [by intros [= <- <-]|].
  apply String.eqb_neq in Hid.
  destruct updateCommands as [cmds|]; [|by intros [= <- <-]].
  unfold Update.tryQueryAndUpdate. destruct budget; [by intros [= <- <-]|].
  unfold queryDocuments. destruct (next_fault s); [by intros [= <- <-]|].
  simpl default at 1.
  destruct (default [] (pages (SelectById id') s !! 0%nat)) as [|pre others] eqn:Hpage;
    [by intros [= <- <-]|].
  rewrite update_tryUpdate_eq. intros Hw. apply write_back_inv in Hw.
  destruct out as [b|e]; [|done].
  destruct Hw as (d' & l & i & Hops & -> & _ & Hi & _ & Hdocs & Hlog).
  exists id', cmds, pre, d', l, i. apply first_page_head in Hpage.
  repeat split; auto.
Qed.

(** The operators leave alone every field that no group names. *)
Lemma update_set_frame d d' update k :
  Update.set d update = Ok d' -> k ∉ group_keys (cmd_set update) -> d' !! k = d !! k.
Proof.
  intros Hset Hk. destruct (update_set_spec d update) as (d1 & Hd1 & Hspec).
  rewrite Hset in Hd1. injection Hd1 as <-. rewrite Hspec. by rewrite decide_False.
Qed.

Lemma update_pop_frame d d' update k :
  Update.pop d update = Ok d' -> k ∉ group_keys (cmd_pop update) -> d' !! k = d !! k.
Proof.
  destruct (cmd_pop update) as [g|] eqn:Hg; simpl.
  - rewrite (update_pop_guarded _ _ _ Hg). apply guarded_loop_frame.
  - unfold Update.pop. rewrite Hg. by intros [= <-].
Qed.

Lemma update_push_frame d d' update k :
  Update.push d update = Ok d' -> k ∉ group_keys (cmd_push update) -> d' !! k = d !! k.
Proof.
  destruct (cmd_push update) as [g|] eqn:Hg; simpl.
  - rewrite (update_push_guarded _ _ _ Hg). apply guarded_loop_frame.
  - unfold Update.push. rewrite Hg. by intros [= <-].
Qed.

Lemma update_unshift_frame d d' update k :
  Update.unshift d update = Ok d' -> k ∉ group_keys (cmd_unshift update) ->
  d' !! k = d !! k.
Proof.
  destruct (cmd_unshift update) as [g|] eqn:Hg; simpl.
  - rewrite (update_unshift_guarded _ _ _ Hg). apply guarded_loop_frame.
  - unfold Update.unshift. rewrite Hg. by intros [= <-].
Qed.

Lemma update_operators_inv d d' update :
  Update.operators d update = Ok d' ->
  exists d1 d2 d3,
    Update.set d update = Ok d1 /\ Update.pop d1 update = Ok d2 /\
    Update.push d2 update = Ok d3 /\ Update.unshift d3 update = Ok d'.
Proof.
  unfold Update.operators.
  destruct (Update.set d update) as [d1|] eqn:H1; simpl; [|discriminate].
  destruct (Update.pop d1 update) as [d2|] eqn:H2; simpl; [|discriminate].
  destruct (Update.push d2 update) as [d3|] eqn:H3; simpl; [|discriminate].
  intros H4. by exists d1, d2, d3.
Qed.

Lemma update_operators_frame d d' update k :
  Update.operators d update = Ok d' -> k ∉ targets update -> d' !! k = d !! k.
Proof.
  intros Hops Hk. apply update_operators_inv in Hops as (d1 & d2 & d3 & H1 & H2 & H3 & H4).
  unfold targets in Hk. rewrite !not_elem_of_app in Hk.
  destruct Hk as (K1 & K2 & K3 & K4).
  rewrite (update_unshift_frame _ _ _ _ H4 K4), (update_push_frame _ _ _ _ H3 K3),
    (update_pop_frame _ _ _ _ H2 K2). by apply (update_set_frame _ _ _ _ H1).
Qed.

(** $pop, $push and $unshift keep arrays arrays and leave other values
    other values. *)
Lemma update_pop_outcome d update :
  (exists d', Update.pop d update = Ok d' /\
     (forall k, isArray (field d' k) = isArray (field d k)) /\
     forall f, f ∈ group_keys (cmd_pop update) -> isArray (field d f) = true)
  \/ Update.pop d update
     = Throw (Error "Bad $pop parameter - field in document must be an array.").
Proof.
  destruct (cmd_pop update) as [g|] eqn:Hg.
  - rewrite (update_pop_guarded _ _ _ Hg).
    destruct (for_fields _ (keys g) d) as [d'|e] eqn:Hloop.
    + left. exists d'. split; [done|]. split.
      * intros k. by eapply guarded_loop_isArray.
      * intros f. by eapply guarded_loop_arrays.
    + right. by rewrite (guarded_loop_throw _ _ _ _ _ Hloop).
  - left. exists d. unfold Update.pop. rewrite Hg. split; [done|]. split; [done|].
    intros f Hf. by apply elem_of_nil in Hf.
Qed.

Lemma update_push_outcome d update :
  (exists d', Update.push d update = Ok d' /\
     (forall k, isArray (field d' k) = isArray (field d k)) /\
     forall f, f ∈ group_keys (cmd_push update) -> isArray (field d f) = true)
  \/ Update.push d update
     = Throw (Error "Bad $push parameter - field in document must be an array.").
Proof.
  destruct (cmd_push update) as [g|] eqn:Hg.
  - rewrite (update_push_guarded _ _ _ Hg).
    destruct (for_fields _ (keys g) d) as [d'|e] eqn:Hloop.
    + left. exists d'. split; [done|]. split.
      * intros k. by eapply guarded_loop_isArray.
      * intros f. by eapply guarded_loop_arrays.
    + right. by rewrite (guarded_loop_throw _ _ _ _ _ Hloop).
  - left. exists d. unfold Update.push. rewrite Hg. split; [done|]. split; [done|].
    intros f Hf. by apply elem_of_nil in Hf.
Qed.

Lemma update_unshift_outcome d update :
  (exists d', Update.unshift d update = Ok d' /\
     (forall k, isArray (field d' k) = isArray (field d k)) /\
     forall f, f ∈ group_keys (cmd_unshift update) -> isArray (field d f) = true)
  \/ Update.unshift d update
     = Throw (Error "Bad $unshift parameter - field in document must be an array.").
Proof.
  destruct (cmd_unshift update) as [g|] eqn:Hg.
  - rewrite (update_unshift_guarded _ _ _ Hg).
    destruct (for_fields _ (keys g) d) as [d'|e] eqn:Hloop.
    + left. exists d'. split; [done|]. split.
      * intros k. by eapply guarded_loop_isArray.
      * intros f. by eapply guarded_loop_arrays.
    + right. by rewrite (guarded_loop_throw _ _ _ _ _ Hloop).
  - left. exists d. unfold Update.unshift. rewrite Hg. split; [done|]. split; [done|].
    intros f Hf. by apply elem_of_nil in Hf.
Qed.

(** A field that one of the three array operators names and that is not
    an array once $set is done makes the operators throw an operator
    error. *)
Lemma update_operators_not_array d d1 update f :
  Update.set d update = Ok d1 ->
  f ∈ (group_keys (cmd_pop update) ++ group_keys (cmd_push update)
       ++ group_keys (cmd_unshift update))%list ->
  isArray (field d1 f) = false ->
  exists e, operator_error e = true /\ Update.operators d update = Throw e.
Proof.
  intros Hset Hin Hf. unfold Update.operators. rewrite Hset. simpl.
  destruct (update_pop_outcome d1 update) as [(d2 & -> & Hk2 & Ha2) | ->];
    [|eexists; split; [|reflexivity]; reflexivity].
  simpl.
  destruct (update_push_outcome d2 update) as [(d3 & -> & Hk3 & Ha3) | ->];
    [|eexists; split; [|reflexivity]; reflexivity].
  simpl.
  destruct (update_unshift_outcome d3 update) as [(d4 & -> & Hk4 & Ha4) | ->];
    [|eexists; split; [|reflexivity]; reflexivity].
  exfalso. rewrite !elem_of_app in Hin. destruct Hin as [Hin|[Hin|Hin]].
  - apply Ha2 in Hin. congruence.
  - apply Ha3 in Hin. rewrite Hk2 in Hin. congruence.
  - apply Ha4 in Hin. rewrite Hk3, Hk2 in Hin. congruence.
Qed.

End UpdateScript.

(** ** The script of [updateProc] as a whole *)

Section ProcScript.

Variable ToNumber : value -> option Z.

Implicit Types (s : Store) (d pre : gmap string value) (update : IUpdateCommands).
Implicit Types (continuation : option nat).

Lemma next_token_some (ps : list (list (gmap string value))) c j x :
  ps !! j = Some x -> (c < j)%nat -> next_token ps c = Some (S c).
Proof.
  intros Hj Hlt. apply lookup_lt_Some in Hj. unfold next_token.
  destruct (Nat.ltb_spec (S c) (length ps)); [done|lia].
Qed.

Lemma next_token_none (ps : list (list (gmap string value))) c :
  length ps = S c -> next_token ps c = None.
Proof.
  intros Hlen. unfold next_token.
  destruct (Nat.ltb_spec (S c) (length ps)); [lia|done].
Qed.

Lemma proc_loop_step id update budget continuation s :
  UpdateProc.tryQueryAndUpdate ToNumber id update (S budget) continuation s
  = match queryDocuments (SelectById id) continuation s with
    | (FeedError code, s') => (Aborted (StoreError code), s')
    | (Feed (document :: _) _, s') =>
        UpdateProc.tryUpdate ToNumber update budget document s'
    | (Feed [] (Some token), s') =>
        UpdateProc.tryQueryAndUpdate ToNumber id update budget (Some token) s'
    | (Feed [] None, s') => (Aborted (Error "Document not found."), s')
    end.
Proof. reflexivity. Qed.

(** Empty pages that come with a continuation token are skipped: after
    [k] of them the script goes on with the first row of the next page. *)
Lemma proc_skip_empty_pages id update pre others k :
  forall budget continuation s,
    quiet s ->
    (forall j, (default 0 continuation <= j < default 0 continuation + k)%nat ->
               pages (SelectById id) s !! j = Some []) ->
    pages (SelectById id) s !! (default 0 continuation + k)%nat = Some (pre :: others) ->
    exists s1,
      UpdateProc.tryQueryAndUpdate ToNumber id update (S (k + budget)) continuation s
      = UpdateProc.tryUpdate ToNumber update budget pre s1
      /\ docs s1 = docs s /\ stamp s1 = stamp s /\ quiet s1.
Proof.
  induction k as [|k IH]; intros budget continuation s Hq Hempty Hfound.
  - rewrite Nat.add_0_r in Hfound. rewrite proc_loop_step.
    rewrite (queryDocuments_quiet _ _ _ Hq), Hfound. simpl.
    eexists. split; [reflexivity|]. split; [done|]. split; [done|].
    by apply quiet_serve.
  - set (c := default 0%nat continuation) in *.
    assert (pages (SelectById id) s !! c = Some []) as Hc by (apply Hempty; lia).
    assert (next_token (pages (SelectById id) s) c = Some (S c)) as Htok
      by (eapply next_token_some; [exact Hfound|lia]).
    rewrite proc_loop_step.
    rewrite (queryDocuments_quiet _ _ _ Hq). fold c. rewrite Hc, Htok.
    cbn [default Nat.add].
    destruct (IH budget (Some (S c)) (serve (QueryRequest (SelectById id) continuation) s))
      as (s1 & Heq & Hd & Hst & Hq1).
    + by apply quiet_serve.
    + intros j Hj. simpl in Hj. apply Hempty. lia.
    + simpl. rewrite <- Hfound. f_equal. lia.
    + exists s1. by rewrite Heq.
Qed.

(** When every page from the current one on is empty, the script ends
    with the not-found error once the last page, the one without a token,
    has been read. *)
Lemma proc_all_pages_empty id update k :
  forall budget continuation s,
    quiet s ->
    length (pages (SelectById id) s) = S (default 0%nat continuation + k) ->
    (forall j, (default 0 continuation <= j)%nat ->
               (j < length (pages (SelectById id) s))%nat ->
               pages (SelectById id) s !! j = Some []) ->
    exists s1,
      UpdateProc.tryQueryAndUpdate ToNumber id update (S (k + budget)) continuation s
      = (Aborted (Error "Document not found."), s1)
      /\ docs s1 = docs s.
Proof.
  induction k as [|k IH]; intros budget continuation s Hq Hlen Hempty;
    set (c := default 0%nat continuation) in *.
  - rewrite Nat.add_0_r in Hlen. rewrite proc_loop_step.
    rewrite (queryDocuments_quiet _ _ _ Hq). fold c.
    rewrite (Hempty c) by lia. rewrite (next_token_none _ _ Hlen). simpl.
    eexists. split; reflexivity.
  - rewrite proc_loop_step.
    rewrite (queryDocuments_quiet _ _ _ Hq). fold c.
    rewrite (Hempty c) by lia.
    assert (next_token (pages (SelectById id) s) c = Some (S c)) as ->.
    { unfold next_token. destruct (Nat.ltb_spec (S c) (length (pages (SelectById id) s)));
        [done|lia]. }
    cbn [default Nat.add].
    destruct (IH budget (Some (S c)) (serve (QueryRequest (SelectById id) continuation) s))
      as (s1 & Heq & Hd).
    + by apply quiet_serve.
    + change (length (pages (SelectById id) s) = S (S c + k)). lia.
    + intros j Hj Hlt. simpl in Hj. apply Hempty; [lia|done].
    + exists s1. by rewrite Heq.
Qed.

(** Every way the query loop can end: with the collection untouched, or
    with one stored document replaced by the updated version of a stored
    document that has the id asked for. *)
Lemma proc_loop_inv id update budget :
  forall continuation s out s',
    UpdateProc.tryQueryAndUpdate ToNumber id update budget continuation s = (out, s') ->
    match out with
    | Aborted _ => docs s' = docs s
    | Completed b =>
        exists pre d' l i,
          pre ∈ docs s /\ has_id id pre = true /\
          UpdateProc.operators ToNumber pre update = Ok d' /\
          b = Some (stamp s d') /\ find_link l (docs s) = Some i /\
          docs s' = <[i := stamp s d']> (docs s)
    end.
Proof.
  induction budget as [|budget IH]; intros continuation s out s'; simpl.
  - by intros [= <- <-].
  - unfold queryDocuments. destruct (next_fault s); [by intros [= <- <-]|].
    destruct (pages (SelectById id) s !! default 0%nat continuation)
      as [page|] eqn:Hpage; simpl.
    + destruct page as [|pre others].
      * destruct (next_token _ _) as [token|]; [|by intros [= <- <-]].
        intros Hrec. by apply IH in Hrec.
      * rewrite proc_tryUpdate_eq. intros Hw. apply write_back_inv in Hw.
        destruct out as [b|e]; [|done].
        destruct Hw as (d' & l & i & Hops & -> & _ & Hi & _ & Hdocs & _).
        destruct (page_row_stored id s _ _ pre Hpage) as [Hin Hid]; [by left|].
        by exists pre, d', l, i.
    + destruct (next_token _ _) as [token|]; [|by intros [= <- <-]].
      intros Hrec. by apply IH in Hrec.
Qed.

Lemma proc_inv id (updateCommands : option IUpdateCommands) budget s out s' :
  UpdateProc.serverScript ToNumber id updateCommands budget s = (out, s') ->
  match out with
  | Aborted _ => docs s' = docs s
  | Completed b =>
      exists id' cmds pre d' l i,
        id = Some id' /\ id' <> "" /\ updateCommands = Some cmds /\
        pre ∈ docs s /\ has_id id' pre = true /\
        UpdateProc.operators ToNumber pre cmds = Ok d' /\
        b = Some (stamp s d') /\ find_link l (docs s) = Some i /\
        docs s' = <[i := stamp s d']> (docs s)
  end.
Proof.
  unfold UpdateProc.serverScript. destruct id as [id'|]; [|by intros [= <- <-]].
  destruct (String.eqb id' "") eqn:Hid; [by intros [= <- <-]|].
  apply String.eqb_neq in Hid.
  destruct updateCommands as [cmds|]; [|by intros [= <- <-]].
  intros Hloop. apply proc_loop_inv in Hloop. destruct out as [b|e]; [|done].
  destruct Hloop as (pre & d' & l & i & H). exists id', cmds, pre, d', l, i.
  by repeat split; try apply H.
Qed.

End ProcScript.

(** ** The bulk delete script *)

Section BulkDeleteScript.

Implicit Types (s : Store) (documents : list (gmap string value)).
Implicit Types (body : BulkDelete.responseBody).

Lemma first_page_of_nothing q s :
  rows q (docs s) = [] -> default [] (pages q s !! 0%nat) = [].
Proof.
  unfold pages. intros ->. destruct (layout s); simpl; [done|]. by rewrite take_nil.
Qed.

(** On an empty collection the script reports [{deleted: 0}]. *)
Lemma bulk_delete_empty budget s :
  docs s = [] -> next_fault s = None ->
  BulkDelete.serverScript (S budget) s
  = (Completed (Some (BulkDelete.mkBody 0)), serve (QueryRequest SelectAll None) s).
Proof.
  intros Hdocs Hf. unfold BulkDelete.serverScript, BulkDelete.tryQueryAndDelete.
  unfold queryDocuments. rewrite Hf. simpl default at 1.
  by rewrite first_page_of_nothing.
Qed.

(** When the last request of a run of [tryDelete] was declined, the run
    ends with the count of the documents it has deleted. *)
Lemma tryDelete_declined documents :
  forall budget body response s out s' r rest,
    BulkDelete.tryDelete budget documents body response s = (out, s') ->
    (exists r0 l0, log s = Served r0 :: l0) ->
    log s' = Declined r :: rest ->
    exists n,
      out = Completed (Some (BulkDelete.mkBody (BulkDelete.deleted body + n)))
      /\ (length (docs s') + n = length (docs s))%nat.
Proof.
  induction documents as [|document queued IH];
    intros budget body response s out s' r rest; simpl.
  - intros [= <- <-] (r0 & l0 & Hlog) Hdecl. congruence.
  - destruct budget as [|budget].
    + intros [= <- <-] _ _. exists 0%nat. destruct body as [n]. simpl.
      by rewrite !Nat.add_0_r.
    + destruct (deleteDocument _ s) as [[code|] s1] eqn:Hdel;
        apply deleteDocument_inv in Hdel as [Hlog Hdocs].
      * intros [= <- <-] _ Hdecl. congruence.
      * intros Hrec _ Hdecl.
        destruct (IH _ _ _ _ _ _ r rest Hrec) as (n & -> & Hlen); [eauto|done|].
        exists (S n). simpl. split; [do 3 f_equal; lia|lia].
Qed.

(** A run of [tryDelete] that started without a response body ends with
    one only when its last request was declined. *)
Lemma tryDelete_body documents :
  forall budget body s b s',
    BulkDelete.tryDelete budget documents body None s = (Completed (Some b), s') ->
    exists r, head (log s') = Some (Declined r).
Proof.
  induction documents as [|document queued IH]; intros budget body s b s'; simpl.
  - discriminate.
  - destruct budget as [|budget]; [intros [= <- <-]; eauto|].
    destruct (deleteDocument _ s) as [[code|] s1]; [discriminate|]. apply IH.
Qed.

End BulkDeleteScript.

(** * The properties of the specification *)

(** ** C1: the direction of $pop *)

(** C1, at [{$pop: {tags: -1}}] on [["a","b","c"]]: the $pop of [update.ts]
    never looks at the delta and removes the last element, so the tags
    become [["a","b"]], and that is the document [updateFunc] returns; the
    $pop of [updateProc] removes the first element and gives [["b","c"]]. *)
Theorem update_ts_pop_ignores_negative_delta :
  Update.pop (Sample.user [Sample.a; Sample.b; Sample.c]) Sample.pop_first
  = Ok (Sample.user [Sample.a; Sample.b])
  /\ fst (Update.updateFunc (Some "1") (Some Sample.pop_first) 5
            (Sample.store [Sample.user [Sample.a; Sample.b; Sample.c]] []))
     = Completed (Some (Sample.restamp (Sample.user [Sample.a; Sample.b])))
  /\ forall ToNumber,
       UpdateProc.pop ToNumber (Sample.user [Sample.a; Sample.b; Sample.c]) Sample.pop_first
       = Ok (Sample.user [Sample.b; Sample.c]).
Proof. split; [|split; [|intros ToNumber]]; vm_compute; reflexivity. Qed.

(** ** C2: the item of $unshift *)

(** C2, at [{$unshift: {tags: "z"}}] on [["b","c"]]: the $unshift of
    [updateProc] reads its item from the $push group; without that group the
    read throws and the invocation ends with that error, and with
    [{$push: {tags: "c"}}] next to it the item put in front is ["c"], not
    ["z"].  The $unshift of [update.ts] puts ["z"] in front. *)
Theorem update_proc_unshift_reads_push_group :
  UpdateProc.unshift (Sample.user [Sample.b; Sample.c]) Sample.unshift_z
  = Throw (TypeError "update.$push is undefined")
  /\ (forall ToNumber,
        fst (UpdateProc.serverScript ToNumber (Some "1") (Some Sample.unshift_z) 5
               (Sample.store [Sample.user [Sample.b; Sample.c]] []))
        = Aborted (TypeError "update.$push is undefined"))
  /\ UpdateProc.unshift (Sample.user [Sample.b; Sample.c]) Sample.push_c_unshift_z
     = Ok (Sample.user [Sample.c; Sample.b; Sample.c])
  /\ Update.unshift (Sample.user [Sample.b; Sample.c]) Sample.unshift_z
     = Ok (Sample.user [Sample.z; Sample.b; Sample.c]).
Proof.
  split; [|split; [intros ToNumber|split]]; vm_compute; reflexivity.
Qed.

(** ** C3: the order of the operators *)

Lemma sample_store_quiet ds sizes : quiet (Sample.store ds sizes).
Proof. intros k code. simpl. by rewrite lookup_nil. Qed.

(** The order in which [tryUpdate] calls the operators: when the id and
    the commands are valid, the store serves the requests without error,
    the query finds the document [pre] (in
    [updateProc] possibly after [k] empty pages with a continuation token),
    $set, then $pop on its result, then $push, then $unshift go through and
    give [d4], and the store holds under the link of [d4] a document with
    the version that was read, then the script returns [d4] as the store
    stamps it and the store holds that document in place of the old one. *)
Theorem update_applies_operators_in_fixed_order :
  (forall id update budget s pre others d1 d2 d3 d4 l i,
      id <> "" -> quiet s -> (2 <= budget)%nat ->
      default [] (pages (SelectById id) s !! 0%nat) = pre :: others ->
      Update.set pre update = Ok d1 ->
      Update.pop d1 update = Ok d2 ->
      Update.push d2 update = Ok d3 ->
      Update.unshift d3 update = Ok d4 ->
      field d4 "_self" = JStr l -> find_link l (docs s) = Some i ->
      etag_matches (field pre "_etag") (default ∅ (docs s !! i)) = true ->
      exists s',
        Update.updateFunc (Some id) (Some update) budget s
        = (Completed (Some (stamp s d4)), s')
        /\ docs s' = <[i := stamp s d4]> (docs s))
  /\
  (forall ToNumber id update budget s k pre others d1 d2 d3 d4 l i,
      id <> "" -> quiet s -> (k + 2 <= budget)%nat ->
      (forall j, (j < k)%nat -> pages (SelectById id) s !! j = Some []) ->
      pages (SelectById id) s !! k = Some (pre :: others) ->
      UpdateProc.set pre update = Ok d1 ->
      UpdateProc.pop ToNumber d1 update = Ok d2 ->
      UpdateProc.push d2 update = Ok d3 ->
      UpdateProc.unshift d3 update = Ok d4 ->
      field d4 "_self" = JStr l -> find_link l (docs s) = Some i ->
      etag_matches (field pre "_etag") (default ∅ (docs s !! i)) = true ->
      exists s',
        UpdateProc.serverScript ToNumber (Some id) (Some update) budget s
        = (Completed (Some (stamp s d4)), s')
        /\ docs s' = <[i := stamp s d4]> (docs s)).
Proof.
  split.
  - intros id update budget s pre others d1 d2 d3 d4 l i
      Hid Hq Hb Hpage H1 H2 H3 H4 Hl Hi He.
    destruct budget as [|[|budget]]; [lia|lia|].
    rewrite (update_found _ _ _ _ _ _ Hid (quiet_next_fault _ Hq) Hpage).
    rewrite update_tryUpdate_eq.
    assert (Update.operators pre update = Ok d4) as ->.
    { unfold Update.operators. rewrite H1. simpl. rewrite H2. simpl. by rewrite H3. }
    rewrite (write_back_success _ _ _ l i); try done; [|by apply quiet_serve].
    eexists. split; reflexivity.
  - intros ToNumber id update budget s k pre others d1 d2 d3 d4 l i
      Hid Hq Hb Hempty Hpage H1 H2 H3 H4 Hl Hi He.
    unfold UpdateProc.serverScript. rewrite (proj2 (String.eqb_neq id "") Hid).
    replace budget with (S (k + S (budget - k - 2))) by lia.
    destruct (proc_skip_empty_pages ToNumber id update pre others k
                (S (budget - k - 2)) None s Hq) as (s1 & -> & Hd & Hst & Hq1).
    { intros j Hj. simpl in Hj. apply Hempty. lia. }
    { done. }
    rewrite proc_tryUpdate_eq.
    assert (UpdateProc.operators ToNumber pre update = Ok d4) as ->.
    { unfold UpdateProc.operators. rewrite H1. simpl. rewrite H2. simpl. by rewrite H3. }
    rewrite (write_back_success _ _ _ l i); try done; try by rewrite Hd.
    rewrite Hst, Hd. eexists. split; reflexivity.
Qed.

(** $set creates the array that $push then appends to: on a document
    without [tags], [{$set: {tags: []}, $push: {tags: "c"}}] gives
    [tags = ["c"]]. *)
Lemma update_applies_operators_in_fixed_order_witness :
  exists s',
    Update.updateFunc (Some "1") (Some Sample.set_then_push) 2
      (Sample.store [Sample.other; Sample.plain] [])
    = (Completed (Some (Sample.restamp (Sample.user [Sample.c]))), s')
    /\ docs s' = [Sample.other; Sample.restamp (Sample.user [Sample.c])].
Proof.
  apply (proj1 update_applies_operators_in_fixed_order
           "1" Sample.set_then_push 2%nat
           (Sample.store [Sample.other; Sample.plain] [])
           Sample.plain [] (Sample.user []) (Sample.user [])
           (Sample.user [Sample.c]) (Sample.user [Sample.c]) "docs/1" 1%nat).
  - discriminate.
  - apply sample_store_quiet.
  - lia.
  - vm_compute; reflexivity.
  - vm_compute; reflexivity.
  - vm_compute; reflexivity.
  - vm_compute; reflexivity.
  - vm_compute; reflexivity.
  - vm_compute; reflexivity.
  - vm_compute; reflexivity.
  - vm_compute; reflexivity.
Defined.

(** Without the $set the same $push is an operator error. *)
Example push_needs_the_array :
  Update.operators Sample.plain Sample.push_c
  = Throw (Error "Bad $push parameter - field in document must be an array.").
Proof. vm_compute; reflexivity. Qed.

(** *** The scripts against the operators as specified *)

Section Refinement.

Implicit Types (d : gmap string value) (g : group) (update : IUpdateCommands).

Lemma prop_lookup g f v : NoDup (keys g) -> (f, v) ∈ g -> prop g f = v.
Proof.
  induction g as [|[k w] g IH]; simpl; intros Hnd Hin.
  - by apply elem_of_nil in Hin.
  - apply NoDup_cons in Hnd as [Hk Hnd]. apply elem_of_cons in Hin as [[= -> ->]|Hin].
    + by rewrite String.eqb_refl.
    + destruct (String.eqb_spec k f) as [->|Hne]; [|by apply IH].
      exfalso. apply Hk. apply list_elem_of_fmap. by exists (f, v).
Qed.

Lemma each_field_failed step (entries : group) :
  fold_left
    (fun acc entry =>
       match acc with
       | Some d => step (fst entry) (snd entry) d
       | None => None
       end) entries None
  = @None (gmap string value).
Proof. induction entries as [|entry entries IH]; simpl; [done|apply IH]. Qed.

(** A guarded loop over the keys of a group against the specified walk
    over its entries, for a method that does to the array what the
    specification says for the value of the entry. *)
Lemma guarded_loop_refines message method change g d :
  (forall f v xs, (f, v) ∈ g -> method f xs = change v xs) ->
  for_fields (guarded message method) (keys g) d
  = match AsSpecified.each_field
            (fun f v => AsSpecified.on_array_field f (change v)) (Some g) d with
    | Some d' => Ok d'
    | None => Throw (Error message)
    end.
Proof.
  unfold AsSpecified.each_field. change (default [] (Some g)) with g.
  revert d. induction g as [|[f v] g IH]; intros d Hsame; [done|].
  cbn [keys map fst snd for_fields fold_left].
  destruct (isArray (field d f)) eqn:Harr.
  - unfold field in Harr. destruct (d !! f) as [[]|] eqn:Hf; try discriminate Harr.
    match goal with Hf : d !! f = Some (JArr ?xs) |- _ =>
      assert (guarded message method f d = Ok (<[f := JArr (change v xs)]> d)) as ->
        by (unfold guarded, on_array, field; rewrite Hf; simpl;
            by rewrite (Hsame f v xs) by (apply elem_of_cons; by left));
      assert (AsSpecified.on_array_field f (change v) d
              = Some (<[f := JArr (change v xs)]> d)) as ->
        by (unfold AsSpecified.on_array_field; by rewrite Hf)
    end.
    cbn [bind]. apply IH. intros f' v' xs' Hin. apply Hsame. apply elem_of_cons. by right.
  - assert (guarded message method f d = Throw (Error message)) as ->
      by (unfold guarded; by rewrite Harr).
    assert (AsSpecified.on_array_field f (change v) d = None) as ->.
    { unfold AsSpecified.on_array_field. unfold field in Harr.
      by destruct (d !! f) as [[]|]. }
    cbn [bind].
    by rewrite (each_field_failed (fun f v => AsSpecified.on_array_field f (change v))).
Qed.

Lemma set_loop_refines g0 g d :
  (forall f v, (f, v) ∈ g -> prop g0 f = v) ->
  match AsSpecified.set (Some g) d with
  | Some d' =>
      for_fields (fun f document => Ok (<[f := prop g0 f]> document)) (keys g) d = Ok d'
  | None => False
  end.
Proof.
  unfold AsSpecified.set, AsSpecified.each_field. change (default [] (Some g)) with g.
  revert d. induction g as [|[f v] g IH]; intros d Hsame; [done|].
  cbn [keys map fst snd for_fields fold_left bind].
  rewrite (Hsame f v) by (apply elem_of_cons; by left). apply IH.
  intros f' v' Hin. apply Hsame. apply elem_of_cons. by right.
Qed.

Lemma set_agrees d update :
  NoDup (group_keys (cmd_set update)) ->
  agrees (Update.set d update) (AsSpecified.set (cmd_set update) d).
Proof.
  unfold Update.set. destruct (cmd_set update) as [g|]; simpl; [|done].
  intros Hnd. pose proof (set_loop_refines g g d (fun f v => prop_lookup g f v Hnd)) as H.
  by destruct (AsSpecified.set (Some g) d).
Qed.

Lemma guarded_agrees message method change g d :
  operator_error (Error message) = true ->
  (forall f v xs, (f, v) ∈ g -> method f xs = change v xs) ->
  agrees (for_fields (guarded message method) (keys g) d)
    (AsSpecified.each_field
       (fun f v => AsSpecified.on_array_field f (change v)) (Some g) d).
Proof.
  intros Herr Hsame. rewrite (guarded_loop_refines _ _ change _ _ Hsame).
  destruct (AsSpecified.each_field _ _ _); simpl; eauto.
Qed.

(** [update.ts]: $pop is the specified one as long as no delta is negative. *)
Lemma update_pop_agrees d update :
  NoDup (group_keys (cmd_pop update)) ->
  (forall f v, (f, v) ∈ default [] (cmd_pop update) -> AsSpecified.negative v = false) ->
  agrees (Update.pop d update) (AsSpecified.pop (cmd_pop update) d).
Proof.
  destruct (cmd_pop update) as [g|] eqn:Hg; simpl; intros Hnd Hpos.
  - rewrite (update_pop_guarded _ _ _ Hg).
    apply (guarded_agrees _ _
             (fun delta xs => if AsSpecified.negative delta then tail xs
                              else removelast xs)); [done|].
    intros f v xs Hin. by rewrite (Hpos f v Hin).
  - unfold Update.pop. by rewrite Hg.
Qed.

Lemma update_push_agrees d update :
  NoDup (group_keys (cmd_push update)) ->
  agrees (Update.push d update) (AsSpecified.push (cmd_push update) d).
Proof.
  destruct (cmd_push update) as [g|] eqn:Hg; simpl; intros Hnd.
  - rewrite (update_push_guarded _ _ _ Hg).
    apply (guarded_agrees _ _ (fun v xs => (xs ++ [v])%list)); [done|].
    intros f v xs Hin. unfold array_push. by rewrite (prop_lookup g f v Hnd Hin).
  - unfold Update.push. by rewrite Hg.
Qed.

(** [update.ts]: $unshift is the specified one. *)
Lemma update_unshift_agrees d update :
  NoDup (group_keys (cmd_unshift update)) ->
  agrees (Update.unshift d update) (AsSpecified.unshift (cmd_unshift update) d).
Proof.
  destruct (cmd_unshift update) as [g|] eqn:Hg; simpl; intros Hnd.
  - rewrite (update_unshift_guarded _ _ _ Hg).
    apply (guarded_agrees _ _ (fun v xs => v :: xs)); [done|].
    intros f v xs Hin. unfold array_unshift. by rewrite (prop_lookup g f v Hnd Hin).
  - unfold Update.unshift. by rewrite Hg.
Qed.

Variable ToNumber : value -> option Z.

(** [updateProc]: $pop is the specified one on the deltas for which the
    [<] of the engine says what "negative" says: numbers, booleans, [null],
    and whatever [ToNumber] sends to a number that is not below zero. *)
Lemma proc_pop_agrees d update :
  NoDup (group_keys (cmd_pop update)) ->
  (forall f v, (f, v) ∈ default [] (cmd_pop update) ->
               UpdateProc.less_than_zero ToNumber v = AsSpecified.negative v) ->
  agrees (UpdateProc.pop ToNumber d update) (AsSpecified.pop (cmd_pop update) d).
Proof.
  destruct (cmd_pop update) as [g|] eqn:Hg; simpl; intros Hnd Hsign.
  - rewrite (proc_pop_guarded ToNumber _ _ _ Hg).
    apply (guarded_agrees _ _
             (fun delta xs => if AsSpecified.negative delta then tail xs
                              else removelast xs)); [done|].
    intros f v xs Hin. rewrite (prop_lookup g f v Hnd Hin), (Hsign f v Hin).
    by destruct (AsSpecified.negative v).
  - unfold UpdateProc.pop. by rewrite Hg.
Qed.

Lemma agrees_throw r (o : option (gmap string value)) e :
  agrees r o -> r = Throw e -> o = None /\ operator_error e = true.
Proof.
  unfold agrees. destruct o as [d'|]; [congruence|].
  intros (e' & He & ->) [= <-]. done.
Qed.

(** [update.ts] does what the specification says on every command set in
    which no $pop delta is negative. *)
Lemma update_ts_operators_agree d update :
  well_formed update ->
  (forall f v, (f, v) ∈ default [] (cmd_pop update) -> AsSpecified.negative v = false) ->
  agrees (Update.operators d update) (AsSpecified.operators d update).
Proof.
  intros (N1 & N2 & N3 & N4) Hpos.
  unfold Update.operators, AsSpecified.operators.
  pose proof (set_agrees d update N1) as A1.
  destruct (AsSpecified.set (cmd_set update) d) as [d1|]; simpl in A1.
  2:{ destruct A1 as (e & He & ->). simpl. eauto. }
  rewrite A1. simpl.
  pose proof (update_pop_agrees d1 update N2 Hpos) as A2.
  destruct (AsSpecified.pop (cmd_pop update) d1) as [d2|]; simpl in A2.
  2:{ destruct A2 as (e & He & ->). simpl. eauto. }
  rewrite A2. simpl.
  pose proof (update_push_agrees d2 update N3) as A3.
  destruct (AsSpecified.push (cmd_push update) d2) as [d3|]; simpl in A3.
  2:{ destruct A3 as (e & He & ->). simpl. eauto. }
  rewrite A3. simpl. by apply update_unshift_agrees.
Qed.

(** [updateProc] does what the specification says on every command set
    without an $unshift group whose $pop deltas the engine compares as the
    specification does. *)
Lemma update_proc_operators_agree d update :
  well_formed update ->
  (forall f v, (f, v) ∈ default [] (cmd_pop update) ->
               UpdateProc.less_than_zero ToNumber v = AsSpecified.negative v) ->
  cmd_unshift update = None ->
  agrees (UpdateProc.operators ToNumber d update) (AsSpecified.operators d update).
Proof.
  intros (N1 & N2 & N3 & N4) Hsign Hun.
  unfold UpdateProc.operators, AsSpecified.operators.
  rewrite proc_set_eq. pose proof (set_agrees d update N1) as A1.
  destruct (AsSpecified.set (cmd_set update) d) as [d1|]; simpl in A1.
  2:{ destruct A1 as (e & He & ->). simpl. eauto. }
  rewrite A1. simpl.
  pose proof (proc_pop_agrees d1 update N2 Hsign) as A2.
  destruct (AsSpecified.pop (cmd_pop update) d1) as [d2|]; simpl in A2.
  2:{ destruct A2 as (e & He & ->). simpl. eauto. }
  rewrite A2. simpl.
  rewrite proc_push_eq. pose proof (update_push_agrees d2 update N3) as A3.
  destruct (AsSpecified.push (cmd_push update) d2) as [d3|]; simpl in A3.
  2:{ destruct A3 as (e & He & ->). simpl. eauto. }
  rewrite A3. simpl. unfold UpdateProc.unshift. rewrite Hun. reflexivity.
Qed.

Implicit Types (s : Store).

(** [updateFunc] of [update.ts] returns the document that the operators as
    specified give, on every command set in which no $pop delta is
    negative. *)
Lemma update_ts_returns_the_specified_document id update budget s pre others d' l i :
  id <> "" -> quiet s -> (2 <= budget)%nat ->
  default [] (pages (SelectById id) s !! 0%nat) = pre :: others ->
  well_formed update ->
  (forall f v, (f, v) ∈ default [] (cmd_pop update) -> AsSpecified.negative v = false) ->
  AsSpecified.operators pre update = Some d' ->
  field d' "_self" = JStr l -> find_link l (docs s) = Some i ->
  etag_matches (field pre "_etag") (default ∅ (docs s !! i)) = true ->
  exists s',
    Update.updateFunc (Some id) (Some update) budget s
    = (Completed (Some (stamp s d')), s')
    /\ docs s' = <[i := stamp s d']> (docs s).
Proof.
  intros Hid Hq Hb Hpage Hwf Hpos Hspec Hl Hi He.
  pose proof (update_ts_operators_agree pre update Hwf Hpos) as Hops.
  rewrite Hspec in Hops. simpl in Hops.
  destruct budget as [|[|budget]]; [lia|lia|].
  rewrite (update_found _ _ _ _ _ _ Hid (quiet_next_fault _ Hq) Hpage).
  rewrite update_tryUpdate_eq, Hops.
  rewrite (write_back_success _ _ _ l i); try done; [|by apply quiet_serve].
  eexists. split; reflexivity.
Qed.

(** The script of [updateProc] returns the document that the operators as
    specified give, on every command set without an $unshift group whose
    $pop deltas the engine compares as the specification does. *)
Lemma update_proc_returns_the_specified_document
    id update budget s k pre others d' l i :
  id <> "" -> quiet s -> (k + 2 <= budget)%nat ->
  (forall j, (j < k)%nat -> pages (SelectById id) s !! j = Some []) ->
  pages (SelectById id) s !! k = Some (pre :: others) ->
  well_formed update ->
  (forall f v, (f, v) ∈ default [] (cmd_pop update) ->
               UpdateProc.less_than_zero ToNumber v = AsSpecified.negative v) ->
  cmd_unshift update = None ->
  AsSpecified.operators pre update = Some d' ->
  field d' "_self" = JStr l -> find_link l (docs s) = Some i ->
  etag_matches (field pre "_etag") (default ∅ (docs s !! i)) = true ->
  exists s',
    UpdateProc.serverScript ToNumber (Some id) (Some update) budget s
    = (Completed (Some (stamp s d')), s')
    /\ docs s' = <[i := stamp s d']> (docs s).
Proof.
  intros Hid Hq Hb Hempty Hpage Hwf Hsign Hun Hspec Hl Hi He.
  pose proof (update_proc_operators_agree pre update Hwf Hsign Hun) as Hops.
  rewrite Hspec in Hops. simpl in Hops.
  unfold UpdateProc.serverScript. rewrite (proj2 (String.eqb_neq id "") Hid).
  replace budget with (S (k + S (budget - k - 2))) by lia.
  destruct (proc_skip_empty_pages ToNumber id update pre others k
              (S (budget - k - 2)) None s Hq) as (s1 & -> & Hd & Hst & Hq1).
  { intros j Hj. simpl in Hj. apply Hempty. lia. }
  { done. }
  rewrite proc_tryUpdate_eq, Hops.
  rewrite (write_back_success _ _ _ l i); try done; try by rewrite Hd.
  rewrite Hst, Hd. eexists. split; reflexivity.
Qed.

End Refinement.

(** C3, at three inputs where a script does not return the pre-update
    document with the operators applied.  The order of the calls is the
    specified one in both scripts, but [update.ts] applies a $pop that
    ignores its delta and [updateProc] an $unshift that takes its item from
    $push.
    - At [{$pop: {tags: -1}}] on [["a","b","c"]] the operators as specified
      give [["b","c"]]; [updateFunc] of [update.ts] returns [["a","b"]], the
      script of [updateProc] what is specified.
    - At [{$push: {tags: "c"}, $unshift: {tags: "z"}}] on [["b"]] they give
      [["z","b","c"]]; the script of [updateProc] returns [["c","b","c"]],
      [updateFunc] what is specified.
    - At a command set with all four groups on [tags], on a document that
      has no such field, they give [["z","b","c"]]; [updateFunc] returns
      [["z","a","c"]] and the script of [updateProc] [["c","b","c"]]. *)
Theorem update_returns_other_than_the_operators_specify :
  (AsSpecified.operators (Sample.user [Sample.a; Sample.b; Sample.c]) Sample.pop_first
   = Some (Sample.user [Sample.b; Sample.c])
   /\ fst (Update.updateFunc (Some "1") (Some Sample.pop_first) 5
             (Sample.store [Sample.user [Sample.a; Sample.b; Sample.c]] []))
      = Completed (Some (Sample.restamp (Sample.user [Sample.a; Sample.b])))
   /\ forall ToNumber,
        fst (UpdateProc.serverScript ToNumber (Some "1") (Some Sample.pop_first) 5
               (Sample.store [Sample.user [Sample.a; Sample.b; Sample.c]] []))
        = Completed (Some (Sample.restamp (Sample.user [Sample.b; Sample.c]))))
  /\ (AsSpecified.operators (Sample.user [Sample.b]) Sample.push_c_unshift_z
      = Some (Sample.user [Sample.z; Sample.b; Sample.c])
      /\ fst (Update.updateFunc (Some "1") (Some Sample.push_c_unshift_z) 5
                (Sample.store [Sample.user [Sample.b]] []))
         = Completed (Some (Sample.restamp (Sample.user [Sample.z; Sample.b; Sample.c])))
      /\ forall ToNumber,
           fst (UpdateProc.serverScript ToNumber (Some "1")
                  (Some Sample.push_c_unshift_z) 5
                  (Sample.store [Sample.user [Sample.b]] []))
           = Completed (Some (Sample.restamp (Sample.user [Sample.c; Sample.b; Sample.c]))))
  /\ (AsSpecified.operators Sample.plain Sample.all_four
      = Some (Sample.user [Sample.z; Sample.b; Sample.c])
      /\ fst (Update.updateFunc (Some "1") (Some Sample.all_four) 5
                (Sample.store [Sample.plain] []))
         = Completed (Some (Sample.restamp (Sample.user [Sample.z; Sample.a; Sample.c])))
      /\ forall ToNumber,
           fst (UpdateProc.serverScript ToNumber (Some "1") (Some Sample.all_four) 5
                  (Sample.store [Sample.plain] []))
           = Completed (Some (Sample.restamp (Sample.user [Sample.c; Sample.b; Sample.c])))).
Proof.
  repeat split; try intros ToNumber; vm_compute; reflexivity.
Qed.

(** ** C4: empty pages with a continuation token *)

(** C4, on a store that answers the query by id with an empty first page
    and a continuation token, the document being on the second page:
    [updateFunc] of [update.ts] issues one query and ends with the not-found
    error, although the document exists; the script of [updateProc] repeats
    the query with the token and returns the updated document. *)
Theorem update_ts_stops_at_empty_first_page :
  let s := Sample.store [Sample.other; Sample.user [Sample.a; Sample.b]] [0%nat] in
  pages (SelectById "1") s = [[]; [Sample.user [Sample.a; Sample.b]]]
  /\ Update.updateFunc (Some "1") (Some Sample.push_c) 5 s
     = (Aborted (Error "Document not found."),
        serve (QueryRequest (SelectById "1") None) s)
  /\ forall ToNumber,
       fst (UpdateProc.serverScript ToNumber (Some "1") (Some Sample.push_c) 5 s)
       = Completed (Some (Sample.restamp (Sample.user [Sample.a; Sample.b; Sample.c]))).
Proof. intros s. split; [|split; [|intros ToNumber]]; vm_compute; reflexivity. Qed.

(** ** C5: operator errors and the stored documents *)

(** C5, for [updateFunc] of [update.ts]: (a) once the query has found the
    document, a field named by $pop, $push or $unshift that does not hold an
    array after $set makes the invocation end with an operator error, the
    query being the only request issued; (b) whenever the invocation ends
    with an error the stored documents are what they were; (c) whenever it
    ends with success, exactly one stored document has been replaced, by the
    document returned, through the one replace request that follows the
    query. *)
Theorem update_operator_error_leaves_store_alone :
  (forall id update budget s pre others d1 f,
      id <> "" -> next_fault s = None ->
      default [] (pages (SelectById id) s !! 0%nat) = pre :: others ->
      Update.set pre update = Ok d1 ->
      f ∈ (group_keys (cmd_pop update) ++ group_keys (cmd_push update)
           ++ group_keys (cmd_unshift update))%list ->
      isArray (field d1 f) = false ->
      exists e, operator_error e = true /\
        Update.updateFunc (Some id) (Some update) (S budget) s
        = (Aborted e, serve (QueryRequest (SelectById id) None) s))
  /\
  (forall id updateCommands budget s e s',
      Update.updateFunc id updateCommands budget s = (Aborted e, s') ->
      docs s' = docs s)
  /\
  (forall id updateCommands budget s b s',
      Update.updateFunc id updateCommands budget s = (Completed b, s') ->
      exists u i r q,
        b = Some u /\ (i < length (docs s))%nat /\
        docs s' = <[i := u]> (docs s) /\
        log s' = Served r :: Served q :: log s /\
        (exists l d etag, r = ReplaceRequest l d etag) /\
        (exists id' c, q = QueryRequest (SelectById id') c)).
Proof.
  split; [|split].
  - intros id update budget s pre others d1 f Hid Hf Hpage Hset Hin Harr.
    destruct (update_operators_not_array _ _ _ _ Hset Hin Harr) as (e & He & Hops).
    exists e. split; [done|].
    rewrite (update_found _ _ _ _ _ _ Hid Hf Hpage).
    unfold Update.tryUpdate. by rewrite Hops.
  - intros id updateCommands budget s e s' Hrun. by apply update_inv in Hrun.
  - intros id updateCommands budget s b s' Hrun. apply update_inv in Hrun.
    destruct Hrun as (id' & cmds & pre & d' & l & i & _ & _ & _ & _ & _ & -> & Hi & Hd & Hlog).
    exists (stamp s d'), i. do 2 eexists. split; [done|].
    split; [by eapply find_link_lt|]. split; [done|]. split; [exact Hlog|].
    split; eauto.
Qed.

(** [{$pop: {tags: 1}, $push: {key: "x"}}]: [key] holds a string. *)
Lemma update_operator_error_leaves_store_alone_witness :
  exists e, operator_error e = true /\
    Update.updateFunc (Some "1") (Some Sample.push_on_key) 3
      (Sample.store [Sample.other; Sample.user [Sample.a]] [])
    = (Aborted e,
       serve (QueryRequest (SelectById "1") None)
         (Sample.store [Sample.other; Sample.user [Sample.a]] [])).
Proof.
  apply (proj1 update_operator_error_leaves_store_alone
           "1" Sample.push_on_key 2%nat
           (Sample.store [Sample.other; Sample.user [Sample.a]] [])
           (Sample.user [Sample.a]) [] (Sample.user [Sample.a]) "key").
  - discriminate.
  - reflexivity.
  - vm_compute; reflexivity.
  - vm_compute; reflexivity.
  - simpl. set_solver.
  - vm_compute; reflexivity.
Defined.

(** ** C6: what the bulk delete reports *)

(** C6, on a collection of one document with a budget of five requests:
    the script deletes the document and ends without ever setting the
    response body, so no [{deleted: 1}] is returned.  On two documents that
    the store returns one per page, it deletes the first, issues no further
    query and leaves the second in the collection. *)
Theorem bulk_delete_ends_without_count :
  BulkDelete.serverScript 5 (Sample.store [Sample.other] [])
  = (Completed None,
     with_docs [] (serve (DeleteRequest (JStr "docs/2"))
                     (serve (QueryRequest SelectAll None)
                        (Sample.store [Sample.other] []))))
  /\ BulkDelete.serverScript 5 (Sample.store [Sample.other; Sample.plain] [1%nat])
     = (Completed None,
        with_docs [Sample.plain]
          (serve (DeleteRequest (JStr "docs/2"))
             (serve (QueryRequest SelectAll None)
                (Sample.store [Sample.other; Sample.plain] [1%nat])))).
Proof. split; vm_compute; reflexivity. Qed.

(** ** C7: a declined request ends the bulk delete with the count so far *)

(** C7: (a) when the store declines the query, the script ends at once
    with the body [{deleted: 0}]; (b) when the store declines a delete, the
    run of [tryDelete] ends at once with the count reached so far, the
    document at hand and the ones queued behind it staying undeleted; (c) in
    general, whenever the last request of an invocation, be it the query or
    a delete, was declined, the invocation ends as a success with a body
    [{deleted: n}], where [n] is the number of documents it has removed from
    the collection. *)
Theorem bulk_delete_declined_reports_count :
  (forall s,
      BulkDelete.serverScript 0 s
      = (Completed (Some (BulkDelete.mkBody 0)),
         decline (QueryRequest SelectAll None) s))
  /\
  (forall document queued body response s,
      BulkDelete.tryDelete 0 (document :: queued) body response s
      = (Completed (Some body),
         decline (DeleteRequest (field document "_self")) s))
  /\
  (forall budget s out s' r rest,
      BulkDelete.serverScript budget s = (out, s') ->
      log s' = Declined r :: rest ->
      exists n,
        out = Completed (Some (BulkDelete.mkBody n))
        /\ (length (docs s') + n = length (docs s))%nat).
Proof.
  split; [reflexivity|]. split; [reflexivity|].
  intros budget s out s' r rest.
  unfold BulkDelete.serverScript, BulkDelete.tryQueryAndDelete.
  destruct budget as [|budget].
  - intros [= <- <-] _. by exists 0%nat.
  - destruct (queryDocuments SelectAll None s) as [[code|retrievedDocs token] s1] eqn:Hq;
      apply queryDocuments_docs in Hq; subst s1.
    + intros [= <- <-]. discriminate.
    + destruct retrievedDocs as [|document queued]; [intros [= <- <-]; discriminate|].
      intros Hrun Hdecl.
      destruct (tryDelete_declined _ _ _ _ _ _ _ r rest Hrun)
        as (n & -> & Hlen); [simpl; eauto|done|].
      by exists n.
Qed.

(** With a budget of two requests and three documents on the page, one
    document is deleted and two are still queued when the second delete is
    declined. *)
Lemma bulk_delete_declined_reports_count_witness :
  exists n,
    fst (BulkDelete.serverScript 2
           (Sample.store [Sample.other; Sample.plain; Sample.third] []))
    = Completed (Some (BulkDelete.mkBody n))
    /\ (length (docs (snd (BulkDelete.serverScript 2
           (Sample.store [Sample.other; Sample.plain; Sample.third] [])))) + n
        = 3)%nat.
Proof.
  eapply (proj2 (proj2 bulk_delete_declined_reports_count) 2%nat
            (Sample.store [Sample.other; Sample.plain; Sample.third] [])).
  - vm_compute; reflexivity.
  - vm_compute; reflexivity.
Defined.

(** ** C8: input validation comes before any request *)

Ltac thrown_at_once :=
  split; eexists; (split; [|reflexivity]); reflexivity.

(** C8: with an id that is empty, [null] or [undefined], or without a
    command set, both update scripts end with a validation error and the
    store, its request log included, is what it was: no query and no write
    has been issued. *)
Theorem update_validates_before_any_request :
  forall ToNumber id updateCommands budget s,
    falsy_id id = true \/ updateCommands = None ->
    (exists e, validation_error e = true /\
       Update.updateFunc id updateCommands budget s = (Aborted e, s))
    /\
    (exists e, validation_error e = true /\
       UpdateProc.serverScript ToNumber id updateCommands budget s = (Aborted e, s)).
Proof.
  intros ToNumber id updateCommands budget s Hbad.
  unfold Update.updateFunc, UpdateProc.serverScript, falsy_id in *.
  destruct id as [id|]; [|thrown_at_once].
  destruct (String.eqb id "") eqn:Hid; [thrown_at_once|].
  destruct Hbad as [Hbad| ->]; [discriminate|].
  thrown_at_once.
Qed.

Lemma update_validates_before_any_request_witness :
  (exists e, validation_error e = true /\
     Update.updateFunc (Some "") (Some Sample.push_c) 5
       (Sample.store [Sample.plain] []) = (Aborted e, Sample.store [Sample.plain] []))
  /\
  (exists e, validation_error e = true /\
     UpdateProc.serverScript Sample.nan (Some "") (Some Sample.push_c) 5
       (Sample.store [Sample.plain] []) = (Aborted e, Sample.store [Sample.plain] [])).
Proof.
  apply (update_validates_before_any_request Sample.nan (Some "") (Some Sample.push_c)
           5%nat (Sample.store [Sample.plain] [])).
  left. reflexivity.
Defined.

(** ** C9: the fields the commands do not name *)

(** C9: when [updateFunc] succeeds on the document [pre], the first stored
    document with the id, a field that none of the four groups names and
    that the store does not rewrite on a write has in the returned document
    the value it has in [pre]. *)
Theorem update_keeps_untargeted_fields :
  forall id update budget s body s' pre f,
    Update.updateFunc (Some id) (Some update) budget s = (Completed (Some body), s') ->
    head (rows (SelectById id) (docs s)) = Some pre ->
    f ∉ targets update ->
    (forall d, stamp s d !! f = d !! f) ->
    body !! f = pre !! f.
Proof.
  intros id update budget s body s' pre f Hrun Hpre Hf Hstamp.
  apply update_inv in Hrun.
  destruct Hrun as (id' & cmds & pre' & d' & l & i & Hid & _ & Hc & Hhead & Hops & Hb & _).
  injection Hid as <-. injection Hc as <-. injection Hb as ->.
  rewrite Hpre in Hhead. injection Hhead as <-.
  rewrite Hstamp. by apply (update_operators_frame _ _ _ _ Hops).
Qed.

Lemma restamp_key d : Sample.restamp d !! "key" = d !! "key".
Proof. unfold Sample.restamp. by rewrite lookup_insert_ne. Qed.

Lemma update_keeps_untargeted_fields_witness :
  Sample.restamp (Sample.user [Sample.a; Sample.b; Sample.c]) !! "key"
  = Sample.user [Sample.a; Sample.b] !! "key".
Proof.
  apply (update_keeps_untargeted_fields "1" Sample.push_c 5%nat
           (Sample.store [Sample.other; Sample.user [Sample.a; Sample.b]] [])
           (Sample.restamp (Sample.user [Sample.a; Sample.b; Sample.c]))
           (snd (Update.updateFunc (Some "1") (Some Sample.push_c) 5
              (Sample.store [Sample.other; Sample.user [Sample.a; Sample.b]] [])))).
  - vm_compute; reflexivity.
  - vm_compute; reflexivity.
  - apply not_elem_of_cons. split; [discriminate|apply not_elem_of_nil].
  - apply restamp_key.
Defined.

(** ** C10: $pop on an empty array *)

Section EmptyArray.

Variable message : string.
Variable method : string -> list value -> list value.
Hypothesis method_nil : forall f, method f [] = [].

(** A loop of array methods that leave the empty array empty leaves a
    field that holds the empty array as it is. *)
Lemma guarded_loop_empty_array fields (d d' : gmap string value) f :
  for_fields (guarded message method) fields d = Ok d' ->
  d !! f = Some (JArr []) -> d' !! f = Some (JArr []).
Proof.
  revert d. induction fields as [|f0 rest IH]; intros d; simpl.
  - by intros [= <-].
  - destruct (guarded message method f0 d) as [d1|e1] eqn:Hb; simpl; [|discriminate].
    apply guarded_ok in Hb as [_ ->]. intros Hloop Hf. apply (IH _ Hloop).
    destruct (decide (f0 = f)) as [->|Hne].
    + rewrite (on_array_same _ _ _ _ Hf). by rewrite method_nil.
    + by rewrite on_array_other.
Qed.

End EmptyArray.

(** C10: when every field that $pop names holds an array, $pop goes
    through in both scripts, whatever the deltas, and a field that holds the
    empty array still holds the empty array afterwards. *)
Theorem pop_on_empty_array_is_a_no_op :
  forall ToNumber update g (d : gmap string value) f,
    cmd_pop update = Some g ->
    (forall k, k ∈ keys g -> isArray (field d k) = true) ->
    f ∈ keys g -> d !! f = Some (JArr []) ->
    (exists d', Update.pop d update = Ok d' /\ d' !! f = Some (JArr []))
    /\
    (exists d', UpdateProc.pop ToNumber d update = Ok d' /\ d' !! f = Some (JArr [])).
Proof.
  intros ToNumber update g d f Hg Harr Hin Hf. split.
  - rewrite (update_pop_guarded _ _ _ Hg).
    destruct (guarded_loop_total
                "Bad $pop parameter - field in document must be an array."
                (fun _ => array_pop) (keys g) d Harr) as (d' & Hloop).
    exists d'. split; [done|].
    by apply (guarded_loop_empty_array _ _ (fun _ => eq_refl) _ _ _ _ Hloop).
  - rewrite (proc_pop_guarded ToNumber _ _ _ Hg).
    destruct (guarded_loop_total
                "Bad $pop parameter - field in document must be an array."
                (fun f => if UpdateProc.less_than_zero ToNumber (prop g f)
                          then array_shift else array_pop)
                (keys g) d Harr) as (d' & Hloop).
    exists d'. split; [done|].
    refine (guarded_loop_empty_array _ _ _ _ _ _ _ Hloop Hf).
    intros k. by destruct (UpdateProc.less_than_zero ToNumber (prop g k)).
Qed.

Lemma pop_on_empty_array_is_a_no_op_witness :
  (exists d', Update.pop (Sample.user []) Sample.pop_first = Ok d'
              /\ d' !! "tags" = Some (JArr []))
  /\
  (exists d', UpdateProc.pop Sample.nan (Sample.user []) Sample.pop_first = Ok d'
              /\ d' !! "tags" = Some (JArr [])).
Proof.
  apply (pop_on_empty_array_is_a_no_op Sample.nan Sample.pop_first
           [("tags", JNum (-1))] (Sample.user []) "tags").
  - reflexivity.
  - intros k Hk. apply list_elem_of_singleton in Hk as ->. vm_compute; reflexivity.
  - simpl. set_solver.
  - vm_compute; reflexivity.
Defined.

(** * Further properties of the scripts *)

(** ** The operators on their own *)

Section OperatorFacts.

Implicit Types (d : gmap string value) (f k : string) (g : group).
Implicit Types (update : IUpdateCommands).

Lemma for_fields_ext_in body1 body2 fields d :
  (forall f d, f ∈ fields -> body1 f d = body2 f d) ->
  for_fields body1 fields d = for_fields body2 fields d.
Proof.
  revert d. induction fields as [|f rest IH]; intros d Hext; simpl; [done|].
  rewrite Hext by left. destruct (body2 f d); simpl; [|done].
  apply IH. intros f' d' Hin. apply Hext. by right.
Qed.

Lemma on_array_dom f method d : dom (on_array f method d) = dom d.
Proof.
  unfold on_array, field. destruct (d !! f) as [v|] eqn:Hf; simpl; [|done].
  destruct v; try done. rewrite dom_insert_L.
  apply subseteq_union_1_L, singleton_subseteq_l, elem_of_dom. eauto.
Qed.

Lemma guarded_loop_dom message method fields d d' :
  for_fields (guarded message method) fields d = Ok d' -> dom d' = dom d.
Proof.
  revert d. induction fields as [|f rest IH]; intros d; simpl.
  - by intros [= <-].
  - destruct (guarded message method f d) as [d1|e1] eqn:Hb; simpl; [|discriminate].
    apply guarded_ok in Hb as [_ ->]. intros Hloop.
    rewrite (IH _ Hloop). apply on_array_dom.
Qed.

Lemma update_pop_total d update :
  (forall f, f ∈ group_keys (cmd_pop update) -> isArray (field d f) = true) ->
  exists d', Update.pop d update = Ok d'.
Proof.
  destruct (cmd_pop update) as [g|] eqn:Hg; simpl.
  - rewrite (update_pop_guarded _ _ _ Hg). apply guarded_loop_total.
  - intros _. exists d. unfold Update.pop. by rewrite Hg.
Qed.

Lemma update_push_total d update :
  (forall f, f ∈ group_keys (cmd_push update) -> isArray (field d f) = true) ->
  exists d', Update.push d update = Ok d'.
Proof.
  destruct (cmd_push update) as [g|] eqn:Hg; simpl.
  - rewrite (update_push_guarded _ _ _ Hg). apply guarded_loop_total.
  - intros _. exists d. unfold Update.push. by rewrite Hg.
Qed.

Lemma update_unshift_total d update :
  (forall f, f ∈ group_keys (cmd_unshift update) -> isArray (field d f) = true) ->
  exists d', Update.unshift d update = Ok d'.
Proof.
  destruct (cmd_unshift update) as [g|] eqn:Hg; simpl.
  - rewrite (update_unshift_guarded _ _ _ Hg). apply guarded_loop_total.
  - intros _. exists d. unfold Update.unshift. by rewrite Hg.
Qed.

Lemma update_pop_dom d d' update : Update.pop d update = Ok d' -> dom d' = dom d.
Proof.
  destruct (cmd_pop update) as [g|] eqn:Hg.
  - rewrite (update_pop_guarded _ _ _ Hg). apply guarded_loop_dom.
  - unfold Update.pop. rewrite Hg. by intros [= <-].
Qed.

Lemma update_push_dom d d' update : Update.push d update = Ok d' -> dom d' = dom d.
Proof.
  destruct (cmd_push update) as [g|] eqn:Hg.
  - rewrite (update_push_guarded _ _ _ Hg). apply guarded_loop_dom.
  - unfold Update.push. rewrite Hg. by intros [= <-].
Qed.

Lemma update_unshift_dom d d' update :
  Update.unshift d update = Ok d' -> dom d' = dom d.
Proof.
  destruct (cmd_unshift update) as [g|] eqn:Hg.
  - rewrite (update_unshift_guarded _ _ _ Hg). apply guarded_loop_dom.
  - unfold Update.unshift. rewrite Hg. by intros [= <-].
Qed.

End OperatorFacts.

(** X1: $set never throws; afterwards every field the group names holds the
    value the group gives for it, whether the field existed or not, and
    every other field is what it was.  Without a $set group the document is
    unchanged.  The two scripts have the same $set. *)
Theorem set_overwrites_or_creates :
  forall (d : gmap string value) g pop push unshift,
    (exists d',
        Update.set d (mkCommands (Some g) pop push unshift) = Ok d'
        /\ UpdateProc.set d (mkCommands (Some g) pop push unshift) = Ok d'
        /\ (forall k, k ∈ keys g -> d' !! k = Some (prop g k))
        /\ (forall k, k ∉ keys g -> d' !! k = d !! k))
    /\ Update.set d (mkCommands None pop push unshift) = Ok d.
Proof.
  intros d g pop push unshift. split; [|reflexivity].
  destruct (update_set_spec d (mkCommands (Some g) pop push unshift))
    as (d' & Hset & Hspec).
  exists d'. split; [done|]. split; [done|]. simpl in Hspec.
  split; intros k Hk; rewrite Hspec.
  - by rewrite decide_True.
  - by rewrite decide_False.
Qed.

(** X2: $set is idempotent: applying the same $set to its own result
    changes nothing. *)
Theorem set_twice_is_set_once :
  forall (d : gmap string value) update,
    exists d1, Update.set d update = Ok d1 /\ Update.set d1 update = Ok d1.
Proof.
  intros d update.
  destruct (update_set_spec d update) as (d1 & H1 & S1).
  destruct (update_set_spec d1 update) as (d2 & H2 & S2).
  exists d1. split; [done|]. rewrite H2. f_equal. apply map_eq. intros k.
  rewrite S2, S1. by case_decide.
Qed.

(** X3: when the fields that $push names all hold arrays, $push goes
    through; each named field then holds its old array with the value the
    group gives for it added at the end, and the other fields are what they
    were.  The two scripts have the same $push. *)
Theorem push_appends_at_the_end :
  forall (d : gmap string value) update g,
    cmd_push update = Some g -> NoDup (keys g) ->
    (forall k, k ∈ keys g -> isArray (field d k) = true) ->
    exists d',
      Update.push d update = Ok d'
      /\ UpdateProc.push d update = Ok d'
      /\ (forall f xs, f ∈ keys g -> d !! f = Some (JArr xs) ->
                       d' !! f = Some (JArr (xs ++ [prop g f])))
      /\ (forall k, k ∉ keys g -> d' !! k = d !! k).
Proof.
  intros d update g Hg Hnd Harr.
  destruct (update_push_total d update) as (d' & Hpush); [by rewrite Hg|].
  exists d'. split; [done|]. split; [done|].
  rewrite (update_push_guarded _ _ _ Hg) in Hpush. split.
  - intros f xs Hin Hf. apply (guarded_loop_at _ _ _ _ _ _ _ Hnd Hpush Hin Hf).
  - intros k Hk. by apply (guarded_loop_frame _ _ _ _ _ _ Hpush).
Qed.

Lemma push_appends_at_the_end_witness :
  exists d',
    Update.push (Sample.user [Sample.a; Sample.b]) Sample.push_c = Ok d'
    /\ UpdateProc.push (Sample.user [Sample.a; Sample.b]) Sample.push_c = Ok d'
    /\ (forall f xs, f ∈ keys [("tags", Sample.c)] ->
          Sample.user [Sample.a; Sample.b] !! f = Some (JArr xs) ->
          d' !! f = Some (JArr (xs ++ [prop [("tags", Sample.c)] f])))
    /\ (forall k, k ∉ keys [("tags", Sample.c)] ->
          d' !! k = Sample.user [Sample.a; Sample.b] !! k).
Proof.
  apply (push_appends_at_the_end (Sample.user [Sample.a; Sample.b]) Sample.push_c
           [("tags", Sample.c)]).
  - reflexivity.
  - apply NoDup_singleton.
  - intros k Hk. apply list_elem_of_singleton in Hk as ->. vm_compute; reflexivity.
Defined.

(** X4: $push is not idempotent: applied twice, it leaves every named
    field with the value added twice at the end. *)
Theorem push_twice_appends_twice :
  forall (d : gmap string value) update g,
    cmd_push update = Some g -> NoDup (keys g) ->
    (forall k, k ∈ keys g -> isArray (field d k) = true) ->
    exists d' d'',
      Update.push d update = Ok d' /\ Update.push d' update = Ok d''
      /\ forall f xs, f ∈ keys g -> d !! f = Some (JArr xs) ->
           d'' !! f = Some (JArr (xs ++ [prop g f; prop g f])).
Proof.
  intros d update g Hg Hnd Harr.
  destruct (update_push_total d update) as (d' & H1); [by rewrite Hg|].
  pose proof H1 as L1. rewrite (update_push_guarded _ _ _ Hg) in L1.
  destruct (update_push_total d' update) as (d'' & H2).
  { rewrite Hg. intros f Hf. rewrite (guarded_loop_isArray _ _ _ _ _ f L1). by apply Harr. }
  pose proof H2 as L2. rewrite (update_push_guarded _ _ _ Hg) in L2.
  exists d', d''. split; [done|]. split; [done|]. intros f xs Hin Hf.
  pose proof (guarded_loop_at _ _ _ _ _ _ _ Hnd L1 Hin Hf) as Hf'.
  rewrite (guarded_loop_at _ _ _ _ _ _ _ Hnd L2 Hin Hf').
  unfold array_push. by rewrite <- app_assoc.
Qed.

Lemma push_twice_appends_twice_witness :
  exists d' d'',
    Update.push (Sample.user [Sample.a]) Sample.push_c = Ok d'
    /\ Update.push d' Sample.push_c = Ok d''
    /\ forall f xs, f ∈ keys [("tags", Sample.c)] ->
         Sample.user [Sample.a] !! f = Some (JArr xs) ->
         d'' !! f = Some (JArr (xs ++ [prop [("tags", Sample.c)] f;
                                       prop [("tags", Sample.c)] f])).
Proof.
  apply (push_twice_appends_twice (Sample.user [Sample.a]) Sample.push_c
           [("tags", Sample.c)]).
  - reflexivity.
  - apply NoDup_singleton.
  - intros k Hk. apply list_elem_of_singleton in Hk as ->. vm_compute; reflexivity.
Defined.

(** X5: in [update.ts] the four operators go through exactly when every
    field that $pop, $push or $unshift names holds an array once $set is
    done. *)
Theorem operators_succeed_iff_targets_are_arrays :
  forall (d d1 : gmap string value) update,
    Update.set d update = Ok d1 ->
    ((exists d', Update.operators d update = Ok d')
     <-> forall f, f ∈ (group_keys (cmd_pop update) ++ group_keys (cmd_push update)
                         ++ group_keys (cmd_unshift update))%list ->
                   isArray (field d1 f) = true).
Proof.
  intros d d1 update Hset. split.
  - intros (d' & Hops) f Hin. destruct (isArray (field d1 f)) eqn:Harr; [done|].
    destruct (update_operators_not_array _ _ _ _ Hset Hin Harr) as (e & _ & Hthrow).
    congruence.
  - intros Harr. unfold Update.operators. rewrite Hset. simpl.
    destruct (update_pop_total d1 update) as (d2 & H2).
    { intros f Hf. apply Harr. rewrite !elem_of_app. auto. }
    destruct (update_pop_outcome d1 update) as [(d2' & H2' & Hk2 & _)|Hthrow];
      [|congruence].
    rewrite H2 in H2'. injection H2' as <-. rewrite H2. simpl.
    destruct (update_push_total d2 update) as (d3 & H3).
    { intros f Hf. rewrite Hk2. apply Harr. rewrite !elem_of_app. auto. }
    destruct (update_push_outcome d2 update) as [(d3' & H3' & Hk3 & _)|Hthrow];
      [|congruence].
    rewrite H3 in H3'. injection H3' as <-. rewrite H3. simpl.
    apply update_unshift_total. intros f Hf. rewrite Hk3, Hk2. apply Harr.
    rewrite !elem_of_app. auto.
Qed.

Lemma operators_succeed_iff_targets_are_arrays_witness :
  (exists d', Update.operators Sample.plain Sample.set_then_push = Ok d')
  <-> forall f, f ∈ (group_keys (cmd_pop Sample.set_then_push)
                     ++ group_keys (cmd_push Sample.set_then_push)
                     ++ group_keys (cmd_unshift Sample.set_then_push))%list ->
                isArray (field (Sample.user []) f) = true.
Proof.
  apply (operators_succeed_iff_targets_are_arrays Sample.plain (Sample.user [])
           Sample.set_then_push).
  vm_compute; reflexivity.
Defined.

(** X6: in [update.ts] the error of a failing update names the first group,
    in the order $pop, $push, $unshift, that has a target which is not an
    array once $set is done. *)
Theorem first_failing_group_names_the_error :
  forall (d d1 : gmap string value) update f,
    Update.set d update = Ok d1 ->
    isArray (field d1 f) = false ->
    (f ∈ group_keys (cmd_pop update) ->
     Update.operators d update
     = Throw (Error "Bad $pop parameter - field in document must be an array."))
    /\
    ((forall k, k ∈ group_keys (cmd_pop update) -> isArray (field d1 k) = true) ->
     f ∈ group_keys (cmd_push update) ->
     Update.operators d update
     = Throw (Error "Bad $push parameter - field in document must be an array."))
    /\
    ((forall k, k ∈ group_keys (cmd_pop update) -> isArray (field d1 k) = true) ->
     (forall k, k ∈ group_keys (cmd_push update) -> isArray (field d1 k) = true) ->
     f ∈ group_keys (cmd_unshift update) ->
     Update.operators d update
     = Throw (Error "Bad $unshift parameter - field in document must be an array.")).
Proof.
  intros d d1 update f Hset Hf. unfold Update.operators. rewrite Hset. simpl.
  split; [|split].
  - intros Hin.
    destruct (update_pop_outcome d1 update) as [(d2 & _ & _ & Ha2)| ->]; [|done].
    apply Ha2 in Hin. congruence.
  - intros Hpop Hin.
    destruct (update_pop_total d1 update Hpop) as (d2 & H2).
    destruct (update_pop_outcome d1 update) as [(d2' & H2' & Hk2 & _)|Hthrow];
      [|congruence].
    rewrite H2 in H2'. injection H2' as <-. rewrite H2. simpl.
    destruct (update_push_outcome d2 update) as [(d3 & _ & _ & Ha3)| ->]; [|done].
    apply Ha3 in Hin. rewrite Hk2 in Hin. congruence.
  - intros Hpop Hpush Hin.
    destruct (update_pop_total d1 update Hpop) as (d2 & H2).
    destruct (update_pop_outcome d1 update) as [(d2' & H2' & Hk2 & _)|Hthrow];
      [|congruence].
    rewrite H2 in H2'. injection H2' as <-. rewrite H2. simpl.
    destruct (update_push_total d2 update) as (d3 & H3).
    { intros k Hk. rewrite Hk2. by apply Hpush. }
    destruct (update_push_outcome d2 update) as [(d3' & H3' & Hk3 & _)|Hthrow];
      [|congruence].
    rewrite H3 in H3'. injection H3' as <-. rewrite H3. simpl.
    destruct (update_unshift_outcome d3 update) as [(d4 & _ & _ & Ha4)| ->]; [|done].
    apply Ha4 in Hin. rewrite Hk3, Hk2 in Hin. congruence.
Qed.

(** [{$pop: {tags: 1}, $push: {key: "x"}}] on a document whose [tags] are an
    array and whose [key] is a string: the error is the one of $push. *)
Lemma first_failing_group_names_the_error_witness :
  Update.operators (Sample.user [Sample.a]) Sample.push_on_key
  = Throw (Error "Bad $push parameter - field in document must be an array.").
Proof.
  refine (proj1 (proj2 (first_failing_group_names_the_error
            (Sample.user [Sample.a]) (Sample.user [Sample.a]) Sample.push_on_key "key"
            _ _)) _ _).
  - vm_compute; reflexivity.
  - vm_compute; reflexivity.
  - intros k Hk. apply list_elem_of_singleton in Hk as ->. vm_compute; reflexivity.
  - apply list_elem_of_singleton. reflexivity.
Defined.

(** X7: in [update.ts] the operators never remove a field, and only $set
    creates fields: after a successful run the document has the fields it
    had, and those that $set names. *)
Theorem operators_add_only_the_fields_of_set :
  forall (d d' : gmap string value) update,
    Update.operators d update = Ok d' ->
    dom d' = dom d ∪ list_to_set (group_keys (cmd_set update)).
Proof.
  intros d d' update Hops.
  apply update_operators_inv in Hops as (d1 & d2 & d3 & H1 & H2 & H3 & H4).
  rewrite (update_unshift_dom _ _ _ H4), (update_push_dom _ _ _ H3),
    (update_pop_dom _ _ _ H2).
  destruct (update_set_spec d update) as (d1' & H1' & Hspec).
  rewrite H1 in H1'. injection H1' as <-.
  apply set_eq. intros k.
  rewrite elem_of_union, !elem_of_dom, elem_of_list_to_set, Hspec.
  case_decide; [|tauto]. split; [auto|eauto].
Qed.

Lemma operators_add_only_the_fields_of_set_witness :
  dom (Sample.user [Sample.c])
  = dom Sample.plain ∪ list_to_set (group_keys (cmd_set Sample.set_then_push)).
Proof.
  apply (operators_add_only_the_fields_of_set Sample.plain (Sample.user [Sample.c])
           Sample.set_then_push).
  vm_compute; reflexivity.
Defined.

(** ** The update scripts as a whole *)

Section UpdateFacts.

Variable ToNumber : value -> option Z.

Implicit Types (s : Store) (d pre : gmap string value) (update : IUpdateCommands).

Lemma head_rows_stored id s pre :
  head (rows (SelectById id) (docs s)) = Some pre ->
  pre ∈ docs s /\ has_id id pre = true.
Proof.
  simpl. intros Hhead.
  assert (In pre (List.filter (has_id id) (docs s))) as Hin.
  { destruct (List.filter (has_id id) (docs s)); [discriminate|].
    injection Hhead as ->. by left. }
  apply filter_In in Hin as [Hin Hid]. split; [by apply list_elem_of_In|done].
Qed.

(** X9: a successful run of [updateFunc] has issued two requests, the query
    by id and one replace.  The replace is addressed to the [_self] that the
    document has after the operators and carries the [_etag] the document
    had when it was read: a $set on [_etag] does not change the version the
    store checks, and a $set on [_self] changes the document that is
    written over. *)
Theorem replace_carries_link_after_and_etag_before
    id (updateCommands : option IUpdateCommands) budget s b s' :
  Update.updateFunc id updateCommands budget s = (Completed b, s') ->
  exists id' cmds pre d',
    id = Some id' /\ updateCommands = Some cmds /\
    head (rows (SelectById id') (docs s)) = Some pre /\
    Update.operators pre cmds = Ok d' /\
    log s' = Served (ReplaceRequest (field d' "_self") d' (field pre "_etag"))
             :: Served (QueryRequest (SelectById id') None) :: log s.
Proof.
  unfold Update.updateFunc. destruct id as [id'|]; [|discriminate].
  destruct (String.eqb id' ""); [discriminate|].
  destruct updateCommands as [cmds|]; [|discriminate].
  unfold Update.tryQueryAndUpdate. destruct budget; [discriminate|].
  unfold queryDocuments. destruct (next_fault s); [discriminate|].
  simpl default at 1.
  destruct (default [] (pages (SelectById id') s !! 0%nat)) as [|pre others] eqn:Hpage;
    [discriminate|].
  rewrite update_tryUpdate_eq. intros Hw. apply write_back_inv in Hw.
  destruct Hw as (d' & l & i & Hops & _ & Hl & _ & _ & _ & Hlog).
  exists id', cmds, pre, d'. apply first_page_head in Hpage.
  rewrite Hl. by repeat split.
Qed.

Lemma replaceDocument_log link d etag s r s' :
  replaceDocument link d etag s = (r, s') ->
  log s' = Served (ReplaceRequest link d etag) :: log s.
Proof.
  unfold replaceDocument. destruct (next_fault s); [by intros [= _ <-]|].
  destruct link; try by intros [= _ <-].
  destruct (find_link _ _); [|by intros [= _ <-]].
  destruct (etag_matches _ _); by intros [= _ <-].
Qed.

(** When the write-back follows a served request and the operators did not
    throw, its last request was declined exactly when it ends with the
    timeout error. *)
Lemma write_back_declined etag budget d' s out s' :
  write_back etag budget (Ok d') s = (out, s') ->
  ((exists x rest, log s' = Declined x :: rest)
   <-> out = Aborted (Error "The stored procedure timed out.")).
Proof.
  unfold write_back. destruct budget.
  - intros [= <- <-]. split; [done|]. simpl. eauto.
  - destruct (replaceDocument _ _ _ _) as [[code|u] s1] eqn:Hrep;
      apply replaceDocument_log in Hrep; intros [= <- <-];
      (split; [intros (x & rest & Hd); congruence|discriminate]).
Qed.

(** The operators never throw the timeout error. *)
Lemma update_operators_no_timeout d update :
  Update.operators d update <> Throw (Error "The stored procedure timed out.").
Proof.
  unfold Update.operators.
  destruct (update_set_spec d update) as (d1 & -> & _). simpl.
  destruct (update_pop_outcome d1 update) as [(d2 & -> & _)| ->]; [|discriminate].
  simpl.
  destruct (update_push_outcome d2 update) as [(d3 & -> & _)| ->]; [|discriminate].
  simpl.
  destruct (update_unshift_outcome d3 update) as [(d4 & -> & _)| ->]; discriminate.
Qed.

Lemma proc_pop_throw d update e :
  UpdateProc.pop ToNumber d update = Throw e ->
  e = Error "Bad $pop parameter - field in document must be an array.".
Proof.
  destruct (cmd_pop update) as [g|] eqn:Hg.
  - rewrite (proc_pop_guarded _ _ _ _ Hg). apply guarded_loop_throw.
  - unfold UpdateProc.pop. by rewrite Hg.
Qed.

Lemma update_push_throw d update e :
  Update.push d update = Throw e ->
  e = Error "Bad $push parameter - field in document must be an array.".
Proof.
  destruct (cmd_push update) as [g|] eqn:Hg.
  - rewrite (update_push_guarded _ _ _ Hg). apply guarded_loop_throw.
  - unfold Update.push. by rewrite Hg.
Qed.

(** What the $unshift loop of [updateProc] throws is its own error or the
    [TypeError] of the read of [update.$push]. *)
Lemma proc_unshift_throw d update e :
  UpdateProc.unshift d update = Throw e ->
  e = Error "Bad $unshift parameter - field in document must be an array."
  \/ e = TypeError "update.$push is undefined".
Proof.
  unfold UpdateProc.unshift. destruct (cmd_unshift update) as [g|]; [|discriminate].
  generalize (keys g). intros fields. revert d.
  induction fields as [|f rest IH]; intros d; simpl; [discriminate|].
  destruct (negb (isArray (field d f))); simpl; [intros [= <-]; by left|].
  destruct (cmd_push update); simpl; [apply IH|intros [= <-]; by right].
Qed.

Lemma proc_operators_no_timeout d update :
  UpdateProc.operators ToNumber d update
  <> Throw (Error "The stored procedure timed out.").
Proof.
  unfold UpdateProc.operators. rewrite proc_set_eq.
  destruct (update_set_spec d update) as (d1 & -> & _). simpl.
  destruct (UpdateProc.pop ToNumber d1 update) as [d2|e] eqn:H2; simpl;
    [|apply proc_pop_throw in H2 as ->; discriminate].
  rewrite proc_push_eq.
  destruct (Update.push d2 update) as [d3|e] eqn:H3; simpl;
    [|apply update_push_throw in H3 as ->; discriminate].
  destruct (UpdateProc.unshift d3 update) as [d4|e] eqn:H4; [discriminate|].
  apply proc_unshift_throw in H4 as [-> | ->]; discriminate.
Qed.

(** The same for a write-back whose operators may have thrown, as long as
    what they throw is not the timeout error. *)
Lemma write_back_timeout etag budget r s out s' :
  write_back etag budget r s = (out, s') ->
  (exists r0 l0, log s = Served r0 :: l0) ->
  r <> Throw (Error "The stored procedure timed out.") ->
  ((exists x rest, log s' = Declined x :: rest)
   <-> out = Aborted (Error "The stored procedure timed out.")).
Proof.
  intros Hw (r0 & l0 & Hlog) Hr. destruct r as [d'|e].
  - by apply write_back_declined in Hw.
  - simpl in Hw. injection Hw as <- <-. split.
    + intros (x & rest & Hd). congruence.
    + intros [= ->]. done.
Qed.

End UpdateFacts.

Lemma replace_carries_link_after_and_etag_before_witness :
  exists id' cmds pre d',
    Some "1" = Some id' /\ Some Sample.set_etag = Some cmds /\
    head (rows (SelectById id') [Sample.other; Sample.plain]) = Some pre /\
    Update.operators pre cmds = Ok d' /\
    log (snd (Update.updateFunc (Some "1") (Some Sample.set_etag) 2
                (Sample.store [Sample.other; Sample.plain] [])))
    = [Served (ReplaceRequest (field d' "_self") d' (field pre "_etag"));
       Served (QueryRequest (SelectById id') None)].
Proof.
  apply (replace_carries_link_after_and_etag_before (Some "1") (Some Sample.set_etag)
           2%nat (Sample.store [Sample.other; Sample.plain] [])
           (Some (Sample.restamp (<["_etag" := JStr "forged"]> Sample.plain)))).
  vm_compute; reflexivity.
Defined.

(** The version sent with the replace above is the stored ["v1"]. *)
Example forged_etag_is_not_sent :
  head (log (snd (Update.updateFunc (Some "1") (Some Sample.set_etag) 2
                    (Sample.store [Sample.other; Sample.plain] []))))
  = Some (Served (ReplaceRequest (JStr "docs/1")
                    (<["_etag" := JStr "forged"]> Sample.plain) (JStr "v1"))).
Proof. vm_compute; reflexivity. Qed.

(** X8: an update that succeeds returns a document, and that document is
    what the store makes of the operators' result on a stored document
    whose id is the id asked for; this holds for both scripts.  Neither
    script returns a document made of anything else, and neither ends as a
    success without a body. *)
Theorem successful_update_returns_a_stored_document :
  forall ToNumber id (updateCommands : option IUpdateCommands) budget s b s',
    (Update.updateFunc id updateCommands budget s = (Completed b, s') ->
     exists id' cmds pre d',
       id = Some id' /\ id' <> "" /\ updateCommands = Some cmds /\
       pre ∈ docs s /\ has_id id' pre = true /\
       Update.operators pre cmds = Ok d' /\ b = Some (stamp s d'))
    /\
    (UpdateProc.serverScript ToNumber id updateCommands budget s = (Completed b, s') ->
     exists id' cmds pre d',
       id = Some id' /\ id' <> "" /\ updateCommands = Some cmds /\
       pre ∈ docs s /\ has_id id' pre = true /\
       UpdateProc.operators ToNumber pre cmds = Ok d' /\ b = Some (stamp s d')).
Proof.
  intros ToNumber id updateCommands budget s b s'. split; intros Hrun.
  - apply update_inv in Hrun.
    destruct Hrun as (id' & cmds & pre & d' & l & i & ? & ? & ? & Hhead & ? & ? & _).
    apply head_rows_stored in Hhead as [? ?]. by exists id', cmds, pre, d'.
  - apply proc_inv in Hrun.
    destruct Hrun as (id' & cmds & pre & d' & l & i & ? & ? & ? & ? & ? & ? & ? & _).
    by exists id', cmds, pre, d'.
Qed.

Lemma successful_update_returns_a_stored_document_witness :
  exists id' cmds pre d',
    Some "1" = Some id' /\ id' <> "" /\ Some Sample.push_c = Some cmds /\
    pre ∈ [Sample.other; Sample.user [Sample.a]] /\ has_id id' pre = true /\
    UpdateProc.operators Sample.nan pre cmds = Ok d' /\
    Some (Sample.restamp (Sample.user [Sample.a; Sample.c])) = Some (Sample.restamp d').
Proof.
  apply (proj2 (successful_update_returns_a_stored_document Sample.nan
           (Some "1") (Some Sample.push_c) 3%nat
           (Sample.store [Sample.other; Sample.user [Sample.a]] [0%nat])
           (Some (Sample.restamp (Sample.user [Sample.a; Sample.c])))
           (snd (UpdateProc.serverScript Sample.nan (Some "1") (Some Sample.push_c) 3
                   (Sample.store [Sample.other; Sample.user [Sample.a]] [0%nat]))))).
  vm_compute; reflexivity.
Defined.

Section ScriptsCompared.

Variable ToNumber : value -> option Z.

Implicit Types (s : Store) (d : gmap string value) (update : IUpdateCommands).

(** Without a delta below zero the two $pop loops are the same, and without
    an $unshift group so are the two $unshift loops. *)
Lemma operators_agree d update :
  cmd_unshift update = None ->
  (forall f, f ∈ group_keys (cmd_pop update) ->
             UpdateProc.less_than_zero ToNumber (prop (default [] (cmd_pop update)) f)
             = false) ->
  UpdateProc.operators ToNumber d update = Update.operators d update.
Proof.
  intros Hun Hpop. unfold UpdateProc.operators, Update.operators.
  rewrite proc_set_eq. destruct (Update.set d update) as [d1|]; simpl; [|done].
  assert (UpdateProc.pop ToNumber d1 update = Update.pop d1 update) as ->.
  { unfold UpdateProc.pop, Update.pop. destruct (cmd_pop update) as [g|]; [|done].
    apply for_fields_ext_in. intros f d0 Hf.
    destruct (negb (isArray (field d0 f))); [done|]. simpl in Hpop.
    by rewrite (Hpop f Hf). }
  destruct (Update.pop d1 update) as [d2|]; simpl; [|done].
  rewrite proc_push_eq. destruct (Update.push d2 update) as [d3|]; simpl; [|done].
  unfold UpdateProc.unshift, Update.unshift. by rewrite Hun.
Qed.

End ScriptsCompared.

(** X10: the two update scripts end in the same way, store included,
    whenever the commands have no $unshift group and no $pop delta below
    zero, and the first page of the query by id either has rows or comes
    without a continuation token. *)
Theorem update_scripts_agree :
  forall ToNumber id update budget s,
    cmd_unshift update = None ->
    (forall f, f ∈ group_keys (cmd_pop update) ->
               UpdateProc.less_than_zero ToNumber (prop (default [] (cmd_pop update)) f)
               = false) ->
    default [] (pages (SelectById id) s !! 0%nat) <> []
    \/ next_token (pages (SelectById id) s) 0 = None ->
    UpdateProc.serverScript ToNumber (Some id) (Some update) budget s
    = Update.updateFunc (Some id) (Some update) budget s.
Proof.
  intros ToNumber id update budget s Hun Hpop Hpage.
  unfold UpdateProc.serverScript, Update.updateFunc.
  destruct (String.eqb id ""); [done|].
  destruct budget as [|budget]; [done|].
  rewrite proc_loop_step. unfold Update.tryQueryAndUpdate.
  unfold queryDocuments. destruct (next_fault s); [done|]. simpl default at 1 3 4.
  destruct (default [] (pages (SelectById id) s !! 0%nat)) as [|pre others].
  - destruct Hpage as [Hpage| ->]; [done|]. done.
  - unfold UpdateProc.tryUpdate, Update.tryUpdate.
    by rewrite (operators_agree ToNumber _ _ Hun Hpop).
Qed.

Lemma update_scripts_agree_witness :
  UpdateProc.serverScript Sample.nan (Some "1") (Some Sample.set_then_push) 2
    (Sample.store [Sample.other; Sample.plain] [])
  = Update.updateFunc (Some "1") (Some Sample.set_then_push) 2
      (Sample.store [Sample.other; Sample.plain] []).
Proof.
  apply update_scripts_agree.
  - reflexivity.
  - intros f Hf. by apply elem_of_nil in Hf.
  - left. vm_compute. discriminate.
Defined.

(** X11: an update script ends with the timeout error exactly when the
    store declined its last request, be it a query or the replace; the
    stored documents are then what they were.  (The request log is taken to
    be empty at the start; this holds for both scripts.) *)
Theorem update_times_out_iff_declined :
  forall ToNumber id (updateCommands : option IUpdateCommands) budget s out s',
    log s = [] ->
    (Update.updateFunc id updateCommands budget s = (out, s') ->
     ((exists r rest, log s' = Declined r :: rest)
      <-> out = Aborted (Error "The stored procedure timed out."))
     /\ (out = Aborted (Error "The stored procedure timed out.") -> docs s' = docs s))
    /\
    (UpdateProc.serverScript ToNumber id updateCommands budget s = (out, s') ->
     ((exists r rest, log s' = Declined r :: rest)
      <-> out = Aborted (Error "The stored procedure timed out."))
     /\ (out = Aborted (Error "The stored procedure timed out.") -> docs s' = docs s)).
Proof.
  intros ToNumber id updateCommands budget s out s' Hlog.
  assert (forall (e : thrown) s0, log s0 = [] ->
            e <> Error "The stored procedure timed out." ->
            (exists r rest, log s0 = Declined r :: rest)
            <-> @Aborted (gmap string value) e
                = Aborted (Error "The stored procedure timed out.")) as Hnot.
  { intros e s0 H0 He. split; [intros (r & rest & Hd); congruence|].
    intros [= ->]. done. }
  split; intros Hrun; (split; [|intros ->; [apply update_inv in Hrun
                                           || apply proc_inv in Hrun]; exact Hrun]).
  - revert Hrun. unfold Update.updateFunc.
    destruct id as [id'|]; [|intros [= <- <-]; by apply Hnot].
    destruct (String.eqb id' ""); [intros [= <- <-]; by apply Hnot|].
    destruct updateCommands as [cmds|]; [|intros [= <- <-]; by apply Hnot].
    unfold Update.tryQueryAndUpdate. destruct budget.
    { intros [= <- <-]. split; [done|]. simpl. eauto. }
    unfold queryDocuments. destruct (next_fault s).
    { intros [= <- <-]. split; [intros (r & rest & Hd); discriminate|discriminate]. }
    simpl default at 1.
    destruct (default [] (pages (SelectById id') s !! 0%nat)) as [|pre others].
    { intros [= <- <-]. split; [intros (r & rest & Hd); discriminate|discriminate]. }
    rewrite update_tryUpdate_eq. intros Hw.
    apply (write_back_timeout _ _ _ _ _ _ Hw); [simpl; eauto|].
    apply update_operators_no_timeout.
  - revert Hrun. unfold UpdateProc.serverScript.
    destruct id as [id'|]; [|intros [= <- <-]; by apply Hnot].
    destruct (String.eqb id' ""); [intros [= <- <-]; by apply Hnot|].
    destruct updateCommands as [cmds|]; [|intros [= <- <-]; by apply Hnot].
    clear Hlog Hnot. generalize (@None nat). revert s.
    induction budget as [|budget IH]; intros s continuation.
    { intros [= <- <-]. split; [done|]. simpl. eauto. }
    rewrite proc_loop_step.
    unfold queryDocuments. destruct (next_fault s).
    { intros [= <- <-]. split; [intros (r & rest & Hd); discriminate|discriminate]. }
    destruct (default [] (pages (SelectById id') s !! default 0%nat continuation))
      as [|pre others].
    + destruct (next_token _ _) as [token|]; [apply IH|].
      intros [= <- <-]. split; [intros (r & rest & Hd); discriminate|discriminate].
    + rewrite proc_tryUpdate_eq. intros Hw.
      apply (write_back_timeout _ _ _ _ _ _ Hw); [simpl; eauto|].
      apply proc_operators_no_timeout.
Qed.

(** With a budget of one request the query is served and the replace is
    declined. *)
Lemma update_times_out_iff_declined_witness :
  ((exists r rest,
       log (snd (Update.updateFunc (Some "1") (Some Sample.push_c) 1
                   (Sample.store [Sample.user [Sample.a]] [])))
       = Declined r :: rest)
   <-> fst (Update.updateFunc (Some "1") (Some Sample.push_c) 1
              (Sample.store [Sample.user [Sample.a]] []))
       = Aborted (Error "The stored procedure timed out."))
  /\ (fst (Update.updateFunc (Some "1") (Some Sample.push_c) 1
             (Sample.store [Sample.user [Sample.a]] []))
      = Aborted (Error "The stored procedure timed out.") ->
      docs (snd (Update.updateFunc (Some "1") (Some Sample.push_c) 1
                   (Sample.store [Sample.user [Sample.a]] [])))
      = [Sample.user [Sample.a]]).
Proof.
  apply (proj1 (update_times_out_iff_declined Sample.nan (Some "1") (Some Sample.push_c)
                  1%nat (Sample.store [Sample.user [Sample.a]] []) _ _ eq_refl)).
  vm_compute; reflexivity.
Defined.

Section Paging.

Variable ToNumber : value -> option Z.

Lemma proc_budget_used_up id update k :
  forall continuation s,
    quiet s ->
    (forall j, (default 0 continuation <= j < default 0 continuation + k)%nat ->
               pages (SelectById id) s !! j = Some []) ->
    (default 0 continuation + k < length (pages (SelectById id) s))%nat ->
    exists s',
      UpdateProc.tryQueryAndUpdate ToNumber id update k continuation s
      = (Aborted (Error "The stored procedure timed out."), s')
      /\ docs s' = docs s /\ length (log s') = (S k + length (log s))%nat.
Proof.
  induction k as [|k IH]; intros continuation s Hq Hempty Hlen.
  - eexists. split; [reflexivity|]. done.
  - set (c := default 0%nat continuation) in *.
    rewrite proc_loop_step, (queryDocuments_quiet _ _ _ Hq). fold c.
    rewrite (Hempty c) by lia.
    assert (next_token (pages (SelectById id) s) c = Some (S c)) as ->.
    { unfold next_token.
      destruct (Nat.ltb_spec (S c) (length (pages (SelectById id) s))); [done|lia]. }
    cbn [default].
    destruct (IH (Some (S c)) (serve (QueryRequest (SelectById id) continuation) s))
      as (s' & Hrun & Hdocs & Hlog).
    + by apply quiet_serve.
    + intros j Hj. simpl in Hj. apply Hempty. lia.
    + change (S c + k < length (pages (SelectById id) s))%nat. lia.
    + exists s'. split; [done|]. split; [done|]. rewrite Hlog. simpl. lia.
Qed.

End Paging.

(** X12: in [updateProc] every repeated query uses up budget: when the
    first [k] pages of the query by id are empty, a further page exists and
    the budget is [k] requests, the script issues [k] queries, has the next
    one declined and ends with the timeout error without touching a stored
    document. *)
Theorem paging_uses_up_the_budget :
  forall ToNumber id update k s,
    id <> "" -> quiet s ->
    (forall j, (j < k)%nat -> pages (SelectById id) s !! j = Some []) ->
    (k < length (pages (SelectById id) s))%nat ->
    exists s',
      UpdateProc.serverScript ToNumber (Some id) (Some update) k s
      = (Aborted (Error "The stored procedure timed out."), s')
      /\ docs s' = docs s /\ length (log s') = (S k + length (log s))%nat.
Proof.
  intros ToNumber id update k s Hid Hq Hempty Hlen.
  unfold UpdateProc.serverScript. rewrite (proj2 (String.eqb_neq id "") Hid).
  apply proc_budget_used_up; [done| |done].
  intros j Hj. simpl in Hj. apply Hempty. lia.
Qed.

(** Two empty pages before the page with the document, and a budget of two
    requests. *)
Lemma paging_uses_up_the_budget_witness :
  exists s',
    UpdateProc.serverScript Sample.nan (Some "1") (Some Sample.push_c) 2
      (Sample.store [Sample.user [Sample.a]] [0%nat; 0%nat])
    = (Aborted (Error "The stored procedure timed out."), s')
    /\ docs s' = [Sample.user [Sample.a]]
    /\ length (log s') = 3%nat.
Proof.
  apply (paging_uses_up_the_budget Sample.nan "1" Sample.push_c 2%nat
           (Sample.store [Sample.user [Sample.a]] [0%nat; 0%nat])).
  - discriminate.
  - apply sample_store_quiet.
  - intros [|[|j]] Hj; [reflexivity|reflexivity|lia].
  - vm_compute. lia.
Defined.

(** ** The bulk delete script as a whole *)

Section BulkDeleteFacts.

Implicit Types (s : Store) (queue rest : list (gmap string value)).

Lemma first_page_prefix q s :
  exists rest, rows q (docs s) = (default [] (pages q s !! 0%nat) ++ rest)%list.
Proof.
  unfold pages. destruct (layout s) as [|n sizes]; simpl.
  - exists []. by rewrite app_nil_r.
  - exists (drop n (rows q (docs s))). by rewrite take_drop.
Qed.

Lemma deleteDocument_front l d ds s :
  quiet s -> docs s = d :: ds -> d !! "_self" = Some (JStr l) ->
  deleteDocument (field d "_self") s
  = (Deleted, with_docs ds (serve (DeleteRequest (JStr l)) s)).
Proof.
  intros Hq Hdocs Hl. unfold deleteDocument, field.
  rewrite (quiet_next_fault _ Hq), Hl, Hdocs. simpl.
  unfold has_link. rewrite Hl. by rewrite String.eqb_refl.
Qed.

(** [tryDelete] on documents that head the collection: they are deleted
    from the front, as far as the budget goes. *)
Lemma tryDelete_front queue :
  forall budget n response s rest,
    quiet s -> docs s = (queue ++ rest)%list ->
    (forall d, d ∈ queue -> exists l, d !! "_self" = Some (JStr l)) ->
    exists s',
      BulkDelete.tryDelete budget queue (BulkDelete.mkBody n) response s
      = (if Nat.ltb budget (length queue)
         then Completed (Some (BulkDelete.mkBody (n + budget)))
         else Completed response, s')
      /\ docs s' = (drop budget queue ++ rest)%list.
Proof.
  induction queue as [|d queue IH]; intros budget n response s rest Hq Hdocs Hlinks.
  - exists s. simpl. split; [done|]. by rewrite drop_nil.
  - destruct budget as [|budget].
    + eexists. simpl. rewrite Nat.add_0_r. split; [reflexivity|done].
    + destruct (Hlinks d) as (l & Hl); [by left|].
      cbn [BulkDelete.tryDelete].
      rewrite (deleteDocument_front l d (queue ++ rest) s Hq Hdocs Hl).
      destruct (IH budget (S n) response
                  (with_docs (queue ++ rest) (serve (DeleteRequest (JStr l)) s)) rest)
        as (s' & Hrun & Hd).
      * by apply quiet_serve.
      * done.
      * intros d' Hd'. apply Hlinks. by right.
      * exists s'. simpl BulkDelete.deleted. rewrite Hrun. split; [|done].
        change (Nat.ltb (S budget) (length (d :: queue)))
          with (Nat.ltb budget (length queue)).
        by replace (n + S budget)%nat with (S n + budget)%nat by lia.
Qed.

(** However [tryDelete] ends, it has only removed documents, no more than
    the budget and no more than were queued, and a body it reports holds
    the count of the documents that have gone. *)
Lemma tryDelete_bounds queue :
  forall budget body s out s',
    BulkDelete.tryDelete budget queue body None s = (out, s') ->
    (length (docs s') <= length (docs s))%nat
    /\ (length (docs s) <= length (docs s') + Nat.min budget (length queue))%nat
    /\ (forall body', out = Completed (Some body') ->
          (length (docs s') + BulkDelete.deleted body'
           = length (docs s) + BulkDelete.deleted body)%nat)
    /\ exists evs, log s' = (evs ++ log s)%list
         /\ Forall (fun e => exists l, e = Served (DeleteRequest l)
                                       \/ e = Declined (DeleteRequest l)) evs.
Proof.
  induction queue as [|d queue IH]; intros budget body s out s'; simpl.
  - intros [= <- <-]. split; [lia|]. split; [lia|]. split; [discriminate|].
    exists []. by split.
  - destruct budget as [|budget].
    + intros [= <- <-]. simpl. split; [lia|]. split; [lia|]. split.
      * intros body' [= <-]. lia.
      * eexists [_]. split; [reflexivity|]. constructor; [eauto|constructor].
    + destruct (deleteDocument _ s) as [[code|] s1] eqn:Hdel;
        apply deleteDocument_inv in Hdel as [Hlog Hdocs].
      * intros [= <- <-]. rewrite Hdocs. split; [lia|]. split; [lia|].
        split; [discriminate|]. eexists [_]. split; [exact Hlog|].
        constructor; [eauto|constructor].
      * intros Hrun. apply IH in Hrun as (H1 & H2 & H3 & evs & Hevs & Hall).
        split; [lia|]. split; [lia|]. split.
        -- intros body' Hb. specialize (H3 body' Hb). simpl in H3. lia.
        -- exists (evs ++ [Served (DeleteRequest (field d "_self"))])%list.
           split; [by rewrite Hevs, Hlog, <- app_assoc|].
           apply Forall_app. split; [done|]. constructor; [eauto|constructor].
Qed.

End BulkDeleteFacts.

(** X13: when the store reports no error and the documents of the first
    page of the query have a self-link, the bulk delete removes documents
    from the front of the collection, as many as the budget left by the
    query allows and at most the first page, and keeps the rest in order.
    It reports [{deleted: 0}] on an empty page, [{deleted: budget}] when the
    budget ends before the page does, and nothing at all when the whole
    page has been deleted. *)
Theorem bulk_delete_removes_the_front_of_the_first_page :
  forall budget s,
    quiet s ->
    (forall d, d ∈ default [] (pages SelectAll s !! 0%nat) ->
               exists l, d !! "_self" = Some (JStr l)) ->
    exists s',
      BulkDelete.serverScript (S budget) s
      = (match default [] (pages SelectAll s !! 0%nat) with
         | [] => Completed (Some (BulkDelete.mkBody 0))
         | page =>
             if Nat.ltb budget (length page)
             then Completed (Some (BulkDelete.mkBody budget))
             else Completed None
         end, s')
      /\ docs s'
         = drop (Nat.min budget (length (default [] (pages SelectAll s !! 0%nat))))
             (docs s).
Proof.
  intros budget s Hq Hlinks.
  unfold BulkDelete.serverScript, BulkDelete.tryQueryAndDelete.
  rewrite (queryDocuments_quiet _ _ _ Hq). change (default 0%nat None) with 0%nat.
  destruct (first_page_prefix SelectAll s) as (rest & Hrows). simpl rows in Hrows.
  destruct (default [] (pages SelectAll s !! 0%nat)) as [|d page] eqn:Hpage.
  - eexists. split; [reflexivity|]. simpl. by rewrite Nat.min_0_r.
  - destruct (tryDelete_front (d :: page) budget 0 None
                (serve (QueryRequest SelectAll None) s) rest) as (s' & Hrun & Hdocs).
    + by apply quiet_serve.
    + exact Hrows.
    + exact Hlinks.
    + exists s'. split; [exact Hrun|]. rewrite Hdocs, Hrows.
      destruct (Nat.le_gt_cases budget (length (d :: page))) as [Hle|Hgt].
      * rewrite Nat.min_l by done. by rewrite drop_app_le.
      * rewrite Nat.min_r by lia. rewrite drop_app_length.
        by rewrite drop_ge by lia.
Qed.

(** Three documents that the store returns two per page, and budget for the
    query and five deletes: the first two documents go, the third stays and
    no body is set. *)
Lemma bulk_delete_removes_the_front_of_the_first_page_witness :
  exists s',
    BulkDelete.serverScript 6
      (Sample.store [Sample.other; Sample.plain; Sample.third] [2%nat])
    = (Completed None, s')
    /\ docs s' = [Sample.third].
Proof.
  apply (bulk_delete_removes_the_front_of_the_first_page 5%nat
           (Sample.store [Sample.other; Sample.plain; Sample.third] [2%nat])).
  - apply sample_store_quiet.
  - intros d Hd. vm_compute in Hd.
    apply elem_of_cons in Hd as [->|Hd]; [by eexists|].
    apply list_elem_of_singleton in Hd as ->. by eexists.
Defined.

(** X14: whatever the store answers, one invocation of the bulk delete only
    removes documents, never more than the first page of its query holds and
    never more than the budget less the one request of the query. *)
Theorem bulk_delete_removes_at_most_one_page :
  forall budget s,
    (length (docs (snd (BulkDelete.serverScript budget s))) <= length (docs s))%nat
    /\ (length (docs s)
        <= length (docs (snd (BulkDelete.serverScript budget s)))
           + Nat.min (budget - 1) (length (default [] (pages SelectAll s !! 0%nat))))%nat.
Proof.
  intros budget s. unfold BulkDelete.serverScript, BulkDelete.tryQueryAndDelete.
  destruct budget as [|budget]; [simpl; lia|].
  unfold queryDocuments. destruct (next_fault s); [simpl; lia|].
  change (default 0%nat None) with 0%nat.
  destruct (default [] (pages SelectAll s !! 0%nat)) as [|d page]; [simpl; lia|].
  destruct (BulkDelete.tryDelete _ _ _ _ _) as [out s'] eqn:Hrun.
  apply tryDelete_bounds in Hrun as (H1 & H2 & _). simpl in *.
  rewrite Nat.sub_0_r. lia.
Qed.

(** X15: whenever the bulk delete ends with a response body, the count in
    it is the number of documents it has removed from the collection. *)
Theorem bulk_delete_count_is_accurate :
  forall budget s body,
    fst (BulkDelete.serverScript budget s) = Completed (Some body) ->
    (length (docs (snd (BulkDelete.serverScript budget s))) + BulkDelete.deleted body
     = length (docs s))%nat.
Proof.
  intros budget s body. unfold BulkDelete.serverScript, BulkDelete.tryQueryAndDelete.
  destruct budget as [|budget]; [by intros [= <-]|].
  unfold queryDocuments. destruct (next_fault s); [discriminate|].
  change (default 0%nat None) with 0%nat.
  destruct (default [] (pages SelectAll s !! 0%nat)) as [|d page]; [by intros [= <-]|].
  destruct (BulkDelete.tryDelete _ _ _ _ _) as [out s'] eqn:Hrun.
  apply tryDelete_bounds in Hrun as (_ & _ & H3 & _). simpl.
  intros Hout. specialize (H3 body Hout). simpl in H3. lia.
Qed.

Lemma bulk_delete_count_is_accurate_witness :
  (length (docs (snd (BulkDelete.serverScript 2
      (Sample.store [Sample.other; Sample.plain; Sample.third] [])))) + 1
   = 3)%nat.
Proof.
  apply (bulk_delete_count_is_accurate 2%nat
           (Sample.store [Sample.other; Sample.plain; Sample.third] [])
           (BulkDelete.mkBody 1)).
  vm_compute; reflexivity.
Defined.

(** X16: one invocation of the bulk delete issues exactly one query, as its
    first request, and after it nothing but deletes: it never asks for a
    second page. *)
Theorem bulk_delete_queries_once :
  forall budget s,
    exists evs q,
      log (snd (BulkDelete.serverScript budget s)) = (evs ++ q :: log s)%list
      /\ (q = Served (QueryRequest SelectAll None)
          \/ q = Declined (QueryRequest SelectAll None))
      /\ Forall (fun e => exists l, e = Served (DeleteRequest l)
                                    \/ e = Declined (DeleteRequest l)) evs.
Proof.
  intros budget s. unfold BulkDelete.serverScript, BulkDelete.tryQueryAndDelete.
  destruct budget as [|budget].
  { exists [], (Declined (QueryRequest SelectAll None)). simpl. auto. }
  unfold queryDocuments. destruct (next_fault s).
  { exists [], (Served (QueryRequest SelectAll None)). simpl. auto. }
  change (default 0%nat None) with 0%nat.
  destruct (default [] (pages SelectAll s !! 0%nat)) as [|d page].
  { exists [], (Served (QueryRequest SelectAll None)). simpl. auto. }
  destruct (BulkDelete.tryDelete _ _ _ _ _) as [out s'] eqn:Hrun.
  apply tryDelete_bounds in Hrun as (_ & _ & _ & evs & Hlog & Hall).
  exists evs, (Served (QueryRequest SelectAll None)). simpl. auto.
Qed.

(** * Properties of the repository *)

Section RepositoryFacts.

Context {C : Type}.
Variable client : DocumentClient.t C.
Variable DATABASE_ID : string.
Variable collectionId : string.
Variable transformAndValidate : option (gmap string value) -> promise (gmap string value).
Variable transformAndValidateAll :
  list (gmap string value) -> promise (list (gmap string value)).
Variable undefined_read_message : string.
Variable ToString : value -> string.

Import BaseCRUDRepository.

Local Abbreviation evaluateInit := (evaluateInit client DATABASE_ID collectionId).
Local Abbreviation init :=
  (initDatabaseCollectionAndStoredProcedures client DATABASE_ID collectionId).
Local Abbreviation create :=
  (create client DATABASE_ID collectionId transformAndValidate undefined_read_message).
Local Abbreviation findOne :=
  (findOne client DATABASE_ID collectionId transformAndValidate undefined_read_message).
Local Abbreviation findAll :=
  (findAll client DATABASE_ID collectionId transformAndValidateAll undefined_read_message).
Local Abbreviation update :=
  (update client DATABASE_ID collectionId transformAndValidate undefined_read_message).
Local Abbreviation remove :=
  (remove client DATABASE_ID collectionId undefined_read_message ToString).
Local Abbreviation removeAll :=
  (removeAll client DATABASE_ID collectionId undefined_read_message).
Local Abbreviation findByKey :=
  (findByKey client DATABASE_ID collectionId transformAndValidate undefined_read_message).

Implicit Types (w : world (C := C)) (e : exn).

Lemma handler_documented e : documented (snd (handleRepositoryErrors e)).
Proof.
  unfold documented. destruct e; simpl; eauto.
  destruct (forallb _ _); simpl; eauto.
Qed.

Lemma try_catch_documented {A} (body : promise A * world (C := C)) e :
  fst (try_catch body) = Rejected e -> documented e.
Proof.
  destruct body as [[a|e0] w]; simpl; [discriminate|].
  pose proof (handler_documented e0) as Hdoc.
  destruct (handleRepositoryErrors e0) as [line thrown]. simpl in *.
  by intros [= <-].
Qed.

(** The four look-ups of the initialisation reject with the error object
    of the client and nothing else. *)
Lemma getOrCreateDatabase_rejects id c e c' :
  DatabaseUtils.getOrCreateDatabase client id c = (Rejected e, c') ->
  exists code body, e = QueryError code body.
Proof.
  unfold DatabaseUtils.getOrCreateDatabase.
  destruct (DocumentClient.queryDatabases _ _ _) as [[code body|[|first rest]] c1].
  - intros [= <- _]. eauto.
  - destruct (DocumentClient.createDatabase _ _ _) as [[code body|result] c2];
      [intros [= <- _]; eauto|discriminate].
  - discriminate.
Qed.

Lemma getOrCreateCollection_rejects link id c e c' :
  DatabaseUtils.getOrCreateCollection client link id c = (Rejected e, c') ->
  exists code body, e = QueryError code body.
Proof.
  unfold DatabaseUtils.getOrCreateCollection.
  destruct (DocumentClient.queryCollections _ _ _ _) as [[code body|[|first rest]] c1].
  - intros [= <- _]. eauto.
  - destruct (DocumentClient.createCollection _ _ _ _) as [[code body|result] c2];
      [intros [= <- _]; eauto|discriminate].
  - discriminate.
Qed.

Lemma getOrCreateUpdateStoredProcedure_rejects link c e c' :
  DatabaseUtils.getOrCreateUpdateStoredProcedure client link c = (Rejected e, c') ->
  exists code body, e = QueryError code body.
Proof.
  unfold DatabaseUtils.getOrCreateUpdateStoredProcedure.
  destruct (DocumentClient.queryStoredProcedures _ _ _ _) as [[code body|[|first rest]] c1].
  - intros [= <- _]. eauto.
  - destruct (DocumentClient.createStoredProcedure _ _ _ _) as [[code body|result] c2];
      [intros [= <- _]; eauto|discriminate].
  - discriminate.
Qed.

Lemma getOrCreateBulkDeleteStoredProcedure_rejects link c e c' :
  DatabaseUtils.getOrCreateBulkDeleteStoredProcedure client link c = (Rejected e, c') ->
  exists code body, e = QueryError code body.
Proof.
  unfold DatabaseUtils.getOrCreateBulkDeleteStoredProcedure.
  destruct (DocumentClient.queryStoredProcedures _ _ _ _) as [[code body|[|first rest]] c1].
  - intros [= <- _]. eauto.
  - destruct (DocumentClient.createStoredProcedure _ _ _ _) as [[code body|result] c2];
      [intros [= <- _]; eauto|discriminate].
  - discriminate.
Qed.

(** Every way the initialisation can end: with all four references set, or
    with the error object of the client. *)
Lemma init_inv w p w' :
  init w = (p, w') ->
  console w' = console w /\
  match p with
  | Resolved _ =>
      exists db coll up bulk,
        repo w' = mkFields (Some db) (Some coll) (Some up) (Some bulk)
  | Rejected e => exists code body, e = QueryError code body
  end.
Proof.
  unfold initDatabaseCollectionAndStoredProcedures.
  destruct (DatabaseUtils.getOrCreateDatabase _ _ _) as [[db|e1] c1] eqn:H1.
  2:{ intros [= <- <-]. split; [done|]. by eapply getOrCreateDatabase_rejects. }
  destruct (DatabaseUtils.getOrCreateCollection _ _ _ _) as [[coll|e2] c2] eqn:H2.
  2:{ intros [= <- <-]. split; [done|]. by eapply getOrCreateCollection_rejects. }
  destruct (DatabaseUtils.getOrCreateUpdateStoredProcedure _ _ _) as [[up|e3] c3] eqn:H3.
  2:{ intros [= <- <-]. split; [done|].
      by eapply getOrCreateUpdateStoredProcedure_rejects. }
  destruct (DatabaseUtils.getOrCreateBulkDeleteStoredProcedure _ _ _)
    as [[bulk|e4] c4] eqn:H4.
  2:{ intros [= <- <-]. split; [done|].
      by eapply getOrCreateBulkDeleteStoredProcedure_rejects. }
  intros [= <- <-]. split; [done|]. by exists db, coll, up, bulk.
Qed.

Lemma evaluateInit_inv w p w' :
  evaluateInit w = (p, w') ->
  console w' = console w /\
  match p with
  | Resolved _ =>
      exists db coll up bulk,
        repo w' = mkFields (Some db) (Some coll) (Some up) (Some bulk)
  | Rejected e => exists code body, e = QueryError code body
  end.
Proof.
  unfold BaseCRUDRepository.evaluateInit.
  destruct (database (repo w)) as [db|] eqn:Hd; [|apply init_inv].
  destruct (collection (repo w)) as [coll|] eqn:Hc; [|apply init_inv].
  destruct (updateProcedure (repo w)) as [up|] eqn:Hu; [|apply init_inv].
  destruct (bulkDeleteProcedure (repo w)) as [bulk|] eqn:Hb; [|apply init_inv].
  intros [= <- <-]. split; [done|]. exists db, coll, up, bulk.
  destruct (repo w). simpl in *. congruence.
Qed.

(** X22: [evaluateInit] resolves only with the four references set, and
    from then on it does nothing: no request goes to the store and the
    world is what it was. *)
Theorem initialisation_happens_once :
  forall w w1,
    evaluateInit w = (Resolved tt, w1) ->
    (exists db coll up bulk,
        repo w1 = mkFields (Some db) (Some coll) (Some up) (Some bulk))
    /\ evaluateInit w1 = (Resolved tt, w1).
Proof.
  intros w w1 Hinit. pose proof Hinit as Hinv.
  apply evaluateInit_inv in Hinv as [_ (db & coll & up & bulk & Hrepo)].
  split; [by exists db, coll, up, bulk|].
  unfold BaseCRUDRepository.evaluateInit. by rewrite Hrepo.
Qed.

(** The skeleton of a method when the initialisation fails. *)
Lemma try_catch_init_fails {A} w e w'
    (k : unit -> world (C := C) -> promise A * world (C := C)) :
  evaluateInit w = (Rejected e, w') ->
  try_catch (and_then (evaluateInit w) k)
  = (Rejected (UnexpectedDbError ""),
     mkWorld (repo w') (store w')
       ("Any not specifically caught and handled error occured." :: console w')).
Proof.
  intros Hinit. rewrite Hinit. simpl.
  apply evaluateInit_inv in Hinit as [_ (code & body & ->)]. reflexivity.
Qed.

(** X19: when the initialisation fails, that is when one of the look-ups or
    creations of the database, the collection or the procedures is answered
    with an error, every method of the repository rejects with an
    [UnexpectedDbError] without a message: the error of the store is
    neither wrapped nor passed on. *)
Theorem failed_initialisation_is_unexpected :
  forall w e w' obj id objOrId updateCommands,
    evaluateInit w = (Rejected e, w') ->
    let w'' := mkWorld (repo w') (store w')
                 ("Any not specifically caught and handled error occured." :: console w') in
    create obj w = (Rejected (UnexpectedDbError ""), w'')
    /\ findOne id w = (Rejected (UnexpectedDbError ""), w'')
    /\ findAll w = (Rejected (UnexpectedDbError ""), w'')
    /\ update objOrId updateCommands w = (Rejected (UnexpectedDbError ""), w'')
    /\ remove objOrId w = (Rejected (UnexpectedDbError ""), w'')
    /\ removeAll w = (Rejected (UnexpectedDbError ""), w'').
Proof.
  intros w e w' obj id objOrId updateCommands Hinit w''.
  repeat split; by apply try_catch_init_fails with (e := e).
Qed.

(** X17: whatever the store and the validation answer, a method of the
    repository that rejects rejects with a [RepositoryError] or with an
    [UnexpectedDbError] without a message, as documented: no error object of
    the client, no [TypeError], no [DbQueryError] and no array of validation
    errors reaches the caller. *)
Theorem repository_rejects_as_documented :
  forall w obj id key objOrId updateCommands e,
    (fst (create obj w) = Rejected e -> documented e)
    /\ (fst (findOne id w) = Rejected e -> documented e)
    /\ (fst (findAll w) = Rejected e -> documented e)
    /\ (fst (update objOrId updateCommands w) = Rejected e -> documented e)
    /\ (fst (remove objOrId w) = Rejected e -> documented e)
    /\ (fst (removeAll w) = Rejected e -> documented e)
    /\ (fst (findByKey key w) = Rejected e -> documented e).
Proof.
  intros w obj id key objOrId updateCommands e.
  repeat split; try apply try_catch_documented.
  unfold BaseCRUDRepository.findByKey, try_catch_unawaited.
  destruct (and_then _ _) as [[a|e0] w0]; simpl; [discriminate|].
  destruct (handleRepositoryErrors e0). simpl. intros [= <-]. by right.
Qed.

(** X21: [findByKey] of [UsersRepository] calls the error handler without
    awaiting it, so whatever goes wrong, a failed initialisation, an error
    of the query or a document that does not validate, it rejects with an
    [UnexpectedDbError] without a message and never with a
    [RepositoryError]. *)
Theorem findByKey_rejects_as_unexpected :
  forall key w e,
    fst (findByKey key w) = Rejected e -> e = UnexpectedDbError "".
Proof.
  intros key w e. unfold BaseCRUDRepository.findByKey, try_catch_unawaited.
  destruct (and_then _ _) as [[a|e0] w0]; simpl; [discriminate|].
  destruct (handleRepositoryErrors e0). simpl. by intros [= <-].
Qed.

(** X20: [update] and [remove] check the type of their first argument only
    after the initialisation.  For an argument that is neither an object
    nor a string they reject with a [RepositoryError] that carries the
    message of the [TypeError] thrown, and no request beyond those of the
    initialisation goes to the store. *)
Theorem bad_argument_is_rejected_after_initialisation :
  forall w w1 updateCommands,
    evaluateInit w = (Resolved tt, w1) ->
    update AnythingElse updateCommands w
    = (Rejected (RepositoryError "The given type got no id field nor is it a id itself."),
       mkWorld (repo w1) (store w1) ("TypeError occured." :: console w1))
    /\ remove AnythingElse w
       = (Rejected (RepositoryError "The given type is not possible to remove."),
          mkWorld (repo w1) (store w1) ("TypeError occured." :: console w1)).
Proof.
  intros w w1 updateCommands Hinit.
  unfold BaseCRUDRepository.update, BaseCRUDRepository.remove.
  rewrite Hinit. split; reflexivity.
Qed.

(** X18: once the repository is initialised, an error with which the store
    answers the request of a method, whatever its code and body, reaches
    the caller as a [RepositoryError] with the empty message: [new
    DbQueryError(err)] is built without a message and the handler passes
    that message on.  For [update] and [removeAll] the request is the call
    of the stored procedure, so every failure of a script looks the same to
    the caller. *)
Theorem store_errors_lose_code_and_body :
  forall w w1 db coll up bulk code body c,
    evaluateInit w = (Resolved tt, w1) ->
    repo w1 = mkFields (Some db) (Some coll) (Some up) (Some bulk) ->
    let w2 := mkWorld (repo w1) c ("DbQueryError occured." :: console w1) in
    (forall obj,
        DocumentClient.createDocument client (field coll "_self") obj (store w1)
        = (Failure code body, c) ->
        create obj w = (Rejected (RepositoryError ""), w2))
    /\ (forall id,
          DocumentClient.queryDocuments client (field coll "_self")
            (mkSpec "SELECT * FROM root r WHERE r.id=@id" [("@id", JStr id)]) (store w1)
          = (Failure code body, c) ->
          findOne id w = (Rejected (RepositoryError ""), w2))
    /\ (DocumentClient.queryDocuments client (field coll "_self")
          (mkSpec "SELECT * FROM root r" []) (store w1)
        = (Failure code body, c) ->
        findAll w = (Rejected (RepositoryError ""), w2))
    /\ (forall obj updateCommands,
          DocumentClient.executeStoredProcedure client (field up "_self")
            [AValue (field obj "id"); ACommands updateCommands] (store w1)
          = (Failure code body, c) ->
          update (AnObject obj) updateCommands w = (Rejected (RepositoryError ""), w2))
    /\ (forall obj,
          DocumentClient.deleteDocument client (field obj "_self") (store w1)
          = (Failure code body, c) ->
          remove (AnObject obj) w = (Rejected (RepositoryError ""), w2))
    /\ (DocumentClient.executeStoredProcedure client (field bulk "_self") [] (store w1)
        = (Failure code body, c) ->
        removeAll w = (Rejected (RepositoryError ""), w2)).
Proof.
  intros w w1 db coll up bulk code body c Hinit Hrepo w2. subst w2.
  repeat split; [intros obj|intros id| |intros obj updateCommands|intros obj|];
    intros Hreq;
    unfold BaseCRUDRepository.create, BaseCRUDRepository.findOne,
      BaseCRUDRepository.findAll, BaseCRUDRepository.update,
      BaseCRUDRepository.remove, BaseCRUDRepository.removeAll;
    rewrite Hinit; cbn [and_then settled]; rewrite Hrepo;
    cbn [collection updateProcedure bulkDeleteProcedure self_of and_then settled];
    unfold request; rewrite Hreq; simpl; rewrite ?Hrepo; reflexivity.
Qed.

End RepositoryFacts.

(** The properties above on the sample clients. *)

Lemma initialisation_happens_once_witness :
  (exists db coll up bulk,
      BaseCRUDRepository.repo
        (snd (BaseCRUDRepository.evaluateInit SampleClient.documents_fail "db" "users"
                SampleClient.fresh))
      = BaseCRUDRepository.mkFields (Some db) (Some coll) (Some up) (Some bulk))
  /\ BaseCRUDRepository.evaluateInit SampleClient.documents_fail "db" "users"
       (snd (BaseCRUDRepository.evaluateInit SampleClient.documents_fail "db" "users"
               SampleClient.fresh))
     = (Resolved tt,
        snd (BaseCRUDRepository.evaluateInit SampleClient.documents_fail "db" "users"
               SampleClient.fresh)).
Proof.
  apply (initialisation_happens_once SampleClient.documents_fail "db" "users"
           SampleClient.fresh).
  vm_compute; reflexivity.
Defined.

Lemma failed_initialisation_is_unexpected_witness :
  fst (BaseCRUDRepository.removeAll SampleClient.down "db" "users" "undefined"
         SampleClient.fresh)
  = Rejected (UnexpectedDbError "").
Proof.
  pose proof (failed_initialisation_is_unexpected SampleClient.down "db" "users"
                SampleClient.accept SampleClient.accept_all "undefined" (fun _ => "")
                SampleClient.fresh (QueryError 503 "unavailable")
                (snd (BaseCRUDRepository.evaluateInit SampleClient.down "db" "users"
                        SampleClient.fresh))
                Sample.plain "1" (BaseCRUDRepository.AString "1") Sample.push_c) as W.
  destruct W as (_ & _ & _ & _ & _ & W); [vm_compute; reflexivity|].
  rewrite W. reflexivity.
Defined.

Lemma repository_rejects_as_documented_witness :
  documented (RepositoryError "").
Proof.
  apply (proj1 (proj2 (proj2 (proj2 (proj2 (repository_rejects_as_documented
           SampleClient.documents_fail "db" "users" SampleClient.accept
           SampleClient.accept_all "undefined" (fun _ => "") SampleClient.fresh
           Sample.plain "1" "k" (BaseCRUDRepository.AnObject Sample.plain)
           Sample.push_c (RepositoryError ""))))))).
  vm_compute; reflexivity.
Defined.

Lemma findByKey_rejects_as_unexpected_witness :
  fst (BaseCRUDRepository.findByKey SampleClient.documents_fail "db" "users"
         SampleClient.accept "undefined" "test" SampleClient.fresh)
  = Rejected (UnexpectedDbError "")
  /\ UnexpectedDbError "" = UnexpectedDbError "".
Proof.
  split; [vm_compute; reflexivity|].
  apply (findByKey_rejects_as_unexpected SampleClient.documents_fail "db" "users"
           SampleClient.accept "undefined" "test" SampleClient.fresh).
  vm_compute; reflexivity.
Defined.

(** On the same store [findOne] rejects with a [RepositoryError]. *)
Example findOne_rejects_with_repository_error :
  fst (BaseCRUDRepository.findOne SampleClient.documents_fail "db" "users"
         SampleClient.accept "undefined" "1" SampleClient.fresh)
  = Rejected (RepositoryError "").
Proof. vm_compute; reflexivity. Qed.

Lemma bad_argument_is_rejected_after_initialisation_witness :
  fst (BaseCRUDRepository.update SampleClient.documents_fail "db" "users"
         SampleClient.accept "undefined" BaseCRUDRepository.AnythingElse Sample.push_c
         SampleClient.fresh)
  = Rejected (RepositoryError "The given type got no id field nor is it a id itself.")
  /\ BaseCRUDRepository.store
       (snd (BaseCRUDRepository.update SampleClient.documents_fail "db" "users"
               SampleClient.accept "undefined" BaseCRUDRepository.AnythingElse
               Sample.push_c SampleClient.fresh))
     = ["queryStoredProcedures"; "queryStoredProcedures"; "queryCollections";
        "queryDatabases"].
Proof.
  destruct (bad_argument_is_rejected_after_initialisation SampleClient.documents_fail
              "db" "users" SampleClient.accept "undefined" (fun _ => "")
              SampleClient.fresh
              (snd (BaseCRUDRepository.evaluateInit SampleClient.documents_fail
                      "db" "users" SampleClient.fresh))
              Sample.push_c) as [W _]; [vm_compute; reflexivity|].
  rewrite W. split; reflexivity.
Defined.

Lemma store_errors_lose_code_and_body_witness :
  fst (BaseCRUDRepository.remove SampleClient.documents_fail "db" "users" "undefined"
         (fun _ => "") (BaseCRUDRepository.AnObject Sample.plain) SampleClient.fresh)
  = Rejected (RepositoryError "").
Proof.
  pose proof (store_errors_lose_code_and_body SampleClient.documents_fail "db" "users"
                SampleClient.accept SampleClient.accept_all "undefined" (fun _ => "")
                SampleClient.fresh
                (snd (BaseCRUDRepository.evaluateInit SampleClient.documents_fail
                        "db" "users" SampleClient.fresh))
                (SampleClient.meta "db" "dbs/1")
                (SampleClient.meta "users" "dbs/1/colls/1")
                (SampleClient.meta "proc" "dbs/1/colls/1/sprocs/1")
                (SampleClient.meta "proc" "dbs/1/colls/1/sprocs/1")
                404%Z "not found"
                ["deleteDocument"; "queryStoredProcedures"; "queryStoredProcedures";
                 "queryCollections"; "queryDatabases"]) as W.
  destruct W as (_ & _ & _ & _ & W & _);
    [vm_compute; reflexivity|vm_compute; reflexivity|].
  rewrite (W Sample.plain); [reflexivity|vm_compute; reflexivity].
Defined.

(** * What $pop and $unshift do in each script *)

(** X23: the $pop of [updateProc].  When its targets hold arrays it goes
    through; a target whose delta is a number below zero loses its first
    element, a target whose delta is another number, a boolean or [null]
    loses its last element, and the other fields are what they were. *)
Theorem proc_pop_follows_the_sign :
  forall ToNumber (d : gmap string value) update g,
    cmd_pop update = Some g -> NoDup (keys g) ->
    (forall k, k ∈ keys g -> isArray (field d k) = true) ->
    exists d',
      UpdateProc.pop ToNumber d update = Ok d'
      /\ (forall f xs n, f ∈ keys g -> d !! f = Some (JArr xs) -> prop g f = JNum n ->
            d' !! f = Some (JArr (if (n <? 0)%Z then tail xs else removelast xs)))
      /\ (forall f xs, f ∈ keys g -> d !! f = Some (JArr xs) ->
            prop g f = JNull \/ (exists b, prop g f = JBool b) ->
            d' !! f = Some (JArr (removelast xs)))
      /\ (forall k, k ∉ keys g -> d' !! k = d !! k).
Proof.
  intros ToNumber d update g Hg Hnd Harr.
  destruct (guarded_loop_total
              "Bad $pop parameter - field in document must be an array."
              (fun f => if UpdateProc.less_than_zero ToNumber (prop g f)
                        then array_shift else array_pop)
              (keys g) d Harr) as (d' & Hloop).
  assert (UpdateProc.pop ToNumber d update = Ok d') as Hpop
    by (by rewrite (proc_pop_guarded ToNumber _ _ _ Hg)).
  exists d'. split; [done|]. split; [|split].
  - intros f xs n Hin Hf Hn.
    rewrite (proc_pop_field ToNumber _ _ _ _ _ _ Hg Hnd Hpop Hin Hf), Hn. reflexivity.
  - intros f xs Hin Hf Hdelta.
    rewrite (proc_pop_field ToNumber _ _ _ _ _ _ Hg Hnd Hpop Hin Hf).
    by destruct Hdelta as [->|(b & ->)].
  - intros k Hk. by apply (guarded_loop_frame _ _ _ _ _ _ Hloop).
Qed.

Lemma proc_pop_follows_the_sign_witness :
  exists d',
    UpdateProc.pop Sample.nan (Sample.user [Sample.a; Sample.b; Sample.c]) Sample.pop_first
    = Ok d'
    /\ (forall f xs n, f ∈ keys [("tags", JNum (-1))] ->
          Sample.user [Sample.a; Sample.b; Sample.c] !! f = Some (JArr xs) ->
          prop [("tags", JNum (-1))] f = JNum n ->
          d' !! f = Some (JArr (if (n <? 0)%Z then tail xs else removelast xs)))
    /\ (forall f xs, f ∈ keys [("tags", JNum (-1))] ->
          Sample.user [Sample.a; Sample.b; Sample.c] !! f = Some (JArr xs) ->
          prop [("tags", JNum (-1))] f = JNull
          \/ (exists b, prop [("tags", JNum (-1))] f = JBool b) ->
          d' !! f = Some (JArr (removelast xs)))
    /\ (forall k, k ∉ keys [("tags", JNum (-1))] ->
          d' !! k = Sample.user [Sample.a; Sample.b; Sample.c] !! k).
Proof.
  apply (proc_pop_follows_the_sign Sample.nan
           (Sample.user [Sample.a; Sample.b; Sample.c]) Sample.pop_first
           [("tags", JNum (-1))]).
  - reflexivity.
  - apply NoDup_singleton.
  - intros k Hk. apply list_elem_of_singleton in Hk as ->. vm_compute; reflexivity.
Defined.

(** X24: the $pop of [update.ts].  When its targets hold arrays it goes
    through and every target loses its last element, whatever value the
    group gives for it; the other fields are what they were. *)
Theorem update_ts_pop_removes_the_last :
  forall (d : gmap string value) update g,
    cmd_pop update = Some g -> NoDup (keys g) ->
    (forall k, k ∈ keys g -> isArray (field d k) = true) ->
    exists d',
      Update.pop d update = Ok d'
      /\ (forall f xs, f ∈ keys g -> d !! f = Some (JArr xs) ->
            d' !! f = Some (JArr (removelast xs)))
      /\ (forall k, k ∉ keys g -> d' !! k = d !! k).
Proof.
  intros d update g Hg Hnd Harr.
  destruct (update_pop_total d update) as (d' & Hpop); [by rewrite Hg|].
  exists d'. split; [done|]. split.
  - intros f xs Hin Hf. by apply (update_pop_last _ _ _ _ _ _ Hg Hnd Hpop Hin Hf).
  - intros k Hk. apply (update_pop_frame _ _ _ _ Hpop). by rewrite Hg.
Qed.

Lemma update_ts_pop_removes_the_last_witness :
  exists d',
    Update.pop (Sample.user [Sample.a; Sample.b; Sample.c]) Sample.pop_first = Ok d'
    /\ (forall f xs, f ∈ keys [("tags", JNum (-1))] ->
          Sample.user [Sample.a; Sample.b; Sample.c] !! f = Some (JArr xs) ->
          d' !! f = Some (JArr (removelast xs)))
    /\ (forall k, k ∉ keys [("tags", JNum (-1))] ->
          d' !! k = Sample.user [Sample.a; Sample.b; Sample.c] !! k).
Proof.
  apply (update_ts_pop_removes_the_last
           (Sample.user [Sample.a; Sample.b; Sample.c]) Sample.pop_first
           [("tags", JNum (-1))]).
  - reflexivity.
  - apply NoDup_singleton.
  - intros k Hk. apply list_elem_of_singleton in Hk as ->. vm_compute; reflexivity.
Defined.

(** X25: the $unshift of [update.ts].  When its targets hold arrays it goes
    through and every target gets the value the group gives for it in
    front of its elements; the other fields are what they were. *)
Theorem update_ts_unshift_prepends :
  forall (d : gmap string value) update g,
    cmd_unshift update = Some g -> NoDup (keys g) ->
    (forall k, k ∈ keys g -> isArray (field d k) = true) ->
    exists d',
      Update.unshift d update = Ok d'
      /\ (forall f xs, f ∈ keys g -> d !! f = Some (JArr xs) ->
            d' !! f = Some (JArr (prop g f :: xs)))
      /\ (forall k, k ∉ keys g -> d' !! k = d !! k).
Proof.
  intros d update g Hg Hnd Harr.
  destruct (update_unshift_total d update) as (d' & Hun); [by rewrite Hg|].
  exists d'. split; [done|]. split.
  - intros f xs Hin Hf. by apply (update_unshift_field _ _ _ _ _ _ Hg Hnd Hun Hin Hf).
  - intros k Hk. apply (update_unshift_frame _ _ _ _ Hun). by rewrite Hg.
Qed.

Lemma update_ts_unshift_prepends_witness :
  exists d',
    Update.unshift (Sample.user [Sample.b; Sample.c]) Sample.unshift_z = Ok d'
    /\ (forall f xs, f ∈ keys [("tags", Sample.z)] ->
          Sample.user [Sample.b; Sample.c] !! f = Some (JArr xs) ->
          d' !! f = Some (JArr (prop [("tags", Sample.z)] f :: xs)))
    /\ (forall k, k ∉ keys [("tags", Sample.z)] ->
          d' !! k = Sample.user [Sample.b; Sample.c] !! k).
Proof.
  apply (update_ts_unshift_prepends (Sample.user [Sample.b; Sample.c]) Sample.unshift_z
           [("tags", Sample.z)]).
  - reflexivity.
  - apply NoDup_singleton.
  - intros k Hk. apply list_elem_of_singleton in Hk as ->. vm_compute; reflexivity.
Defined.

(** X26: the $unshift of [updateProc], whose targets hold arrays.  With a
    $push group beside it, it goes through and every target gets in front
    what the $push group gives for that field, which is [undefined] when
    $push does not name the field; the value of the $unshift group is never
    used.  Without a $push group it throws a [TypeError] as soon as it has
    a target. *)
Theorem proc_unshift_prepends_the_push_value :
  forall (d : gmap string value) update g,
    cmd_unshift update = Some g -> NoDup (keys g) ->
    (forall k, k ∈ keys g -> isArray (field d k) = true) ->
    (forall p, cmd_push update = Some p ->
       exists d',
         UpdateProc.unshift d update = Ok d'
         /\ (forall f xs, f ∈ keys g -> d !! f = Some (JArr xs) ->
               d' !! f = Some (JArr (prop p f :: xs)))
         /\ (forall k, k ∉ keys g -> d' !! k = d !! k))
    /\ (cmd_push update = None -> keys g <> [] ->
        UpdateProc.unshift d update = Throw (TypeError "update.$push is undefined")).
Proof.
  intros d update g Hg Hnd Harr. split.
  - intros p Hp.
    destruct (guarded_loop_total
                "Bad $unshift parameter - field in document must be an array."
                (fun f xs => array_unshift xs (prop p f)) (keys g) d Harr)
      as (d' & Hloop).
    exists d'. rewrite (proc_unshift_guarded _ _ _ _ Hg Hp). split; [done|]. split.
    + intros f xs Hin Hf. apply (guarded_loop_at _ _ _ _ _ _ _ Hnd Hloop Hin Hf).
    + intros k Hk. by apply (guarded_loop_frame _ _ _ _ _ _ Hloop).
  - intros Hp Hne. destruct (keys g) as [|f rest] eqn:Hk; [done|].
    apply (proc_unshift_no_push d update g f rest Hg Hk Hp).
    apply Harr. by left.
Qed.

Lemma proc_unshift_prepends_the_push_value_witness :
  (forall p, cmd_push Sample.push_c_unshift_z = Some p ->
     exists d',
       UpdateProc.unshift (Sample.user [Sample.b]) Sample.push_c_unshift_z = Ok d'
       /\ (forall f xs, f ∈ keys [("tags", Sample.z)] ->
             Sample.user [Sample.b] !! f = Some (JArr xs) ->
             d' !! f = Some (JArr (prop p f :: xs)))
       /\ (forall k, k ∉ keys [("tags", Sample.z)] ->
             d' !! k = Sample.user [Sample.b] !! k))
  /\ (cmd_push Sample.push_c_unshift_z = None -> keys [("tags", Sample.z)] <> [] ->
      UpdateProc.unshift (Sample.user [Sample.b]) Sample.push_c_unshift_z
      = Throw (TypeError "update.$push is undefined")).
Proof.
  apply (proc_unshift_prepends_the_push_value (Sample.user [Sample.b])
           Sample.push_c_unshift_z [("tags", Sample.z)]).
  - reflexivity.
  - apply NoDup_singleton.
  - intros k Hk. apply list_elem_of_singleton in Hk as ->. vm_compute; reflexivity.
Defined.

(** * An id that no stored document has *)

Section Missing.

Implicit Types (s : Store).

Lemma paginate_nothing sizes j :
  (j <= length sizes)%nat -> paginate sizes [] !! j = Some [].
Proof.
  revert j. induction sizes as [|n sizes IH]; intros j Hj; simpl.
  - by replace j with 0%nat by (simpl in Hj; lia).
  - rewrite take_nil, drop_nil. destruct j as [|j]; [done|].
    simpl. apply IH. simpl in Hj. lia.
Qed.

Lemma paginate_length sizes (rs : list (gmap string value)) :
  length (paginate sizes rs) = S (length sizes).
Proof.
  revert rs. induction sizes as [|n sizes IH]; intros rs; simpl; [done|].
  by rewrite IH.
Qed.

Lemma no_rows_without_the_id id s :
  (forall d, d ∈ docs s -> has_id id d = false) ->
  rows (SelectById id) (docs s) = [].
Proof.
  simpl. induction (docs s) as [|d ds IH]; intros Hnone; simpl; [done|].
  rewrite (Hnone d) by left. apply IH. intros d' Hd'. apply Hnone. by right.
Qed.

End Missing.

(** X27: when no stored document has the id, both update scripts end with
    the not-found error and leave the stored documents as they are:
    [updateFunc] after its one query, the script of [updateProc] after one
    query for each page that the store cuts the empty result into, given
    the budget for them and no error of the store. *)
Theorem update_of_a_missing_id_is_not_found :
  forall ToNumber id update budget s,
    id <> "" -> quiet s ->
    (forall d, d ∈ docs s -> has_id id d = false) ->
    (length (layout s) < budget)%nat ->
    (exists s',
        Update.updateFunc (Some id) (Some update) budget s
        = (Aborted (Error "Document not found."), s')
        /\ docs s' = docs s)
    /\
    (exists s',
        UpdateProc.serverScript ToNumber (Some id) (Some update) budget s
        = (Aborted (Error "Document not found."), s')
        /\ docs s' = docs s).
Proof.
  intros ToNumber id update budget s Hid Hq Hnone Hbudget.
  pose proof (no_rows_without_the_id id s Hnone) as Hrows.
  assert (forall j, (j <= length (layout s))%nat ->
            pages (SelectById id) s !! j = Some []) as Hpages.
  { intros j Hj. unfold pages. rewrite Hrows. by apply paginate_nothing. }
  split.
  - destruct budget as [|budget]; [lia|].
    rewrite (update_empty_first_page id update budget s Hid (quiet_next_fault _ Hq)).
    + eexists. split; reflexivity.
    + rewrite Hpages by lia. reflexivity.
  - unfold UpdateProc.serverScript. rewrite (proj2 (String.eqb_neq id "") Hid).
    replace budget with (S (length (layout s) + (budget - S (length (layout s)))))
      by lia.
    apply proc_all_pages_empty; [done| |].
    + unfold pages. by rewrite paginate_length.
    + intros j _ Hj. apply Hpages. unfold pages in Hj.
      rewrite paginate_length in Hj. lia.
Qed.

Lemma update_of_a_missing_id_is_not_found_witness :
  (exists s',
      Update.updateFunc (Some "7") (Some Sample.push_c) 3
        (Sample.store [Sample.other; Sample.plain] [1%nat; 1%nat])
      = (Aborted (Error "Document not found."), s')
      /\ docs s' = [Sample.other; Sample.plain])
  /\
  (exists s',
      UpdateProc.serverScript Sample.nan (Some "7") (Some Sample.push_c) 3
        (Sample.store [Sample.other; Sample.plain] [1%nat; 1%nat])
      = (Aborted (Error "Document not found."), s')
      /\ docs s' = [Sample.other; Sample.plain]).
Proof.
  apply (update_of_a_missing_id_is_not_found Sample.nan "7" Sample.push_c 3%nat
           (Sample.store [Sample.other; Sample.plain] [1%nat; 1%nat])).
  - discriminate.
  - apply sample_store_quiet.
  - intros d Hd. apply elem_of_cons in Hd as [->|Hd]; [vm_compute; reflexivity|].
    apply list_elem_of_singleton in Hd as ->. vm_compute; reflexivity.
  - simpl. lia.
Defined.
